(** * Lepton thermal viewer: a shallow embedding of [lepton_viewer_rpi3.py]

    The viewer captures UYVY frames from a FLIR Lepton through libuvc, hands
    them from the capture callback to the render loop through a bounded queue,
    colours them with an OpenCV colormap or a custom 256-entry lookup table,
    and drives a small SPI display; button B toggles a power-save mode and a
    CPU temperature probe forces a shutdown.

    Modelling conventions.
    - Python objects mutated by the script (the [LeptonViewer] instance, the
      module-level [frame_queue]) are fields of one [state] record; every
      method is a computation in a state-and-exception monad [M].
    - Effects on the outside world (log records, subprocesses, sleeps, libuvc
      calls, GPIO and display writes) are appended to the [trace] field.
    - What the outside world answers (clock, temperature sensor, button pins,
      libuvc return codes) comes in as explicit arguments.
    - A Python float is the rational it is equal to ([Q]). Clock readings
      and temperatures are only subtracted and compared. Where the rounding
      of an operation reaches a pixel (the gain step, [np.linspace]) the
      operation returns its exact result rounded to the format, which is how
      IEEE 754 defines it: binary64 in Python and NumPy, binary32 inside
      [cv2.convertScaleAbs]. [uint8] arrays hold integers of [Z] in 0..255.
    - OpenCV primitives whose numerics no property depends on are fields of
      the record [OpenCV]; [minMaxLoc], [convertScaleAbs] and the GRAY2BGR
      conversion are defined. *)

From Stdlib Require Import ZArith QArith Qround Qabs Qminmax Qpower Qreduction.
From Stdlib Require Import Ascii String List Bool Lia Lqa.
From coqutil Require Import Datatypes.RecordSetters.
Import ListNotations.
Import RecordSetters.TriangleBracketNotations.

Set Warnings "-register-all,-notation-for-abbreviation".

Local Open Scope string_scope.
Local Open Scope list_scope.
Local Open Scope Z_scope.

(** ** Python exceptions and results *)

Inductive exn : Type :=
| ValueError (msg : string)
| IndexError
| RuntimeError (msg : string)
| ZeroDivisionError
| AttributeError
| FileNotFoundError
| SyntaxError
| QueueEmpty
| cv2_error
| KeyboardInterrupt
| SystemExit (code : Z)
| BlockedForever.

(** [except Exception] catches every class above but the two that derive
    from [BaseException] directly. [BlockedForever] is not a Python
    exception: it marks a call that never returns (a blocking [put] on a
    full queue that nobody empties), which no handler can intercept. *)
Definition is_Exception (e : exn) : bool :=
  match e with
  | KeyboardInterrupt | SystemExit _ | BlockedForever => false
  | _ => true
  end.

Inductive result (A : Type) : Type :=
| Ok (a : A)
| Raise (e : exn).
Arguments Ok {A} a.
Arguments Raise {A} e.

Definition rbind {A B} (r : result A) (k : A -> result B) : result B :=
  match r with
  | Ok a => k a
  | Raise e => Raise e
  end.

(** ** IEEE 754 arithmetic *)

(** A finite floating-point number is the rational it denotes; an
    operation of the standard returns the exact result rounded to the
    format. *)
Module ieee.

(** A binary format: the number of bits of the significand, and the
    exponent of the smallest positive number. *)
Record format := { prec : Z; emin : Z }.

Definition binary32 : format := {| prec := 24; emin := -149 |}.
Definition binary64 : format := {| prec := 53; emin := -1074 |}.

(** The integer part of the binary logarithm of [|x|], for [x] other than
    zero. *)
Definition ilog2 (x : Q) : Z :=
  let n := Z.abs (Qnum x) in
  let d := Z.pos (Qden x) in
  let k := Z.log2 n - Z.log2 d in
  if 0 <=? k
  then (if d * 2 ^ k <=? n then k else k - 1)
  else (if d <=? n * 2 ^ (- k) then k else k - 1).

(** The nearest integer, ties to the even one. *)
Definition rint (q : Q) : Z :=
  let f := Qfloor q in
  match (q - inject_Z f ?= 1 # 2)%Q with
  | Lt => f
  | Gt => f + 1
  | Eq => if Z.even f then f else f + 1
  end.

(** The exponent of the unit in the last place of [x]. *)
Definition ulp_exponent (f : format) (x : Q) : Z :=
  Z.max (ilog2 x - prec f + 1) (emin f).

(** [x] rounded to the format, to nearest, ties to even: the multiple of
    the unit in the last place nearest to [x], as a fraction in lowest
    terms. Every quantity of the program is far below the overflow
    threshold; infinities and NaN are not represented. *)
Definition round (f : format) (x : Q) : Q :=
  if Qeq_bool x 0 then 0%Q
  else
    let e := ulp_exponent f x in
    Qred (inject_Z (rint (x / 2 ^ e)) * 2 ^ e).

(** C's [float] and [double]; Python's [float] is the latter. *)
Definition single : Q -> Q := round binary32.
Definition double : Q -> Q := round binary64.

End ieee.

(** ** A small model of NumPy arrays *)

Module np.

Inductive dtype := uint8 | float64.

Definition dtype_eqb (a b : dtype) : bool :=
  match a, b with
  | uint8, uint8 | float64, float64 => true
  | _, _ => false
  end.

(** The element buffer in row-major order; its constructor is the dtype. *)
Inductive buffer :=
| U8 (l : list Z)
| F64 (l : list Q).

Record ndarray := mk_ndarray {
  shape : list Z;
  buf : buffer;
  c_contiguous : bool
}.

Definition dtype_of (a : ndarray) : dtype :=
  match buf a with
  | U8 _ => uint8
  | F64 _ => float64
  end.

(** [a.size]: the product of the dimensions. *)
Definition size (a : ndarray) : Z := fold_right Z.mul 1 (shape a).

Definition buf_length (b : buffer) : Z :=
  match b with
  | U8 l => Z.of_nat (length l)
  | F64 l => Z.of_nat (length l)
  end.

(** [len(a)]: the first dimension. *)
Definition len (a : ndarray) : Z :=
  match shape a with
  | n :: _ => n
  | [] => 0
  end.

(** A well-formed array owns as many elements as its shape announces, and a
    [uint8] array holds bytes. *)
Definition bytes (l : list Z) : Prop := Forall (fun v => 0 <= v < 256) l.

Definition wf (a : ndarray) : Prop :=
  buf_length (buf a) = size a /\
  match buf a with
  | U8 l => bytes l
  | F64 _ => True
  end.

Definition range (n : Z) : list Z := map Z.of_nat (seq 0 (Z.to_nat n)).

(** One sample of [np.linspace(start, stop, num)] (endpoint included), as
    NumPy computes it in double precision: [y = arange(num) * step + start]
    with [step = (stop - start) / (num - 1)], or
    [y = arange(num) / (num - 1) * (stop - start) + start] when a component
    of [step] is zero; the last sample is overwritten with [stop]; with a
    single sample the division is not performed. *)
Definition linspace_sample (num i : Z) (any_step_zero : bool) (start stop : Q) : Q :=
  let div := num - 1 in
  let delta := ieee.double (stop - start) in
  if (1 <? num) && (i =? num - 1) then stop
  else
    let y :=
      if 0 <? div
      then
        if any_step_zero
        then ieee.double (ieee.double (inject_Z i / inject_Z div) * delta)
        else ieee.double (inject_Z i * ieee.double (delta / inject_Z div))
      else ieee.double (inject_Z i * delta) in
    ieee.double (y + start).

(** [step == 0] for one component. *)
Definition step_is_zero (num : Z) (start stop : Q) : bool :=
  Qeq_bool (ieee.double (ieee.double (stop - start) / inject_Z (num - 1))) 0.

Definition linspace_row (num : Z) (start stop : list Q) (i : Z) : list Q :=
  let any_step_zero :=
    existsb (fun '(a, b) => step_is_zero num a b) (combine start stop) in
  map (fun '(a, b) => linspace_sample num i any_step_zero a b) (combine start stop).

(** [np.linspace(start, stop, num)] for two one-dimensional endpoints of the
    same length: a float array of shape [(num, len(start))]. *)
Definition linspace (start stop : list Q) (num : Z) : result ndarray :=
  if num <? 0 then Raise (ValueError "Number of samples must be non-negative.")
  else if negb (length start =? length stop)%nat
  then Raise (ValueError "operands could not be broadcast together")
  else Ok {| shape := [num; Z.of_nat (length start)];
             buf := F64 (flat_map (linspace_row num start stop) (range num));
             c_contiguous := true |}.

(** Conversion of a float to [uint8]: truncation toward zero, then wrap. *)
Definition Qtrunc (q : Q) : Z := Z.quot (Qnum q) (Z.pos (Qden q)).
Definition to_uint8 (q : Q) : Z := (Qtrunc q) mod 256.

(** [a.astype(np.uint8)]: a fresh contiguous array. *)
Definition astype_uint8 (a : ndarray) : ndarray :=
  {| shape := shape a;
     buf := match buf a with
            | U8 l => U8 l
            | F64 l => U8 (map to_uint8 l)
            end;
     c_contiguous := true |}.

(** The elements of an array read as floats ([asanyarray(a) * 1.0]). *)
Definition as_floats (b : buffer) : list Q :=
  match b with
  | U8 l => map inject_Z l
  | F64 l => l
  end.

Definition list_eqb (l1 l2 : list Z) : bool :=
  (length l1 =? length l2)%nat && forallb (fun '(a, b) => a =? b) (combine l1 l2).

(** [np.concatenate((a, b))] along axis 0 for two [uint8] arrays. *)
Definition concatenate (a b : ndarray) : result ndarray :=
  match shape a, shape b, buf a, buf b with
  | n1 :: t1, n2 :: t2, U8 l1, U8 l2 =>
      if list_eqb t1 t2
      then Ok {| shape := (n1 + n2) :: t1; buf := U8 (l1 ++ l2); c_contiguous := true |}
      else Raise (ValueError "all the input array dimensions except for the concatenation axis must match exactly")
  | _, _, _, _ => Raise (ValueError "zero-dimensional arrays cannot be concatenated")
  end.

(** [a[0]] and [a[-1]] of a two-dimensional array: its first and last row. *)
Definition row_width (a : ndarray) : nat :=
  Z.to_nat (fold_right Z.mul 1 (tl (shape a))).

Definition first_row (a : ndarray) : result (list Q) :=
  if len a <=? 0 then Raise IndexError
  else Ok (firstn (row_width a) (as_floats (buf a))).

Definition last_row (a : ndarray) : result (list Q) :=
  if len a <=? 0 then Raise IndexError
  else Ok (skipn (Z.to_nat (len a - 1) * row_width a)%nat (as_floats (buf a))).

(** The entries of an array along its first axis, each one flattened. *)
Fixpoint chunks {A} (k : nat) (n : nat) (l : list A) : list (list A) :=
  match n with
  | O => []
  | S n' => firstn k l :: chunks k n' (skipn k l)
  end.

Definition u8_entries (a : ndarray) : option (list (list Z)) :=
  match buf a with
  | U8 l => Some (chunks (row_width a) (Z.to_nat (len a)) l)
  | F64 _ => None
  end.

(** [a.reshape(dims)]: same buffer, new shape; the sizes must agree.
    Reshaping keeps the contiguity of its argument. *)
Definition reshape (a : ndarray) (dims : list Z) : result ndarray :=
  if size a =? fold_right Z.mul 1 dims
  then Ok {| shape := dims; buf := buf a; c_contiguous := c_contiguous a |}
  else Raise (ValueError "cannot reshape array").

(** [np.ascontiguousarray(a)]. *)
Definition ascontiguousarray (a : ndarray) : ndarray :=
  {| shape := shape a; buf := buf a; c_contiguous := true |}.

(** [a.copy()]: a fresh array in C order. *)
Definition copy (a : ndarray) : ndarray :=
  {| shape := shape a; buf := buf a; c_contiguous := true |}.

Definition shape_eqb (a : ndarray) (dims : list Z) : bool := list_eqb (shape a) dims.

End np.

Import np(ndarray).

(** ** Configuration constants *)

Definition CAM_WIDTH : Z := 160.
Definition CAM_HEIGHT : Z := 120.
Definition CAM_FPS : Z := 9.

Definition CPU_GOVERNOR_SAVE : string := "powersave".
Definition CPU_GOVERNOR_RUN : string := "ondemand".

Definition CPU_TEMP_SHUTDOWN_CHECK_INTERVAL_S : Q := 30.
Definition CPU_TEMP_LOG_INTERVAL_S : Q := 300.
Definition CPU_TEMP_SHUTDOWN_THRESHOLD_C : Q := 75.

Definition BUF_SIZE : Z := 2.

(** The colormap identifiers of OpenCV used by the script. *)
Definition COLORMAP_BONE : Z := 1.
Definition COLORMAP_OCEAN : Z := 5.
Definition COLORMAP_COOL : Z := 8.
Definition COLORMAP_HOT : Z := 11.
Definition COLORMAP_VIRIDIS : Z := 16.

(** ** Observable effects *)

Inductive level := DEBUG | INFO | WARNING | ERROR | CRITICAL.

Definition level_no (l : level) : Z :=
  match l with
  | DEBUG => 10 | INFO => 20 | WARNING => 30 | ERROR => 40 | CRITICAL => 50
  end.

Definition LOG_LEVEL : level := INFO.

Inductive uvc_call :=
| uvc_init | uvc_find_device | uvc_open | uvc_get_stream_ctrl_format_size
| uvc_start_streaming | uvc_stop_streaming
| uvc_close | uvc_unref_device | uvc_exit.

Inductive picture :=
| black_img (width height : Z)
| fromarray (a : ndarray).

Inductive effect :=
| Log (lvl : level) (msg : string)
| Subprocess (argv : list string)
| Sleep (seconds : Q)
| QueueWait (timeout : Q)
| Libuvc (call : uvc_call)
| BacklightValue (on : bool)
| DispImage (img : picture).

(** ** The program state *)

(** An entry of [self.colormaps] is an OpenCV colormap id or a custom
    lookup table (the script tells them apart with [isinstance]). *)
Inductive colormap :=
| ColormapId (id : Z)
| CustomLut (lut : ndarray).

Record state := mk_state {
  (* attributes of the LeptonViewer instance; a handle is [true] when set *)
  disp : bool;
  backlight : bool;
  buttonA : bool;
  buttonB : bool;
  uvc_ctx : bool;
  uvc_dev : bool;
  uvc_devh : bool;
  is_running : bool;
  display_active : bool;
  stream_is_active : bool;
  frame_count : Z;
  start_time : Q;
  last_display_time : Q;
  last_temp_shutdown_check_time : Q;
  last_temp_log_time : Q;
  last_button_a_time : Q;
  last_button_b_time : Q;
  colormaps : list (string * colormap);
  colormap_index : Z;
  current_colormap : colormap;
  current_colormap_name : string;
  (* the module-level queue, oldest frame first *)
  frame_queue : list ndarray;
  (* everything the program did to the outside world, oldest first *)
  trace : list effect
}.

(** ** The monad of methods: state passing with Python exceptions *)

Definition M (A : Type) : Type := state -> state * result A.

Definition ret {A} (a : A) : M A := fun s => (s, Ok a).
Definition raise {A} (e : exn) : M A := fun s => (s, Raise e).

Definition bind {A B} (m : M A) (k : A -> M B) : M B :=
  fun s =>
    match m s with
    | (s', Ok a) => k a s'
    | (s', Raise e) => (s', Raise e)
    end.

Declare Scope py_scope.
Delimit Scope py_scope with py.
Notation "x <- m ;; k" := (bind m (fun x => k))
  (at level 61, m at next level, right associativity) : py_scope.
Notation "m ;; k" := (bind m (fun _ => k))
  (at level 61, right associativity) : py_scope.
Local Open Scope py_scope.

Definition lift {A} (r : result A) : M A := fun s => (s, r).
Definition gets {A} (f : state -> A) : M A := fun s => (s, Ok (f s)).
Definition modify (f : state -> state) : M unit := fun s => (f s, Ok tt).
Definition emit (e : effect) : M unit :=
  modify (fun s => s <| trace := trace s ++ [e] |>).

(** [try: body except <classes>: handler]; [catches] selects the classes. *)
Definition try_except {A} (body : M A) (catches : exn -> bool) (handler : exn -> M A) : M A :=
  fun s =>
    match body s with
    | (s', Ok a) => (s', Ok a)
    | (s', Raise e) => if catches e then handler e s' else (s', Raise e)
    end.

(** [try: body finally: fin]: [fin] always runs; an exception of [fin]
    replaces the outcome of [body]. *)
Definition try_finally {A} (body : M A) (fin : M unit) : M A :=
  fun s =>
    match body s with
    | (s', r) =>
        match fin s' with
        | (s'', Ok _) => (s'', r)
        | (s'', Raise e) => (s'', Raise e)
        end
    end.

Definition when (b : bool) (m : M unit) : M unit := if b then m else ret tt.

(** ** Logging *)

(** [logging.basicConfig(level=LOG_LEVEL)]: a record below the level is
    dropped. Interpolated values are left out of the message text. *)
Definition isEnabledFor (lvl : level) : bool := level_no LOG_LEVEL <=? level_no lvl.

Definition logging_log (lvl : level) (msg : string) : M unit :=
  when (isEnabledFor lvl) (emit (Log lvl msg)).

Definition logging_debug := logging_log DEBUG.
Definition logging_info := logging_log INFO.
Definition logging_warning := logging_log WARNING.
Definition logging_error := logging_log ERROR.
Definition logging_critical := logging_log CRITICAL.
(** [logging.exception] logs at level ERROR (with the traceback). *)
Definition logging_exception := logging_log ERROR.

(** ** Comparisons and division of floats *)

Definition Qgtb (a b : Q) : bool := negb (Qle_bool a b).
Definition Qgeb (a b : Q) : bool := Qle_bool b a.

(** Python's [/] on floats raises on a zero divisor. *)
Definition py_div (a b : Q) : result Q :=
  if Qeq_bool b 0 then Raise ZeroDivisionError else Ok (ieee.double (a / b)).

(** ** Custom lookup tables built by the viewer *)

(** The [if color == ...] chain of [create_custom_lut]: the dark and the
    saturated end of the colour ramp (in BGR order) and its length. *)
Definition gradient_colors_of (color : string) (color_gradient_step : Z)
  : result (list Z * list Z * Z) :=
  if (color =? "red")%string
  then Ok ([64; 0; 0], [255; 0; 0], color_gradient_step)
  else if (color =? "green")%string
  then Ok ([0; 64; 0], [0; 255; 0], color_gradient_step)
  else if (color =? "blue")%string
  then Ok ([0; 0; 64], [0; 0; 255], color_gradient_step)
  else Raise (ValueError "Unsupported color for LUT creation. Supported: 'red', 'green', 'blue'.").

(** [np.linspace(start, stop, num).astype(np.uint8)] on integer endpoints. *)
Definition linspace_uint8 (start stop : list Z) (num : Z) : result ndarray :=
  rbind (np.linspace (map inject_Z start) (map inject_Z stop) num)
        (fun a => Ok (np.astype_uint8 a)).

(** [LeptonViewer.create_custom_lut(color, color_gradient_step)]. *)
Definition create_custom_lut (color : string) (color_gradient_step : Z) : M ndarray :=
  if (color_gradient_step <=? 0) || (color_gradient_step >=? 256)
  then raise (ValueError "color_gradient_step must be between 1 and 255.")
  else
    gradient_colors <- lift (gradient_colors_of color color_gradient_step);;
    let '(dark, bright, num) := gradient_colors in
    let BLACK_TO_WHITE_STEP := 256 - color_gradient_step in
    custom_colors <-
      (if BLACK_TO_WHITE_STEP <=? 0
       then
         logging_warning "Color gradient step is too large, cannot create black-to-white segment. Adjusting.";;
         lift (linspace_uint8 dark bright 256)
       else
         black_to_white <- lift (linspace_uint8 [0; 0; 0] [255; 255; 255] BLACK_TO_WHITE_STEP);;
         color_gradient <- lift (linspace_uint8 dark bright num);;
         lift (np.concatenate black_to_white color_gradient));;
    custom_colors <-
      (if negb (np.len custom_colors =? 256)
       then
         logging_warning "Custom LUT concatenation did not result in 256 entries. Interpolating to 256 (may lose detail).";;
         first <- lift (np.first_row custom_colors);;
         last <- lift (np.last_row custom_colors);;
         resampled <- lift (np.linspace first last 256);;
         ret (np.astype_uint8 resampled)
       else ret custom_colors);;
    custom_lut <- lift (np.reshape custom_colors [256; 1; 3]);;
    let custom_lut := np.ascontiguousarray custom_lut in
    logging_debug "Created custom LUT";;
    ret custom_lut.

(** [LeptonViewer.add_custom_luts()]. *)
Definition append_colormap (name : string) (c : colormap) : M unit :=
  modify (fun s => s <| colormaps := colormaps s ++ [(name, c)] |>).

Definition add_custom_luts : M unit :=
  try_except
    (red_lut <- create_custom_lut "red" 64;;
     append_colormap "RED_GRADIENT" (CustomLut red_lut);;
     logging_info "Added custom LUT: RED_GRADIENT";;
     green_lut <- create_custom_lut "green" 64;;
     append_colormap "GREEN_GRADIENT" (CustomLut green_lut);;
     logging_info "Added custom LUT: GREEN_GRADIENT";;
     blue_lut <- create_custom_lut "blue" 64;;
     append_colormap "BLUE_GRADIENT" (CustomLut blue_lut);;
     logging_info "Added custom LUT: BLUE_GRADIENT")
    is_Exception
    (fun e => logging_error "Error adding custom LUTs").

(** ** OpenCV *)

(** The primitives of OpenCV the viewer calls and whose pixel arithmetic is
    left abstract; each may raise [cv2.error]. [resize_linear src (w, h)]
    stands for [cv2.resize(src, (w, h), interpolation=cv2.INTER_LINEAR)].
    The last two fields tell how the library was built, which the
    arithmetic of [cv2.convertScaleAbs] depends on: whether its
    multiply-add rounds once (a fused instruction) or twice, and whether
    [cvRound] rounds to the nearest integer with ties to the even one or
    adds one half and truncates. *)
Record OpenCV := {
  cvtColor_YUV2BGR_UYVY : ndarray -> result ndarray;
  cvtColor_BGR2GRAY : ndarray -> result ndarray;
  cvtColor_BGR2RGB : ndarray -> result ndarray;
  applyColorMap : ndarray -> colormap -> result ndarray;
  resize_linear : ndarray -> Z * Z -> result ndarray;
  fused_multiply_add : bool;
  cvRound_ties_even : bool
}.

Module cv2.

(** [cv2.minMaxLoc(src)]: the smallest and the largest element, as floats. *)
Definition minMaxLoc (src : ndarray) : result (Q * Q) :=
  match np.buf src with
  | np.U8 (v :: l) => Ok (inject_Z (fold_right Z.min v l), inject_Z (fold_right Z.max v l))
  | np.F64 (v :: l) => Ok (fold_right Qmin v l, fold_right Qmax v l)
  | _ => Raise cv2_error
  end.

(** [cvRound(float)]: the nearest integer with ties to the even one, or
    [(int)(x + 0.5f)] (with [-0.5f] below zero) where the build adds one
    half in single precision and truncates. *)
Definition cvRound (cv : OpenCV) (x : Q) : Z :=
  if cvRound_ties_even cv then ieee.rint x
  else np.Qtrunc (ieee.single (x + (if Qle_bool 0 x then 1 # 2 else - (1 # 2)))).

(** [saturate_cast<uchar>]. *)
Definition saturate_u8 (z : Z) : Z := Z.max 0 (Z.min 255 z).

(** [x * a + b] in single precision, rounded once or twice. *)
Definition multiply_add (cv : OpenCV) (x a b : Q) : Q :=
  if fused_multiply_add cv then ieee.single (x * a + b)
  else ieee.single (ieee.single (x * a) + b).

(** [cv2.convertScaleAbs(src, alpha, beta)]:
    [dst = saturate_cast<uchar>(|src * alpha + beta|)], element by element,
    computed in single precision from [(float)alpha] and [(float)beta]. *)
Definition convertScaleAbs_elem (cv : OpenCV) (alpha beta v : Q) : Z :=
  let a := ieee.single alpha in
  let b := ieee.single beta in
  saturate_u8 (cvRound cv (Qabs (multiply_add cv (ieee.single v) a b))).

Definition convertScaleAbs (cv : OpenCV) (src : ndarray) (alpha beta : Q) : ndarray :=
  {| np.shape := np.shape src;
     np.buf := np.U8 (map (convertScaleAbs_elem cv alpha beta) (np.as_floats (np.buf src)));
     np.c_contiguous := true |}.

(** [cv2.cvtColor(src, cv2.COLOR_GRAY2BGR)]: the intensity copied into the
    three channels of every pixel. *)
Definition cvtColor_GRAY2BGR (src : ndarray) : ndarray :=
  {| np.shape := np.shape src ++ [3];
     np.buf := match np.buf src with
               | np.U8 l => np.U8 (flat_map (fun v => [v; v; v]) l)
               | np.F64 l => np.F64 (flat_map (fun v => [v; v; v]) l)
               end;
     np.c_contiguous := true |}.

End cv2.

(** ** The frame queue: [Queue(BUF_SIZE)] *)

Definition qsize (s : state) : Z := Z.of_nat (length (frame_queue s)).

Definition queue_full : M bool := gets (fun s => (0 <? BUF_SIZE) && (BUF_SIZE <=? qsize s)).
Definition queue_empty : M bool := gets (fun s => qsize s =? 0).

(** [frame_queue.put(item)] blocks while the queue is full. *)
Definition queue_put (item : ndarray) : M unit :=
  full <- queue_full;;
  if full then raise BlockedForever
  else modify (fun s => s <| frame_queue := frame_queue s ++ [item] |>).

Definition queue_get_nowait : M ndarray :=
  q <- gets frame_queue;;
  match q with
  | [] => raise QueueEmpty
  | item :: rest => modify (fun s => s <| frame_queue := rest |>);; ret item
  end.

(** [frame_queue.get(block=True, timeout=t)]: with nothing queued the caller
    waits [t] seconds and gets [queue.Empty]. *)
Definition queue_get (timeout : Q) : M ndarray :=
  q <- gets frame_queue;;
  match q with
  | [] => emit (QueueWait timeout);; raise QueueEmpty
  | item :: rest => modify (fun s => s <| frame_queue := rest |>);; ret item
  end.

(** ** The capture callback *)

(** The [uvc_frame] structure handed over by libuvc: [data] is a pointer
    ([None] when null) to memory read as a function of the byte offset. *)
Record uvc_frame := {
  data : option (nat -> Z);
  data_bytes : Z;
  width : Z;
  height : Z
}.

(** [cast(data, POINTER(c_uint8 * n)).contents]: the [n] bytes at [data]. *)
Definition read_bytes (mem : nat -> Z) (n : Z) : list Z :=
  map (fun i => mem i mod 256) (seq 0 (Z.to_nat n)).

Definition frombuffer (l : list Z) : ndarray :=
  {| np.shape := [Z.of_nat (length l)]; np.buf := np.U8 l; np.c_contiguous := true |}.

Definition is_QueueEmpty (e : exn) : bool :=
  match e with QueueEmpty => true | _ => false end.

(** [py_frame_callback(frame, userptr)]; [frame] is [None] for a null
    pointer. *)
Definition py_frame_callback (frame : option uvc_frame) : M unit :=
  try_except
    (match frame with
     | None => ret tt
     | Some contents =>
         match data contents with
         | None => ret tt
         | Some mem =>
             if negb (width contents =? CAM_WIDTH) || negb (height contents =? CAM_HEIGHT)
             then ret tt
             else
               let actual_bytes := data_bytes contents in
               let expected_bytes := CAM_WIDTH * CAM_HEIGHT * 2 in
               if negb (actual_bytes =? expected_bytes) then ret tt
               else
                 let data_buffer := read_bytes mem actual_bytes in
                 frame_data_np <- lift (np.reshape (frombuffer data_buffer)
                                                   [CAM_HEIGHT; CAM_WIDTH; 2]);;
                 full <- queue_full;;
                 if negb full then queue_put (np.copy frame_data_np)
                 else
                   try_except
                     (queue_get_nowait;; queue_put (np.copy frame_data_np))
                     is_QueueEmpty
                     (fun _ => ret tt)
         end
     end)
    is_Exception
    (fun e => logging_exception "ERROR in py_frame_callback").

(** ** What the outside world answers *)

(** The outcome of [subprocess.run]: the command ran and returned a code,
    the executable is missing, or another exception came up. *)
Inductive subprocess_outcome :=
| Returncode (rc : Z)
| CommandNotFound
| SubprocessError.

(** Reading [/sys/class/thermal/thermal_zone0/temp]: an integer of
    millidegrees, no such file, or anything else going wrong. *)
Inductive sensor_read :=
| MilliCelsius (m : Z)
| SensorMissing
| SensorUnreadable.

(** The answers collected during one pass of the render loop. A button pin
    is pulled up: it reads [false] while the button is held down. *)
Record env := {
  time_time : Q;
  temp_sensor : sensor_read;
  buttonA_value : bool;
  buttonB_value : bool;
  cpufreq_set : subprocess_outcome;
  shutdown_cmd : subprocess_outcome;
  uvc_start_res : Z;
  uvc_stop_raises : bool;
  sigint : bool
}.

(** ** Helpers *)

Definition set_cpu_governor (out : subprocess_outcome) (governor : string) : M bool :=
  logging_info "Attempting to set CPU governor";;
  emit (Subprocess ["sudo"; "cpufreq-set"; "-g"; governor]);;
  match out with
  | Returncode rc =>
      if rc =? 0
      then logging_info "Successfully set CPU governor.";; ret true
      else logging_warning "Failed to set CPU governor.";; ret false
  | CommandNotFound =>
      logging_error "ERROR: 'cpufreq-set' not found. Install 'cpufrequtils'.";; ret false
  | SubprocessError =>
      logging_exception "ERROR: Exception setting CPU governor";; ret false
  end.

Definition get_cpu_temperature (sensor : sensor_read) : M (option Q) :=
  match sensor with
  | MilliCelsius temp_milli_c => ret (Some (inject_Z temp_milli_c / 1000)%Q)
  | SensorMissing => ret None
  | SensorUnreadable => logging_error "Could not read CPU temperature";; ret None
  end.

(** [shutdown_pi(reason)]: [subprocess.run(..., check=True)] raises on a
    non-zero return code; every failure is logged and swallowed. *)
Definition shutdown_pi (out : subprocess_outcome) (reason : string) : M unit :=
  logging_critical ("!!! " ++ reason ++ " detected! Initiating shutdown NOW! !!!")%string;;
  emit (Subprocess ["sudo"; "shutdown"; "-h"; "now"]);;
  match out with
  | Returncode 0 => ret tt
  | _ =>
      logging_exception "ERROR: Failed to initiate shutdown";;
      logging_error "       Manual shutdown may be required."
  end.

Definition LCD_WIDTH : Z := 240.
Definition LCD_HEIGHT : Z := 240.

(** [Image.new("RGB", (disp.width, disp.height), "black")] sent to the
    display. *)
Definition disp_image_black : M unit := emit (DispImage (black_img LCD_WIDTH LCD_HEIGHT)).

(** ** Stream control *)

Definition start_uvc_stream (e : env) : M bool :=
  active <- gets stream_is_active;;
  if active then ret true
  else
    devh <- gets uvc_devh;;
    if negb devh
    then logging_error "Cannot start stream, UVC handle not ready.";; ret false
    else
      logging_info "Attempting to start UVC stream...";;
      emit (Libuvc uvc_start_streaming);;
      let res := uvc_start_res e in
      if res <? 0
      then
        logging_error "uvc_start_streaming failed";;
        modify (fun s => s <| stream_is_active := false |>);;
        ret false
      else
        logging_info "UVC stream started.";;
        modify (fun s => s <| stream_is_active := true |>
                           <| last_display_time := time_time e |>);;
        ret true.

(** [while not frame_queue.empty(): get_nowait(); cleared_frames += 1],
    leaving on [queue.Empty]. The loop runs at most once per queued frame;
    [fuel] bounds the number of passes. *)
Fixpoint drain_queue (fuel : nat) (cleared_frames : Z) : M Z :=
  match fuel with
  | O => ret cleared_frames
  | S fuel' =>
      empty <- queue_empty;;
      if empty then ret cleared_frames
      else
        try_except
          (queue_get_nowait;; drain_queue fuel' (cleared_frames + 1))
          is_QueueEmpty
          (fun _ => ret cleared_frames)
  end.

Definition drain_frame_queue : M Z :=
  q <- gets frame_queue;;
  drain_queue (S (length q)) 0.

Definition clear_frame_queue : M Z :=
  cleared_frames <- drain_frame_queue;;
  logging_info "Cleared frames from the queue.";;
  ret cleared_frames.

Definition stop_uvc_stream (e : env) : M unit :=
  active <- gets stream_is_active;;
  if negb active then ret tt
  else
    devh <- gets uvc_devh;;
    if negb devh
    then logging_warning "UVC device handle is None. Cannot stop stream."
    else
      try_finally
        (try_except
           (emit (Libuvc uvc_stop_streaming);;
            if uvc_stop_raises e then raise (RuntimeError "uvc_stop_streaming")
            else logging_info "UVC stream stopped for power save.")
           is_Exception
           (fun ex => logging_warning "Error stopping UVC stream"))
        (modify (fun s => s <| stream_is_active := false |>);;
         drain_frame_queue;;
         logging_info "Cleared frames from the queue.").

(** ** Start-up and tear-down *)

(** [LeptonViewer.cleanup()]. Every release is wrapped in its own
    [try/except Exception] in the script and cannot raise. *)
Definition cleanup (e : env) : M unit :=
  logging_info "Cleaning up resources...";;
  stop_uvc_stream e;;
  devh <- gets uvc_devh;;
  when devh (emit (Libuvc uvc_close);; logging_info "UVC device handle closed.");;
  modify (fun s => s <| uvc_devh := false |>);;
  dev <- gets uvc_dev;;
  when dev (emit (Libuvc uvc_unref_device);; logging_info "UVC device unreferenced.");;
  modify (fun s => s <| uvc_dev := false |>);;
  ctx <- gets uvc_ctx;;
  when ctx (emit (Libuvc uvc_exit);; logging_info "UVC context exited.");;
  modify (fun s => s <| uvc_ctx := false |>);;
  a <- gets buttonA;;
  when a (logging_info "Button A deinit.");;
  b <- gets buttonB;;
  when b (logging_info "Button B deinit.");;
  bl <- gets backlight;;
  when bl (emit (BacklightValue false);; logging_info "Backlight pin deinit (OFF).");;
  modify (fun s => s <| buttonA := false |> <| buttonB := false |> <| backlight := false |>);;
  d <- gets disp;;
  when d (logging_info "Clearing display (fill black)...";;
          disp_image_black;;
          logging_info "Display cleared.");;
  modify (fun s => s <| disp := false |>);;
  logging_info "Cleanup finished.";;
  logging_info "--- Script Finished ---".

(** The return codes of the four libuvc calls of [initialize_camera]. *)
Record camera_env := {
  res_uvc_init : Z;
  res_uvc_find_device : Z;
  res_uvc_open : Z;
  res_uvc_get_stream_ctrl : Z
}.

Definition initialize_camera (c : camera_env) (e : env) : M unit :=
  logging_info "Initializing libuvc Camera...";;
  emit (Libuvc uvc_init);;
  if res_uvc_init c <? 0
  then logging_error "uvc_init error";; raise (RuntimeError "uvc_init error")
  else
    modify (fun s => s <| uvc_ctx := true |>);;
    emit (Libuvc uvc_find_device);;
    if res_uvc_find_device c <? 0
    then
      logging_error "uvc_find_device error";;
      emit (Libuvc uvc_exit);;
      raise (RuntimeError "uvc_find_device error")
    else
      modify (fun s => s <| uvc_dev := true |>);;
      logging_info "Found device.";;
      emit (Libuvc uvc_open);;
      if res_uvc_open c <? 0
      then
        logging_error "uvc_open error";;
        emit (Libuvc uvc_unref_device);;
        emit (Libuvc uvc_exit);;
        raise (RuntimeError "uvc_open error")
      else
        modify (fun s => s <| uvc_devh := true |>);;
        logging_info "Device opened!";;
        logging_info "Requesting stream control: UYVY";;
        emit (Libuvc uvc_get_stream_ctrl_format_size);;
        if res_uvc_get_stream_ctrl c <? 0
        then
          logging_error "uvc_get_stream_ctrl_format_size failed";;
          cleanup e;;
          raise (RuntimeError "uvc_get_stream_ctrl_format_size failed")
        else
          logging_info "uvc_get_stream_ctrl_format_size OK for UYVY.";;
          logging_info "Camera Initialized (Stream not started yet).".

(** The step of [initialize_display_and_buttons] that raises, if any. *)
Inductive display_failure :=
| DigitalioPins
| ControlPins
| BusioSPI
| DisplayDriver.

Definition exit {A} (code : Z) : M A := raise (SystemExit code).

Definition initialize_display_and_buttons (failure : option display_failure) : M unit :=
  logging_info "Initializing Adafruit Mini PiTFT...";;
  match failure with
  | Some DigitalioPins => logging_exception "ERROR initializing digitalio pins";; exit 1
  | _ =>
      active <- gets display_active;;
      modify (fun s => s <| backlight := true |>);;
      emit (BacklightValue active);;
      modify (fun s => s <| buttonA := true |> <| buttonB := true |>);;
      logging_info "Backlight and Buttons Initialized.";;
      match failure with
      | Some ControlPins => logging_exception "ERROR initializing display control pins";; exit 1
      | Some BusioSPI => logging_exception "ERROR initializing busio SPI";; exit 1
      | Some DisplayDriver => logging_exception "ERROR initializing display driver";; exit 1
      | _ =>
          modify (fun s => s <| disp := true |>);;
          logging_info "LCD Initialized via adafruit_rgb_display.st7789.";;
          disp_image_black;;
          logging_info "Display cleared to black."
      end
  end.

(** ** Lookup tables loaded from [.lut] files *)

Module str.

Definition endswith (s suffix : string) : bool :=
  let n := String.length s in
  let k := String.length suffix in
  (k <=? n)%nat && (substring (n - k) k s =? suffix)%string.

Definition startswith (s pre : string) : bool := prefix pre s.

(** The white space of [str.strip()] and [str.isspace()] among the
    characters a [string] holds (the code points below 256): the ASCII
    controls 9 to 13 and 28 to 31, the space, U+0085 and U+00A0. *)
Definition is_space (c : Ascii.ascii) : bool :=
  let n := Z.of_N (Ascii.N_of_ascii c) in
  ((9 <=? n) && (n <=? 13)) || ((28 <=? n) && (n <=? 32)) || (n =? 133) || (n =? 160).

Fixpoint lstrip (l : list Ascii.ascii) : list Ascii.ascii :=
  match l with
  | c :: l' => if is_space c then lstrip l' else l
  | [] => []
  end.

Definition strip (s : string) : string :=
  string_of_list_ascii (rev (lstrip (rev (lstrip (list_ascii_of_string s))))).

Definition upper_char (c : Ascii.ascii) : Ascii.ascii :=
  let n := Ascii.nat_of_ascii c in
  if (97 <=? n)%nat && (n <=? 122)%nat then Ascii.ascii_of_nat (n - 32) else c.

Definition upper (s : string) : string :=
  string_of_list_ascii (map upper_char (list_ascii_of_string s)).

(** [os.path.splitext(name)[0]] for a name ending in a four-character
    extension: the name without it, unless only dots come before. *)
Definition splitext_root (name : string) : string :=
  let stem := substring 0 (String.length name - 4) name in
  if forallb (Ascii.eqb "."%char) (list_ascii_of_string stem) then name else stem.

End str.

(** The values [ast.literal_eval] can return, as far as the loader looks. *)
Inductive py_value :=
| PyInt (z : Z)
| PyStr (s : string)
| PyNone
| PyTuple (items : list py_value)
| PyList (items : list py_value).

(** A directory entry: its name, whether [open] finds it, its text, and
    what [ast.literal_eval] answers on the stripped text. *)
Record dir_entry := {
  filename : string;
  exists_ : bool;
  text : string;
  literal_eval : result py_value
}.

Definition is_tuple3 (c : py_value) : bool :=
  match c with
  | PyTuple items => (length items =? 3)%nat
  | _ => false
  end.

(** One component of a row of [np.array(rows, dtype=np.uint8)]: an integer
    is stored modulo 256; anything else is refused. *)
Definition uint8_of_py (v : py_value) : result Z :=
  match v with
  | PyInt z => Ok (z mod 256)
  | _ => Raise (ValueError "invalid literal for int()")
  end.

Fixpoint collect {A B} (f : A -> result B) (l : list A) : result (list B) :=
  match l with
  | [] => Ok []
  | a :: l' => rbind (f a) (fun b => rbind (collect f l') (fun bs => Ok (b :: bs)))
  end.

Definition row_of_py (c : py_value) : result (list Z) :=
  match c with
  | PyTuple items => collect uint8_of_py items
  | _ => Raise (ValueError "setting an array element with a sequence")
  end.

(** [np.array(lut_values, dtype=np.uint8)] for a list of 3-tuples: shape
    [(N, 3)], or [(0,)] for the empty list. *)
Definition np_array_uint8 (lut_values : list py_value) : result ndarray :=
  rbind (collect row_of_py lut_values) (fun rows =>
  Ok {| np.shape := match rows with
                    | [] => [0]
                    | _ => [Z.of_nat (length rows); 3]
                    end;
        np.buf := np.U8 (concat rows);
        np.c_contiguous := true |}).

(** The body of the [for filename in os.listdir('.')] loop for one entry
    whose name ends in [.lut]; the result counts the table when loaded. *)
Definition load_lut_file (cv : OpenCV) (f : dir_entry) : M Z :=
  try_except
    (if negb (exists_ f) then raise FileNotFoundError
     else
       let lut_data := str.strip (text f) in
       if negb (str.startswith lut_data "[" && str.endswith lut_data "]") then ret 0
       else
         lut_values <- lift (literal_eval f);;
         match lut_values with
         | PyList items =>
             if negb (forallb is_tuple3 items) then ret 0
             else
               let lut_name := str.upper (str.splitext_root (filename f)) in
               lut_array <- lift (np_array_uint8 items);;
               let original_length := np.len lut_array in
               if original_length =? 0
               then logging_warning "LUT file parsed but is empty. Skipping.";; ret 0
               else
                 processed <-
                   (if original_length =? 256
                    then
                      try_except
                        (lut_final <- lift (np.reshape lut_array [256; 1; 3]);;
                         ret (Some lut_final))
                        (fun ex => match ex with ValueError _ => true | _ => false end)
                        (fun ex => logging_error "Error reshaping LUT even though length is 256? Skipping.";;
                                   ret None)
                    else
                      logging_info "LUT needs resizing to 256 entries.";;
                      try_except
                        (lut_image <- lift (np.reshape lut_array [original_length; 1; 3]);;
                         lut_resized <- lift (resize_linear cv lut_image (1, 256));;
                         lut_final <- lift (np.reshape lut_resized [256; 1; 3]);;
                         ret (Some (np.ascontiguousarray lut_final)))
                        is_Exception
                        (fun ex => logging_exception "Error resizing LUT. Skipping.";; ret None));;
                 match processed with
                 | None => ret 0
                 | Some lut_final =>
                     if np.shape_eqb lut_final [256; 1; 3]
                     then
                       let is_contig_ok :=
                         if negb (original_length =? 256) then np.c_contiguous lut_final else true in
                       if is_contig_ok
                       then
                         append_colormap lut_name (CustomLut lut_final);;
                         logging_info "Successfully loaded and processed custom LUT (Final size: 256 entries)";;
                         ret 1
                       else
                         logging_warning "Resized LUT was non-contiguous after processing. Skipping.";;
                         ret 0
                     else
                       logging_warning "Processed LUT resulted in invalid shape. Skipping.";;
                       ret 0
                 end
         | _ => ret 0
         end)
    is_Exception
    (fun ex =>
       match ex with
       | FileNotFoundError => logging_error "Could not open file. Skipping.";; ret 0
       | SyntaxError | ValueError _ =>
           logging_error "Error parsing LUT file. Check format. Skipping.";; ret 0
       | _ => logging_exception "Unexpected error processing LUT file. Skipping.";; ret 0
       end).

Fixpoint load_lut_files (cv : OpenCV) (listing : list dir_entry) (loaded_count : Z) : M Z :=
  match listing with
  | [] => ret loaded_count
  | f :: rest =>
      if str.endswith (filename f) ".lut"
      then n <- load_lut_file cv f;; load_lut_files cv rest (loaded_count + n)
      else load_lut_files cv rest loaded_count
  end.

(** [LeptonViewer.load_custom_luts()]; [listing] is [os.listdir('.')]. *)
Definition load_custom_luts (cv : OpenCV) (listing : list dir_entry) : M unit :=
  logging_info "Scanning for custom .lut files...";;
  loaded_count <- load_lut_files cv listing 0;;
  logging_info "Finished scanning for LUTs.".

(** ** Checking the governor *)

(** Reading [/sys/devices/system/cpu/cpu0/cpufreq/scaling_governor]: the
    text of the file, or any failure to open or read it. *)
Inductive governor_read :=
| GovernorText (content : string)
| GovernorUnreadable.

(** [verify_cpu_governor(governor)]. *)
Definition verify_cpu_governor (file : governor_read) (governor : string) : M bool :=
  try_except
    (match file with
     | GovernorText content =>
         let current_governor := str.strip content in
         ret (current_governor =? governor)%string
     | GovernorUnreadable => raise FileNotFoundError
     end)
    is_Exception
    (fun ex => logging_warning "Could not verify CPU governor";; ret false).

(** ** The render loop *)

(** How one pass of [while self.is_running] ends: at the bottom of the body
    or on [continue] ([Next]), or on [break]. *)
Inductive loop_ctrl := Next | Break.

(** The temperature check at the top of the loop body; [true] stands for
    the [break]. *)
Definition check_temperature (e : env) : M bool :=
  let current_time := time_time e in
  last_check <- gets last_temp_shutdown_check_time;;
  if Qgtb (current_time - last_check) CPU_TEMP_SHUTDOWN_CHECK_INTERVAL_S
  then
    cpu_temp <- get_cpu_temperature (temp_sensor e);;
    stop <-
      match cpu_temp with
      | Some t =>
          last_log <- gets last_temp_log_time;;
          when (Qgtb (current_time - last_log) CPU_TEMP_LOG_INTERVAL_S)
               (logging_info "CPU Temp";;
                modify (fun s => s <| last_temp_log_time := current_time |>));;
          if Qgtb t CPU_TEMP_SHUTDOWN_THRESHOLD_C
          then
            modify (fun s => s <| is_running := false |>);;
            shutdown_pi (shutdown_cmd e) "CPU Temp > Threshold";;
            emit (Sleep 10);;
            ret true
          else ret false
      | None => ret false
      end;;
    if stop then ret true
    else modify (fun s => s <| last_temp_shutdown_check_time := current_time |>);; ret false
  else ret false.

(** [self.colormaps[i]]. *)
Definition colormaps_getitem (i : Z) : M (string * colormap) :=
  maps <- gets colormaps;;
  match nth_error maps (Z.to_nat i) with
  | Some entry => ret entry
  | None => raise IndexError
  end.

(** Python's [%] on integers. *)
Definition py_mod (a b : Z) : result Z :=
  if b =? 0 then Raise ZeroDivisionError else Ok (a mod b).

Definition handle_button_a (e : env) : M unit :=
  let current_time := time_time e in
  present <- gets buttonA;;
  let button_a_pressed := present && negb (buttonA_value e) in
  last <- gets last_button_a_time;;
  when (button_a_pressed && Qgtb (current_time - last) (3 # 10))
       (modify (fun s => s <| last_button_a_time := current_time |>);;
        index <- gets colormap_index;;
        maps <- gets colormaps;;
        index' <- lift (py_mod (index + 1) (Z.of_nat (length maps)));;
        modify (fun s => s <| colormap_index := index' |>);;
        entry <- colormaps_getitem index';;
        modify (fun s => s <| current_colormap := snd entry |>
                           <| current_colormap_name := fst entry |>);;
        logging_info "Button A Pressed: Colormap changed").

Definition backlight_set (v : bool) : M unit :=
  present <- gets backlight;;
  if present then emit (BacklightValue v) else raise AttributeError.

Definition handle_button_b (e : env) : M unit :=
  let current_time := time_time e in
  present <- gets buttonB;;
  let button_b_pressed := present && negb (buttonB_value e) in
  last <- gets last_button_b_time;;
  when (button_b_pressed && Qgtb (current_time - last) (3 # 10))
       (modify (fun s => s <| last_button_b_time := current_time |>);;
        modify (fun s => s <| display_active := negb (display_active s) |>);;
        active <- gets display_active;;
        backlight_set active;;
        logging_info (if active then "Button B Pressed: Toggled display ON"
                      else "Button B Pressed: Toggled display OFF");;
        if active
        then
          set_cpu_governor (cpufreq_set e) CPU_GOVERNOR_RUN;;
          start_uvc_stream e;;
          ret tt
        else
          stop_uvc_stream e;;
          set_cpu_governor (cpufreq_set e) CPU_GOVERNOR_SAVE;;
          disp_image_black).

(** Automatic gain control on the grayscale frame. *)
Definition auto_gain (cv : OpenCV) (frame_gray : ndarray) : M ndarray :=
  mm <- lift (cv2.minMaxLoc frame_gray);;
  let '(min_val, max_val) := mm in
  if Qgtb max_val min_val
  then
    alpha <- lift (py_div 255 (ieee.double (max_val - min_val)));;
    let beta := ieee.double (- min_val * alpha) in
    ret (cv2.convertScaleAbs cv frame_gray alpha beta)
  else ret frame_gray.

Definition is_cv2_error (e : exn) : bool :=
  match e with cv2_error => true | _ => false end.

(** The conditions checked on a custom table (and on the frame) right
    before it is used. *)
Definition custom_lut_checks (lut frame_gray_agc : ndarray) : bool :=
  let is_correct_shape := np.shape_eqb lut [256; 1; 3] in
  let is_uint8 := np.dtype_eqb (np.dtype_of lut) np.uint8 in
  let is_contig := np.c_contiguous lut in
  let is_total_768 := np.size lut =? 768 in
  let is_input_uint8 := np.dtype_eqb (np.dtype_of frame_gray_agc) np.uint8 in
  is_correct_shape && is_uint8 && is_contig && is_total_768 && is_input_uint8.

(** The colormap step: a custom table is checked before every use. *)
Definition apply_colormap (cv : OpenCV) (frame_gray_agc : ndarray) : M ndarray :=
  current <- gets current_colormap;;
  match current with
  | CustomLut lut =>
      if custom_lut_checks lut frame_gray_agc
      then
        try_except
          (lift (applyColorMap cv frame_gray_agc (CustomLut lut)))
          is_cv2_error
          (fun map_e =>
             logging_exception "!!! cv2.applyColorMap error!";;
             ret (cv2.cvtColor_GRAY2BGR frame_gray_agc))
      else
        logging_error "!!! Custom LUT failed validation right before use:";;
        logging_error "    Input uint8 OK?";;
        logging_error "    LUT Shape OK?";;
        logging_error "    LUT Dtype OK?";;
        logging_error "    LUT Contig OK?";;
        logging_error "    LUT Size OK?";;
        ret (cv2.cvtColor_GRAY2BGR frame_gray_agc)
  | ColormapId id => lift (applyColorMap cv frame_gray_agc (ColormapId id))
  end.

(** Processing and display of one dequeued frame. *)
Definition process_frame (cv : OpenCV) (e : env) (frame_uyvy : ndarray) : M unit :=
  let current_time := time_time e in
  frame_bgr <- lift (cvtColor_YUV2BGR_UYVY cv frame_uyvy);;
  frame_gray <- lift (cvtColor_BGR2GRAY cv frame_bgr);;
  frame_gray_agc <- auto_gain cv frame_gray;;
  frame_color <- apply_colormap cv frame_gray_agc;;
  frame_resized <- lift (resize_linear cv frame_color (LCD_WIDTH, LCD_HEIGHT));;
  img_rgb <- lift (cvtColor_BGR2RGB cv frame_resized);;
  emit (DispImage (fromarray img_rgb));;
  modify (fun s => s <| frame_count := frame_count s + 1 |>
                     <| last_display_time := current_time |>);;
  started <- gets start_time;;
  let elapsed_time := (current_time - started)%Q in
  when (Qgeb elapsed_time 5)
       (count <- gets frame_count;;
        fps <- lift (py_div (inject_Z count) elapsed_time);;
        modify (fun s => s <| frame_count := 0 |> <| start_time := current_time |>);;
        logging_debug "Display FPS").

(** The frame-handling part of the loop body. *)
Definition handle_frame (cv : OpenCV) (e : env) : M unit :=
  active <- gets display_active;;
  streaming <- gets stream_is_active;;
  got <-
    (if active && streaming
     then
       try_except
         (frame <- queue_get (1 # 2);; ret (inl (Some frame)))
         is_QueueEmpty
         (fun _ => ret (inr tt))
     else ret (inl None));;
  match got with
  | inr _ => ret tt
  | inl frame_uyvy =>
      active <- gets display_active;;
      match frame_uyvy with
      | Some frame => if active then process_frame cv e frame else emit (Sleep (1 # 4))
      | None => when (negb active) (emit (Sleep (1 # 4)))
      end
  end.

(** The body of the [try] of one pass. A Ctrl-C, when one is pending, is
    taken at the top of the body. *)
Definition loop_body (cv : OpenCV) (e : env) : M loop_ctrl :=
  when (sigint e) (raise KeyboardInterrupt);;
  stop <- check_temperature e;;
  if stop then ret Break
  else
    handle_button_a e;;
    handle_button_b e;;
    handle_frame cv e;;
    ret Next.

(** One pass of the loop with its two handlers. *)
Definition loop_iteration (cv : OpenCV) (e : env) : M loop_ctrl :=
  try_except
    (loop_body cv e)
    (fun ex => match ex with KeyboardInterrupt => true | _ => is_Exception ex end)
    (fun ex =>
       match ex with
       | KeyboardInterrupt =>
           modify (fun s => s <| is_running := false |>);;
           logging_info "Exiting loop due to KeyboardInterrupt.";;
           ret Next
       | _ =>
           logging_exception "Error in main processing loop";;
           emit (Sleep (1 # 10));;
           ret Next
       end).

(** What happens while the loop runs: the capture thread calls back with a
    frame, or the render thread makes one pass. *)
Inductive event :=
| Callback (frame : option uvc_frame)
| Pass (e : env).

Inductive loop_end := LoopExited | StillRunning.

(** The callback runs on the capture thread: whatever its outcome, the
    render thread only sees its effect on the shared state. *)
Definition on_capture_thread (m : M unit) : M unit := fun s => (fst (m s), Ok tt).

(** [while self.is_running: ...] along a finite schedule of events;
    [StillRunning] when the schedule ends before the loop does. *)
Fixpoint render_loop (cv : OpenCV) (schedule : list event) : M loop_end :=
  running <- gets is_running;;
  if negb running then ret LoopExited
  else
    match schedule with
    | [] => ret StillRunning
    | Callback frame :: rest => on_capture_thread (py_frame_callback frame);; render_loop cv rest
    | Pass e :: rest =>
        c <- loop_iteration cv e;;
        match c with
        | Break => ret LoopExited
        | Next => render_loop cv rest
        end
    end.

(** [LeptonViewer.process_and_display()]; [e0] answers the calls made before
    the loop. *)
Definition process_and_display (cv : OpenCV) (e0 : env) (schedule : list event) : M loop_end :=
  d <- gets disp;;
  if negb d then logging_error "Display not initialized.";; ret LoopExited
  else
    active <- gets display_active;;
    set_cpu_governor (cpufreq_set e0) (if active then CPU_GOVERNOR_RUN else CPU_GOVERNOR_SAVE);;
    when active (start_uvc_stream e0;; ret tt);;
    logging_info "Starting thermal viewer loop...";;
    modify (fun s => s <| start_time := time_time e0 |>
                       <| frame_count := 0 |>
                       <| last_temp_shutdown_check_time := time_time e0 |>
                       <| last_temp_log_time := time_time e0 |>
                       <| last_button_a_time := 0%Q |>
                       <| last_button_b_time := 0%Q |>);;
    render_loop cv schedule.

(** ** The application *)

(** Everything the outside world answers during one execution. *)
Record world := {
  startup_failure : bool;
  display_outcome : option display_failure;
  listing : list dir_entry;
  camera : camera_env;
  at_start : env;
  schedule : list event;
  at_exit : env
}.

(** The state before [LeptonViewer()] is built: no handle, empty queue,
    nothing done yet. *)
Definition blank : state :=
  {| disp := false; backlight := false; buttonA := false; buttonB := false;
     uvc_ctx := false; uvc_dev := false; uvc_devh := false;
     is_running := false; display_active := false; stream_is_active := false;
     frame_count := 0; start_time := 0; last_display_time := 0;
     last_temp_shutdown_check_time := 0; last_temp_log_time := 0;
     last_button_a_time := 0; last_button_b_time := 0;
     colormaps := []; colormap_index := 0;
     current_colormap := ColormapId 0; current_colormap_name := "";
     frame_queue := []; trace := [] |}.

(** [LeptonViewer.__init__()]. *)
Definition LeptonViewer_init (e : env) : M unit :=
  modify (fun s => s <| is_running := true |> <| display_active := true |>
                     <| stream_is_active := false |> <| frame_count := 0 |>
                     <| start_time := time_time e |> <| last_display_time := 0%Q |>
                     <| last_temp_shutdown_check_time := 0%Q |>
                     <| last_temp_log_time := 0%Q |>);;
  modify (fun s => s <| colormaps := [("HOT", ColormapId COLORMAP_HOT);
                                      ("BONE", ColormapId COLORMAP_BONE);
                                      ("COOL", ColormapId COLORMAP_COOL);
                                      ("OCEAN", ColormapId COLORMAP_OCEAN);
                                      ("VIRIDIS", ColormapId COLORMAP_VIRIDIS)] |>);;
  add_custom_luts;;
  modify (fun s => s <| colormap_index := 0 |>);;
  entry <- colormaps_getitem 0;;
  modify (fun s => s <| current_colormap := snd entry |>
                     <| current_colormap_name := fst entry |>).

(** The [try] block of [LeptonViewer.run()]. *)
Definition run_body (cv : OpenCV) (w : world) : M loop_end :=
  initialize_display_and_buttons (display_outcome w);;
  load_custom_luts cv (listing w);;
  initialize_camera (camera w) (at_start w);;
  process_and_display cv (at_start w) (schedule w).

(** [LeptonViewer.run()]. The handlers and the [finally] clause run once
    the [try] block is left, which it is not while the loop is running. *)
Definition run (cv : OpenCV) (w : world) : M loop_end :=
  logging_info "Application run started.";;
  set_cpu_governor (cpufreq_set (at_start w)) CPU_GOVERNOR_RUN;;
  fun s =>
    match run_body cv w s with
    | (s1, Ok StillRunning) => (s1, Ok StillRunning)
    | (s1, r) =>
        try_finally
          (try_except
             (lift r)
             (fun ex => match ex with KeyboardInterrupt => true | _ => is_Exception ex end)
             (fun ex =>
                match ex with
                | KeyboardInterrupt =>
                    logging_info "Exiting application due to KeyboardInterrupt.";;
                    ret LoopExited
                | _ =>
                    logging_exception "An unexpected error occurred during setup or run";;
                    ret LoopExited
                end))
          (modify (fun s => s <| is_running := false |>);;
           set_cpu_governor (cpufreq_set (at_exit w)) CPU_GOVERNOR_RUN;;
           cleanup (at_exit w))
          s1
    end.

(** The script from top to bottom: logging and library set-up (which calls
    [exit(1)] when it fails), then [app = LeptonViewer(); app.run()]. *)
Definition script (cv : OpenCV) (w : world) : M loop_end :=
  if startup_failure w then exit 1
  else
    logging_info "--- Script Started ---";;
    logging_info "Display libraries imported successfully.";;
    logging_info "Camera libraries imported successfully.";;
    LeptonViewer_init (at_start w);;
    run cv w.

Definition main (cv : OpenCV) (w : world) : state * result loop_end := script cv w blank.

(** The exit status of the interpreter: 0 when the script runs off its end,
    the argument of an uncaught [SystemExit], 130 on an uncaught Ctrl-C, 1
    on any other uncaught exception; none while the program has not ended. *)
Definition exit_status (outcome : state * result loop_end) : option Z :=
  match snd outcome with
  | Ok LoopExited => Some 0
  | Ok StillRunning => None
  | Raise (SystemExit code) => Some code
  | Raise BlockedForever => None
  | Raise KeyboardInterrupt => Some 130
  | Raise _ => Some 1
  end.

(** ** The operating mode read off the flags *)

Inductive OperatingMode := RUNNING | POWERSAVE | SHUTTING_DOWN.

Definition mode (s : state) : OperatingMode :=
  if negb (is_running s) then SHUTTING_DOWN
  else if display_active s then RUNNING
  else POWERSAVE.

(** ** Vocabulary of the statements *)

(** The colours [create_custom_lut] supports. *)
Definition supported (color : string) : Prop := In color ["red"; "green"; "blue"].

(** The samples of a ramp of [num] three-component colours. *)
Definition ramp (start stop : list Z) (num : Z) : list Z :=
  map np.to_uint8
      (flat_map (np.linspace_row num (map inject_Z start) (map inject_Z stop)) (np.range num)).

(** The table [create_custom_lut] builds for a step in range: the
    black-to-white ramp followed by the colour ramp. *)
Definition gradient_table (dark bright : list Z) (step : Z) : ndarray :=
  {| np.shape := [256; 1; 3];
     np.buf := np.U8 (ramp [0; 0; 0] [255; 255; 255] (256 - step) ++ ramp dark bright step);
     np.c_contiguous := true |}.

(** An effect that is a log record. *)
Definition is_log (x : effect) : Prop :=
  match x with Log _ _ => True | _ => False end.

(** *** A stand-in for OpenCV, to run the model on examples *)

Module sample.

(** Linear interpolation between two vectors. *)
Definition lerp (t : Q) (a b : list Q) : list Q :=
  map (fun '(x, y) => ((1 - t) * x + t * y)%Q) (combine a b).

(** Sample [i] of [n_out] taken from [l] at pixel centres, as
    [cv2.INTER_LINEAR] places them. *)
Definition resample_at (l : list (list Q)) (n_out i : Z) : list Q :=
  let n_in := Z.of_nat (length l) in
  let f := ((inject_Z i + (1 # 2)) * (inject_Z n_in / inject_Z n_out) - (1 # 2))%Q in
  let k := Qfloor f in
  if k <? 0 then nth 0 l []
  else if n_in - 1 <=? k then nth (Z.to_nat (n_in - 1)) l []
  else lerp (f - inject_Z k) (nth (Z.to_nat k) l []) (nth (Z.to_nat (k + 1)) l []).

Definition resample (l : list (list Q)) (n_out : Z) : list (list Q) :=
  map (resample_at l n_out) (np.range n_out).

(** Bilinear resize of an image of shape (rows, cols, channels). *)
Definition resize (src : ndarray) (dsize : Z * Z) : result ndarray :=
  let '(w, h) := dsize in
  match np.shape src with
  | [rows; cols; ch] =>
      if (rows <=? 0) || (cols <=? 0) || (w <=? 0) || (h <=? 0) then Raise cv2_error
      else
        let data := np.as_floats (np.buf src) in
        let lines := np.chunks (Z.to_nat (cols * ch)) (Z.to_nat rows) data in
        let lines' := resample lines h in
        let out := flat_map (fun line =>
                     concat (resample (np.chunks (Z.to_nat ch) (Z.to_nat cols) line) w))
                     lines' in
        Ok {| np.shape := [h; w; ch];
              np.buf := np.U8 (map (fun q => cv2.saturate_u8 (ieee.rint q)) out);
              np.c_contiguous := true |}
  | _ => Raise cv2_error
  end.

Definition u8 (src : ndarray) : list Z :=
  match np.buf src with
  | np.U8 l => l
  | np.F64 l => map (fun q => cv2.saturate_u8 (ieee.rint q)) l
  end.

(** The luma byte of every UYVY pixel, copied to the three channels. *)
Definition yuv2bgr (src : ndarray) : result ndarray :=
  match np.shape src with
  | [rows; cols; 2] =>
      Ok {| np.shape := [rows; cols; 3];
            np.buf := np.U8 (flat_map (fun px => let y := nth 1 px 0 in [y; y; y])
                                      (np.chunks 2 (Z.to_nat (rows * cols)) (u8 src)));
            np.c_contiguous := true |}
  | _ => Raise cv2_error
  end.

(** The first channel of every pixel. *)
Definition bgr2gray (src : ndarray) : result ndarray :=
  match np.shape src with
  | [rows; cols; 3] =>
      Ok {| np.shape := [rows; cols];
            np.buf := np.U8 (map (fun px => nth 0 px 0)
                                 (np.chunks 3 (Z.to_nat (rows * cols)) (u8 src)));
            np.c_contiguous := true |}
  | _ => Raise cv2_error
  end.

Definition bgr2rgb (src : ndarray) : result ndarray :=
  match np.shape src with
  | [rows; cols; 3] =>
      Ok {| np.shape := [rows; cols; 3];
            np.buf := np.U8 (flat_map (@rev Z) (np.chunks 3 (Z.to_nat (rows * cols)) (u8 src)));
            np.c_contiguous := true |}
  | _ => Raise cv2_error
  end.

(** A custom table is looked up per intensity; a built-in colormap is
    replaced by the gray ramp. A table that is not 768 bytes is refused. *)
Definition colorize (src : ndarray) (c : colormap) : result ndarray :=
  match c with
  | ColormapId _ => Ok (cv2.cvtColor_GRAY2BGR src)
  | CustomLut lut =>
      match np.buf lut with
      | np.U8 table =>
          if (length table =? 768)%nat
          then Ok {| np.shape := np.shape src ++ [3];
                     np.buf := np.U8 (flat_map (fun v => firstn 3 (skipn (3 * Z.to_nat v) table))
                                               (u8 src));
                     np.c_contiguous := true |}
          else Raise cv2_error
      | np.F64 _ => Raise cv2_error
      end
  end.

Definition cv : OpenCV :=
  {| cvtColor_YUV2BGR_UYVY := yuv2bgr;
     cvtColor_BGR2GRAY := bgr2gray;
     cvtColor_BGR2RGB := bgr2rgb;
     applyColorMap := colorize;
     resize_linear := resize;
     fused_multiply_add := true;
     cvRound_ties_even := true |}.

(** A quiet pass: time [t], 45 degrees, no button held, every command and
    libuvc call succeeding. *)
Definition quiet (t : Q) : env :=
  {| time_time := t;
     temp_sensor := MilliCelsius 45000;
     buttonA_value := true;
     buttonB_value := true;
     cpufreq_set := Returncode 0;
     shutdown_cmd := Returncode 0;
     uvc_start_res := 0;
     uvc_stop_raises := false;
     sigint := false |}.

(** The viewer right after construction. *)
Definition viewer : state := fst (LeptonViewer_init (quiet 0) blank).

(** The viewer with display, buttons and camera set up and the stream on. *)
Definition streaming : state :=
  viewer <| disp := true |> <| backlight := true |> <| buttonA := true |>
         <| buttonB := true |> <| uvc_ctx := true |> <| uvc_dev := true |>
         <| uvc_devh := true |> <| stream_is_active := true |>.

(** A frame of the expected geometry whose bytes all equal [v]. *)
Definition frame (v : Z) : uvc_frame :=
  {| data := Some (fun _ => v); data_bytes := 38400; width := 160; height := 120 |}.

(** A two-pixel UYVY image and what the pipeline makes of it. *)
Definition tiny_uyvy : ndarray :=
  {| np.shape := [1; 2; 2]; np.buf := np.U8 [128; 10; 128; 200]; np.c_contiguous := true |}.
Definition tiny_bgr : ndarray :=
  {| np.shape := [1; 2; 3]; np.buf := np.U8 [10; 10; 10; 200; 200; 200];
     np.c_contiguous := true |}.
Definition tiny_gray : ndarray :=
  {| np.shape := [1; 2]; np.buf := np.U8 [10; 200]; np.c_contiguous := true |}.
Definition tiny_agc : ndarray :=
  {| np.shape := [1; 2]; np.buf := np.U8 [0; 255]; np.c_contiguous := true |}.

(** A table of the wrong shape. *)
Definition flat_lut : ndarray :=
  {| np.shape := [256; 3]; np.buf := np.U8 (repeat 0 768); np.c_contiguous := true |}.

End sample.

(** The array the callback builds from a frame of the expected geometry. *)
Definition frame_array (mem : nat -> Z) : ndarray :=
  {| np.shape := [CAM_HEIGHT; CAM_WIDTH; 2];
     np.buf := np.U8 (read_bytes mem (CAM_WIDTH * CAM_HEIGHT * 2));
     np.c_contiguous := true |}.

(** A queued frame of the expected width, height and byte length. *)
Definition valid_frame (a : ndarray) : Prop :=
  np.shape a = [CAM_HEIGHT; CAM_WIDTH; 2] /\
  exists l, np.buf a = np.U8 l /\ Z.of_nat (length l) = CAM_WIDTH * CAM_HEIGHT * 2.

(** A pass in which no Ctrl-C is pending, no thermal poll is due and no
    button is held. *)
Definition quiet_pass (e : env) (s : state) : Prop :=
  sigint e = false /\
  (time_time e - last_temp_shutdown_check_time s <= CPU_TEMP_SHUTDOWN_CHECK_INTERVAL_S)%Q /\
  buttonA_value e = true /\
  buttonB_value e = true.

(** A method preserves an invariant of the state, whatever its outcome. *)
Definition preserves {A} (I : state -> Prop) (m : M A) : Prop :=
  forall s, I s -> I (fst (m s)).

(** Every queued frame has the expected geometry. *)
Definition queue_valid (s : state) : Prop := Forall valid_frame (frame_queue s).

(** A raw frame the callback has to refuse: a null frame or buffer, or a
    width, height or byte length other than the expected one. *)
Definition malformed (frame : option uvc_frame) : Prop :=
  match frame with
  | None => True
  | Some f =>
      data f = None \/ width f <> CAM_WIDTH \/ height f <> CAM_HEIGHT \/
      data_bytes f <> CAM_WIDTH * CAM_HEIGHT * 2
  end.

(** A record logged at level ERROR. *)
Definition is_error_log (x : effect) : Prop := exists msg, x = Log ERROR msg.

(** The value of a result known to be [Ok]. *)
Definition get_ok {A} (default : A) (r : result A) : A :=
  match r with
  | Ok a => a
  | Raise _ => default
  end.

(** The output intensity the gain step computes for the input intensity
    [v] of a frame whose extreme intensities are [lo] and [hi], and the
    affine map it approximates. *)
Definition gain (cv : OpenCV) (lo hi v : Z) : Z :=
  let alpha := ieee.double (255 / ieee.double (inject_Z hi - inject_Z lo)) in
  let beta := ieee.double (- inject_Z lo * alpha) in
  cv2.convertScaleAbs_elem cv alpha beta (inject_Z v).

Definition affine (lo hi v : Z) : Q :=
  (255 * (inject_Z v - inject_Z lo) / (inject_Z hi - inject_Z lo))%Q.

(** A method ends normally or by raising an exception of the set [P];
    [never_raises] when the set is empty. *)
Definition raises_only {A} (P : exn -> bool) (m : M A) : Prop :=
  forall s, match snd (m s) with
            | Ok _ => True
            | Raise e => P e = true
            end.

Definition nothing (e : exn) : bool := false.

Notation never_raises := (raises_only nothing).

(** One of the four libuvc calls of [initialize_camera] reports an error. *)
Definition camera_fails (c : camera_env) : Prop :=
  res_uvc_init c < 0 \/ res_uvc_find_device c < 0 \/ res_uvc_open c < 0 \/
  res_uvc_get_stream_ctrl c < 0.

(** A world in which libuvc finds no camera (UVC_ERROR_NO_DEVICE, -4);
    everything else works and the directory holds no table. *)
Definition no_camera : world :=
  {| startup_failure := false;
     display_outcome := None;
     listing := [];
     camera := {| res_uvc_init := 0; res_uvc_find_device := -4; res_uvc_open := 0;
                  res_uvc_get_stream_ctrl := 0 |};
     at_start := sample.quiet 0;
     schedule := [];
     at_exit := sample.quiet 1 |}.

(** What [run] makes of the outcome of its [try] block: Ctrl-C and every
    [Exception] are logged and swallowed, anything else goes through. *)
Definition run_outcome (r : result loop_end) : result loop_end :=
  match r with
  | Ok x => Ok x
  | Raise KeyboardInterrupt => Ok LoopExited
  | Raise e => if is_Exception e then Ok LoopExited else Raise e
  end.

(** The catalogue a fresh viewer starts with: the five OpenCV colormaps,
    then the three gradients built with a colour step of 64. *)
Definition initial_colormaps : list (string * colormap) :=
  [("HOT", ColormapId COLORMAP_HOT);
   ("BONE", ColormapId COLORMAP_BONE);
   ("COOL", ColormapId COLORMAP_COOL);
   ("OCEAN", ColormapId COLORMAP_OCEAN);
   ("VIRIDIS", ColormapId COLORMAP_VIRIDIS);
   ("RED_GRADIENT", CustomLut (gradient_table [64; 0; 0] [255; 0; 0] 64));
   ("GREEN_GRADIENT", CustomLut (gradient_table [0; 64; 0] [0; 255; 0] 64));
   ("BLUE_GRADIENT", CustomLut (gradient_table [0; 0; 64] [0; 0; 255] 64))].

(** The state [LeptonViewer()] leaves when built at time [time_time e] in
    state [s]. *)
Definition constructed (e : env) (s : state) : state :=
  s <| is_running := true |> <| display_active := true |>
    <| stream_is_active := false |> <| frame_count := 0 |>
    <| start_time := time_time e |> <| last_display_time := 0%Q |>
    <| last_temp_shutdown_check_time := 0%Q |> <| last_temp_log_time := 0%Q |>
    <| colormaps := initial_colormaps |>
    <| colormap_index := 0 |>
    <| current_colormap := ColormapId COLORMAP_HOT |>
    <| current_colormap_name := "HOT" |>
    <| trace := trace s ++ [Log INFO "Added custom LUT: RED_GRADIENT";
                            Log INFO "Added custom LUT: GREEN_GRADIENT";
                            Log INFO "Added custom LUT: BLUE_GRADIENT"] |>.

(** The value [ast.literal_eval] returns for a list of integer triples, and
    the bytes of the table in row-major order. *)
Definition py_rows (rows : list (Z * Z * Z)) : py_value :=
  PyList (map (fun '(b, g, r) => PyTuple [PyInt b; PyInt g; PyInt r]) rows).

Definition flatten_rows (rows : list (Z * Z * Z)) : list Z :=
  flat_map (fun '(b, g, r) => [b; g; r]) rows.

Definition byte_triple (c : Z * Z * Z) : Prop :=
  let '(b, g, r) := c in 0 <= b < 256 /\ 0 <= g < 256 /\ 0 <= r < 256.

(** A [.lut] file that opens, is bracketed, and parses to [rows], every
    component of which is a byte. *)
Definition well_parsed (f : dir_entry) (rows : list (Z * Z * Z)) : Prop :=
  exists_ f = true /\
  str.startswith (str.strip (text f)) "[" && str.endswith (str.strip (text f)) "]" = true /\
  literal_eval f = Ok (py_rows rows) /\
  Forall byte_triple rows.

(** The name a table is catalogued under. *)
Definition lut_name (f : dir_entry) : string := str.upper (str.splitext_root (filename f)).

(** A colormap fit for use: an OpenCV identifier, or a table of shape
    (256, 1, 3). *)
Definition valid_colormap (c : colormap) : Prop :=
  match c with
  | ColormapId _ => True
  | CustomLut lut => np.shape lut = [256; 1; 3]
  end.

Definition catalog_valid (s : state) : Prop :=
  Forall (fun entry => valid_colormap (snd entry)) (colormaps s).

(** The image [cv2.resize] is given: the parsed rows as a column of [n]
    three-channel pixels. *)
Definition lut_image (n : Z) (rows : list (Z * Z * Z)) : ndarray :=
  {| np.shape := [n; 1; 3]; np.buf := np.U8 (flatten_rows rows); np.c_contiguous := true |}.

(** The viewer after [self.colormaps.append((lut_name, lut))] for file [f],
    and after a run of log records. *)
Definition accepted (f : dir_entry) (lut : ndarray) (s : state) : state :=
  s <| colormaps := colormaps s ++ [(lut_name f, CustomLut lut)] |>.

Definition logged (records : list effect) (s : state) : state :=
  s <| trace := trace s ++ records |>.

(** What [cv2.resize(src, (1, 256))] returns for a three-channel image when
    it returns: 256 rows of one pixel. *)
Definition resizes_to_256 (cv : OpenCV) (src resized : ndarray) : Prop :=
  resize_linear cv src (1, 256) = Ok resized /\ np.shape resized = [256; 1; 3].

(** A file of two rows for the loader. *)
Definition two_rows : dir_entry :=
  {| filename := "fire.lut"; exists_ := true;
     text := "[(0, 0, 0), (255, 255, 255)]";
     literal_eval := Ok (py_rows [(0, 0, 0); (255, 255, 255)]) |}.

(** The thermal poll is due, and the sensor reads above the shutdown
    threshold. *)
Definition poll_due (e : env) (s : state) : Prop :=
  (CPU_TEMP_SHUTDOWN_CHECK_INTERVAL_S < time_time e - last_temp_shutdown_check_time s)%Q.

Definition hot (e : env) : Prop :=
  exists m, temp_sensor e = MilliCelsius m /\
            (CPU_TEMP_SHUTDOWN_THRESHOLD_C < inject_Z m / 1000)%Q.

(** An effect other than a log record: a command, a sleep, a wait on the
    queue, a libuvc call, or something sent to the backlight or display. *)
Definition acts (x : effect) : bool :=
  match x with Log _ _ => false | _ => true end.

(** Button A (resp. B) is held down and its debounce interval of 0.3 s has
    elapsed. *)
Definition press_a (e : env) (s : state) : Prop :=
  buttonA s = true /\ buttonA_value e = false /\
  (3 # 10 < time_time e - last_button_a_time s)%Q.

Definition press_b (e : env) (s : state) : Prop :=
  buttonB s = true /\ buttonB_value e = false /\
  (3 # 10 < time_time e - last_button_b_time s)%Q.

(** The libuvc calls of a trace, in order. *)
Definition libuvc_calls (t : list effect) : list uvc_call :=
  flat_map (fun x => match x with Libuvc call => [call] | _ => [] end) t.

(** Every return code of [initialize_camera] reports success. *)
Definition camera_works (c : camera_env) : Prop :=
  0 <= res_uvc_init c /\ 0 <= res_uvc_find_device c /\ 0 <= res_uvc_open c /\
  0 <= res_uvc_get_stream_ctrl c.

(** Every handle of the viewer has been released. *)
Definition released (s : state) : Prop :=
  uvc_ctx s = false /\ uvc_dev s = false /\ uvc_devh s = false /\
  buttonA s = false /\ buttonB s = false /\ backlight s = false /\ disp s = false.

(** A method leaves the state in [Q], whatever state it starts in and
    whatever its outcome. *)
Definition establishes {A} (Q : state -> Prop) (m : M A) : Prop :=
  forall s, Q (fst (m s)).

(** What [stop_uvc_stream] and [cleanup] add to the trace, as the handles
    held and the outcome of [uvc_stop_streaming] decide. *)
Definition stop_trace (e : env) (s : state) : list effect :=
  if stream_is_active s
  then
    if uvc_devh s
    then [Libuvc uvc_stop_streaming;
          if uvc_stop_raises e then Log WARNING "Error stopping UVC stream"
          else Log INFO "UVC stream stopped for power save.";
          Log INFO "Cleared frames from the queue."]
    else [Log WARNING "UVC device handle is None. Cannot stop stream."]
  else [].

Definition cleanup_trace (e : env) (s : state) : list effect :=
  [Log INFO "Cleaning up resources..."] ++ stop_trace e s
  ++ (if uvc_devh s then [Libuvc uvc_close; Log INFO "UVC device handle closed."] else [])
  ++ (if uvc_dev s then [Libuvc uvc_unref_device; Log INFO "UVC device unreferenced."] else [])
  ++ (if uvc_ctx s then [Libuvc uvc_exit; Log INFO "UVC context exited."] else [])
  ++ (if buttonA s then [Log INFO "Button A deinit."] else [])
  ++ (if buttonB s then [Log INFO "Button B deinit."] else [])
  ++ (if backlight s then [BacklightValue false; Log INFO "Backlight pin deinit (OFF)."] else [])
  ++ (if disp s
      then [Log INFO "Clearing display (fill black)..."; DispImage (black_img LCD_WIDTH LCD_HEIGHT);
            Log INFO "Display cleared."]
      else [])
  ++ [Log INFO "Cleanup finished."; Log INFO "--- Script Finished ---"].

(** The stream flag and the queue after [stop_uvc_stream]: cleared when a
    stream is active and a device handle exists, untouched otherwise. *)
Definition stopped (s : state) : state :=
  if stream_is_active s && uvc_devh s
  then s <| stream_is_active := false |> <| frame_queue := [] |>
  else s.

(** The selected colormap is the entry of the catalogue at
    [colormap_index]. *)
Definition selected (s : state) : Prop :=
  0 <= colormap_index s /\
  nth_error (colormaps s) (Z.to_nat (colormap_index s))
  = Some (current_colormap_name s, current_colormap s).

(** The catalogue of a running viewer: the built-in colormaps and the three
    gradients first, tables loaded from files after them, every custom
    table of shape (256, 1, 3), and the selection consistent with the
    index. *)
Definition catalog_ok (s : state) : Prop :=
  (exists loaded, colormaps s = initial_colormaps ++ loaded) /\
  catalog_valid s /\ selected s.

(** A [.lut] file the loader cannot use: it does not open, its text is not
    bracketed, [ast.literal_eval] raises on it, or the value is not a list
    of 3-tuples. *)
Definition unusable (f : dir_entry) : Prop :=
  exists_ f = false \/
  str.startswith (str.strip (text f)) "[" && str.endswith (str.strip (text f)) "]" = false \/
  (exists ex, literal_eval f = Raise ex /\ is_Exception ex = true) \/
  (exists v, literal_eval f = Ok v /\
             match v with
             | PyList items => forallb is_tuple3 items = false
             | _ => True
             end).

(** A world in which everything works and no table is to be loaded. *)
Definition all_well (w : world) : Prop :=
  startup_failure w = false /\ display_outcome w = None /\ listing w = [] /\
  camera_works (camera w) /\ 0 <= uvc_start_res (at_start w).

(** A string made of white space only. *)
Definition blank_string (s : string) : Prop :=
  forallb str.is_space (list_ascii_of_string s) = true.

(** The queue holds at most [BUF_SIZE] frames. *)
Definition queue_bounded (s : state) : Prop := qsize s <= BUF_SIZE.

(** The exceptions the handlers of the render loop and of [run] catch:
    [KeyboardInterrupt] and every [Exception]. *)
Definition catchable (ex : exn) : bool :=
  match ex with
  | KeyboardInterrupt => true
  | _ => is_Exception ex
  end.

(** No Ctrl-C arrives: none is pending in any pass of the loop, nor before
    or after it. *)
Definition uninterrupted (w : world) : Prop :=
  sigint (at_start w) = false /\
  Forall (fun ev => match ev with Pass e => sigint e = false | Callback _ => True end)
         (schedule w) /\
  sigint (at_exit w) = false.

(** A result that is a value or an [Exception]. *)
Definition exception_or_value {A} (r : result A) : Prop :=
  match r with
  | Ok _ => True
  | Raise ex => is_Exception ex = true
  end.

(** What OpenCV and [ast.literal_eval] raise, when they do, is an
    [Exception] ([cv2.error], [SyntaxError], [ValueError], ...). *)
Definition opencv_raises_exceptions (cv : OpenCV) : Prop :=
  (forall src, exception_or_value (cvtColor_YUV2BGR_UYVY cv src)) /\
  (forall src, exception_or_value (cvtColor_BGR2GRAY cv src)) /\
  (forall src, exception_or_value (cvtColor_BGR2RGB cv src)) /\
  (forall src c, exception_or_value (applyColorMap cv src c)) /\
  (forall src dsize, exception_or_value (resize_linear cv src dsize)).

Definition parser_raises_exceptions (listing : list dir_entry) : Prop :=
  Forall (fun f => exception_or_value (literal_eval f)) listing.

(** The record [set_cpu_governor] logs about the outcome of the command. *)
Definition governor_record (out : subprocess_outcome) : effect :=
  match out with
  | Returncode rc =>
      if rc =? 0 then Log INFO "Successfully set CPU governor."
      else Log WARNING "Failed to set CPU governor."
  | CommandNotFound => Log ERROR "ERROR: 'cpufreq-set' not found. Install 'cpufrequtils'."
  | SubprocessError => Log ERROR "ERROR: Exception setting CPU governor"
  end.

(** The error logged for each step of the display set-up that can fail. *)
Definition display_error (d : display_failure) : effect :=
  match d with
  | DigitalioPins => Log ERROR "ERROR initializing digitalio pins"
  | ControlPins => Log ERROR "ERROR initializing display control pins"
  | BusioSPI => Log ERROR "ERROR initializing busio SPI"
  | DisplayDriver => Log ERROR "ERROR initializing display driver"
  end.

(** * Properties *)

(** ** Running a method step by step *)

Lemma bind_ok {A B} (m : M A) (k : A -> M B) s s' a :
  m s = (s', Ok a) -> bind m k s = k a s'.
Proof. intros H. unfold bind. rewrite H. reflexivity. Qed.

Lemma bind_raise {A B} (m : M A) (k : A -> M B) s s' e :
  m s = (s', Raise e) -> bind m k s = (s', Raise e).
Proof. intros H. unfold bind. rewrite H. reflexivity. Qed.

Lemma logging_below_level lvl msg s :
  level_no lvl < level_no LOG_LEVEL -> logging_log lvl msg s = (s, Ok tt).
Proof.
  intros H. unfold logging_log, when, isEnabledFor.
  destruct (level_no LOG_LEVEL <=? level_no lvl) eqn:E; [apply Z.leb_le in E; lia | reflexivity].
Qed.

Lemma Qgtb_true a b : (b < a)%Q -> Qgtb a b = true.
Proof.
  intros H. unfold Qgtb. destruct (Qle_bool a b) eqn:E; [|reflexivity].
  apply Qle_bool_iff in E. exfalso. exact (Qlt_not_le _ _ H E).
Qed.

Lemma Qgtb_false a b : (a <= b)%Q -> Qgtb a b = false.
Proof. intros H. unfold Qgtb. apply Qle_bool_iff in H. now rewrite H. Qed.

(** Symbolic execution: unfold the monad, the logging front end and the
    record accessors, and nothing of the arithmetic. *)
Ltac mrun :=
  cbv beta iota zeta delta
    [bind ret raise lift gets modify emit when try_except try_finally
     on_capture_thread exit
     logging_log logging_debug logging_info logging_warning logging_error
     logging_critical logging_exception
     apply_update constant
     disp backlight buttonA buttonB uvc_ctx uvc_dev uvc_devh is_running
     display_active stream_is_active frame_count start_time last_display_time
     last_temp_shutdown_check_time last_temp_log_time last_button_a_time
     last_button_b_time colormaps colormap_index current_colormap
     current_colormap_name frame_queue trace
     time_time temp_sensor buttonA_value buttonB_value cpufreq_set shutdown_cmd
     uvc_start_res uvc_stop_raises sigint
     is_Exception is_QueueEmpty is_cv2_error
     fst snd negb andb orb];
  change (isEnabledFor DEBUG) with false;
  change (isEnabledFor INFO) with true;
  change (isEnabledFor WARNING) with true;
  change (isEnabledFor ERROR) with true;
  change (isEnabledFor CRITICAL) with true;
  cbv beta iota.

(** ** Facts about the array model *)

Lemma range_length n : length (np.range n) = Z.to_nat n.
Proof. unfold np.range. now rewrite length_map, length_seq. Qed.

Lemma flat_map_length_const {A B} (f : A -> list B) k l :
  (forall x, length (f x) = k) -> length (flat_map f l) = (length l * k)%nat.
Proof.
  intros H. induction l as [|x l IH]; simpl; [reflexivity|].
  now rewrite length_app, H, IH.
Qed.

Lemma linspace_row_length num start stop i :
  length start = length stop ->
  length (np.linspace_row num start stop i) = length start.
Proof.
  intros H. unfold np.linspace_row.
  rewrite length_map, length_combine, <- H. apply Nat.min_id.
Qed.

Lemma to_uint8_byte q : 0 <= np.to_uint8 q < 256.
Proof. unfold np.to_uint8. apply Z.mod_pos_bound. lia. Qed.

Lemma bytes_map_to_uint8 l : np.bytes (map np.to_uint8 l).
Proof.
  unfold np.bytes. apply Forall_forall. intros v Hv.
  apply in_map_iff in Hv. destruct Hv as [q [<- _]]. apply to_uint8_byte.
Qed.

Lemma bytes_app l1 l2 : np.bytes l1 -> np.bytes l2 -> np.bytes (l1 ++ l2).
Proof. unfold np.bytes. intros. now apply Forall_app. Qed.

Lemma ramp_length start stop num :
  length start = length stop ->
  length (ramp start stop num) = (Z.to_nat num * length start)%nat.
Proof.
  intros H. unfold ramp. rewrite length_map.
  rewrite (flat_map_length_const _ (length start)).
  - now rewrite range_length.
  - intros i. rewrite linspace_row_length; now rewrite !length_map.
Qed.

Lemma ramp_bytes start stop num : np.bytes (ramp start stop num).
Proof. apply bytes_map_to_uint8. Qed.

Lemma linspace_uint8_ok start stop num :
  0 <= num -> length start = length stop ->
  linspace_uint8 start stop num =
  Ok {| np.shape := [num; Z.of_nat (length start)];
        np.buf := np.U8 (ramp start stop num);
        np.c_contiguous := true |}.
Proof.
  intros Hn Hl. unfold linspace_uint8, np.linspace.
  destruct (num <? 0) eqn:E; [apply Z.ltb_lt in E; lia|].
  rewrite !length_map, Hl, Nat.eqb_refl. simpl. reflexivity.
Qed.

Lemma chunks_length {A} k n (l : list A) : length (np.chunks k n l) = n.
Proof. revert l. induction n; simpl; intros; [reflexivity | now rewrite IHn]. Qed.

Lemma chunks_Forall {A} (P : A -> Prop) k n (l : list A) :
  length l = (n * k)%nat -> Forall P l ->
  Forall (fun e => length e = k /\ Forall P e) (np.chunks k n l).
Proof.
  revert l. induction n as [|n IH]; simpl; intros l Hl HP; [constructor|].
  constructor.
  - split.
    + rewrite length_firstn. lia.
    + rewrite <- (firstn_skipn k l) in HP. apply Forall_app in HP. tauto.
  - apply IH.
    + rewrite length_skipn. lia.
    + rewrite <- (firstn_skipn k l) in HP. apply Forall_app in HP. tauto.
Qed.

(** ** The gradient builder *)

Lemma gradient_colors_supported color step :
  supported color ->
  exists dark bright,
    gradient_colors_of color step = Ok (dark, bright, step) /\
    length dark = 3%nat /\ length bright = 3%nat.
Proof.
  intros [<- | [<- | [<- | []]]]; cbn; eauto.
Qed.

Lemma list_eqb_refl l : np.list_eqb l l = true.
Proof.
  unfold np.list_eqb. rewrite Nat.eqb_refl. simpl.
  induction l as [|a l IH]; simpl; [reflexivity|]. now rewrite Z.eqb_refl.
Qed.

Lemma concatenate_u8 n1 n2 t l1 l2 c1 c2 :
  np.concatenate {| np.shape := n1 :: t; np.buf := np.U8 l1; np.c_contiguous := c1 |}
                 {| np.shape := n2 :: t; np.buf := np.U8 l2; np.c_contiguous := c2 |} =
  Ok {| np.shape := (n1 + n2) :: t; np.buf := np.U8 (l1 ++ l2); np.c_contiguous := true |}.
Proof. unfold np.concatenate. cbn [np.shape np.buf]. now rewrite list_eqb_refl. Qed.

Lemma reshape_ok a dims :
  np.size a = fold_right Z.mul 1 dims ->
  np.reshape a dims =
  Ok {| np.shape := dims; np.buf := np.buf a; np.c_contiguous := np.c_contiguous a |}.
Proof. intros H. unfold np.reshape. now rewrite H, Z.eqb_refl. Qed.

Lemma create_custom_lut_in_range color step dark bright s :
  1 <= step <= 255 ->
  gradient_colors_of color step = Ok (dark, bright, step) ->
  length dark = 3%nat -> length bright = 3%nat ->
  create_custom_lut color step s = (s, Ok (gradient_table dark bright step)).
Proof.
  intros Hs Hg Hd Hb. unfold create_custom_lut.
  destruct ((step <=? 0) || (step >=? 256)) eqn:E.
  { apply orb_true_iff in E. destruct E as [E|E]; [apply Z.leb_le in E | apply Z.geb_le in E]; lia. }
  unfold bind, lift, ret. rewrite Hg. cbv beta iota.
  destruct (256 - step <=? 0) eqn:E1; [apply Z.leb_le in E1; lia|].
  rewrite (linspace_uint8_ok [0; 0; 0] [255; 255; 255] (256 - step)) by (lia || reflexivity).
  rewrite (linspace_uint8_ok dark bright step) by (lia || congruence).
  rewrite Hd. change (Z.of_nat (length [0; 0; 0])) with (Z.of_nat 3).
  rewrite concatenate_u8. cbv beta iota.
  unfold np.len. cbn [np.shape].
  replace (256 - step + step) with 256 by lia.
  change (negb (256 =? 256)) with false. cbv beta iota.
  rewrite reshape_ok by reflexivity. cbv beta iota.
  unfold logging_debug. rewrite logging_below_level by (cbv; reflexivity).
  reflexivity.
Qed.

Lemma gradient_table_entries dark bright step :
  1 <= step <= 255 -> length dark = 3%nat -> length bright = 3%nat ->
  exists es,
    np.u8_entries (gradient_table dark bright step) = Some es /\
    length es = 256%nat /\
    Forall (fun e => length e = 3%nat /\ np.bytes e) es.
Proof.
  intros Hs Hd Hb. eexists. split; [reflexivity|]. split.
  - apply chunks_length.
  - apply chunks_Forall.
    + rewrite length_app, !ramp_length by (simpl; congruence). simpl length. rewrite Hd.
      change (Z.to_nat (np.len (gradient_table dark bright step))) with 256%nat.
      change (np.row_width (gradient_table dark bright step)) with 3%nat. lia.
    + apply bytes_app; apply ramp_bytes.
Qed.

(** C2. For a supported colour and a step between 1 and 255,
    [create_custom_lut] returns a table of shape (256, 1, 3): 256 entries,
    each of three bytes; for a step not above 0 or not below 256 it raises
    [ValueError] (the invalid-parameter error) and returns no table. In both
    cases the viewer state is left as it was. *)
Theorem create_custom_lut_spec (color : string) (step : Z) (s : state) :
  supported color ->
  (1 <= step <= 255 ->
   exists lut es,
     create_custom_lut color step s = (s, Ok lut) /\
     np.shape lut = [256; 1; 3] /\ np.len lut = 256 /\
     np.u8_entries lut = Some es /\
     length es = 256%nat /\
     Forall (fun e => length e = 3%nat /\ np.bytes e) es) /\
  (step <= 0 \/ 256 <= step ->
   create_custom_lut color step s =
   (s, Raise (ValueError "color_gradient_step must be between 1 and 255."))).
Proof.
  intros Hc. split.
  - intros Hs.
    destruct (gradient_colors_supported color step Hc) as (dark & bright & Hg & Hd & Hb).
    destruct (gradient_table_entries dark bright step Hs Hd Hb) as (es & He & Hl & Hf).
    exists (gradient_table dark bright step), es.
    split; [now apply create_custom_lut_in_range|].
    repeat split; assumption.
  - intros Hs. unfold create_custom_lut.
    replace ((step <=? 0) || (step >=? 256)) with true; [reflexivity|].
    symmetry. apply orb_true_iff.
    destruct Hs; [left; apply Z.leb_le | right; apply Z.geb_le]; lia.
Qed.

Lemma create_custom_lut_spec_witness :
  (exists lut es,
     create_custom_lut "red" 64 blank = (blank, Ok lut) /\
     np.shape lut = [256; 1; 3] /\ np.len lut = 256 /\
     np.u8_entries lut = Some es /\
     length es = 256%nat /\
     Forall (fun e => length e = 3%nat /\ np.bytes e) es) /\
  create_custom_lut "blue" 256 blank =
  (blank, Raise (ValueError "color_gradient_step must be between 1 and 255.")).
Proof.
  split.
  - apply (proj1 (create_custom_lut_spec "red" 64 blank (or_introl eq_refl))). lia.
  - apply (proj2 (create_custom_lut_spec "blue" 256 blank
                    (or_intror (or_intror (or_introl eq_refl))))). lia.
Defined.

(** C10. For a supported colour and a step between 1 and 255 the
    black-to-white segment has [256 - step] rows and the colour segment
    [step] rows, their concatenation has exactly 256 rows, so neither the
    test [BLACK_TO_WHITE_STEP <= 0] nor the test [len(custom_colors) != 256]
    succeeds, and the call logs none of the two warnings (the trace is
    unchanged). *)
Theorem create_custom_lut_fallbacks_unreachable (color : string) (step : Z) (s : state) :
  supported color -> 1 <= step <= 255 ->
  exists dark bright black_to_white color_gradient custom_colors,
    gradient_colors_of color step = Ok (dark, bright, step) /\
    linspace_uint8 [0; 0; 0] [255; 255; 255] (256 - step) = Ok black_to_white /\
    np.len black_to_white = 256 - step /\
    linspace_uint8 dark bright step = Ok color_gradient /\
    np.len color_gradient = step /\
    np.concatenate black_to_white color_gradient = Ok custom_colors /\
    np.len custom_colors = 256 /\
    (256 - step <=? 0) = false /\
    negb (np.len custom_colors =? 256) = false /\
    trace (fst (create_custom_lut color step s)) = trace s.
Proof.
  intros Hc Hs.
  destruct (gradient_colors_supported color step Hc) as (dark & bright & Hg & Hd & Hb).
  do 5 eexists.
  split; [exact Hg|].
  split; [apply linspace_uint8_ok; [lia | reflexivity]|].
  split; [reflexivity|].
  split; [apply linspace_uint8_ok; [lia | congruence]|].
  split; [reflexivity|].
  rewrite Hd. change (Z.of_nat (length [0; 0; 0])) with (Z.of_nat 3).
  split; [apply concatenate_u8|].
  unfold np.len. cbn [np.shape].
  split; [lia|].
  split; [apply Z.leb_gt; lia|].
  split; [replace (256 - step + step) with 256 by lia; reflexivity|].
  now rewrite (create_custom_lut_in_range color step dark bright s Hs Hg Hd Hb).
Qed.

Lemma create_custom_lut_fallbacks_unreachable_witness :
  exists dark bright black_to_white color_gradient custom_colors,
    gradient_colors_of "green" 1 = Ok (dark, bright, 1) /\
    linspace_uint8 [0; 0; 0] [255; 255; 255] (256 - 1) = Ok black_to_white /\
    np.len black_to_white = 256 - 1 /\
    linspace_uint8 dark bright 1 = Ok color_gradient /\
    np.len color_gradient = 1 /\
    np.concatenate black_to_white color_gradient = Ok custom_colors /\
    np.len custom_colors = 256 /\
    (256 - 1 <=? 0) = false /\
    negb (np.len custom_colors =? 256) = false /\
    trace (fst (create_custom_lut "green" 1 blank)) = trace blank.
Proof.
  apply (create_custom_lut_fallbacks_unreachable "green" 1 blank).
  - right; left; reflexivity.
  - lia.
Defined.

(** ** Thermal shutdown *)

(** C1. When a thermal poll is due and the sensor reads a temperature
    above the threshold of 75 degrees, the pass of the loop clears
    [is_running], logs at CRITICAL level, issues [sudo shutdown -h now],
    sleeps the 10 seconds of grace and leaves the loop by [break], whatever
    [display_active] is (display on or power save): the mode becomes
    SHUTTING_DOWN and the loop has exited however many events remain. *)
Theorem thermal_shutdown (cv : OpenCV) (e : env) (rest : list event) (s : state) (m : Z) :
  is_running s = true ->
  sigint e = false ->
  (CPU_TEMP_SHUTDOWN_CHECK_INTERVAL_S < time_time e - last_temp_shutdown_check_time s)%Q ->
  temp_sensor e = MilliCelsius m ->
  (CPU_TEMP_SHUTDOWN_THRESHOLD_C < inject_Z m / 1000)%Q ->
  exists s' before after,
    loop_iteration cv e s = (s', Ok Break) /\
    render_loop cv (Pass e :: rest) s = (s', Ok LoopExited) /\
    is_running s' = false /\
    mode s' = SHUTTING_DOWN /\
    display_active s' = display_active s /\
    trace s' = trace s ++ before
                 ++ [Log CRITICAL "!!! CPU Temp > Threshold detected! Initiating shutdown NOW! !!!";
                     Subprocess ["sudo"; "shutdown"; "-h"; "now"]]
                 ++ after ++ [Sleep 10] /\
    Forall is_log before /\ Forall is_log after.
Proof.
  intros Hrun Hint Hdue Hsens Hhot.
  apply Qgtb_true in Hdue. apply Qgtb_true in Hhot.
  exists (fst (loop_iteration cv e s)),
    (if Qgtb (time_time e - last_temp_log_time s) CPU_TEMP_LOG_INTERVAL_S
     then [Log INFO "CPU Temp"] else []),
    (match shutdown_cmd e with
     | Returncode 0 => []
     | _ => [Log ERROR "ERROR: Failed to initiate shutdown";
             Log ERROR "       Manual shutdown may be required."]
     end).
  destruct s, e. cbn in Hrun, Hint, Hdue, Hsens. subst.
  unfold render_loop, loop_iteration, loop_body, check_temperature, get_cpu_temperature,
    shutdown_pi, mode.
  mrun. rewrite Hdue. mrun.
  destruct (Qgtb (time_time0 - last_temp_log_time0) CPU_TEMP_LOG_INTERVAL_S); mrun;
    rewrite Hhot; mrun;
    destruct shutdown_cmd0 as [[|p|p]| |]; mrun;
    repeat split; try reflexivity;
    try (rewrite <- ?app_assoc; reflexivity);
    repeat constructor.
Qed.

Lemma thermal_shutdown_witness :
  exists s' before after,
    loop_iteration sample.cv ((sample.quiet 100) <| temp_sensor := MilliCelsius 80000 |>)
                   (sample.viewer <| display_active := false |>) = (s', Ok Break) /\
    render_loop sample.cv
                [Pass ((sample.quiet 100) <| temp_sensor := MilliCelsius 80000 |>);
                 Pass (sample.quiet 101)]
                (sample.viewer <| display_active := false |>) = (s', Ok LoopExited) /\
    is_running s' = false /\
    mode s' = SHUTTING_DOWN /\
    display_active s' = display_active (sample.viewer <| display_active := false |>) /\
    trace s' = trace (sample.viewer <| display_active := false |>) ++ before
                 ++ [Log CRITICAL "!!! CPU Temp > Threshold detected! Initiating shutdown NOW! !!!";
                     Subprocess ["sudo"; "shutdown"; "-h"; "now"]]
                 ++ after ++ [Sleep 10] /\
    Forall is_log before /\ Forall is_log after.
Proof.
  apply (thermal_shutdown sample.cv _ _ _ 80000); vm_compute; reflexivity.
Defined.

(** ** The frame queue *)

Lemma read_bytes_length mem n :
  0 <= n -> Z.of_nat (length (read_bytes mem n)) = n.
Proof.
  intros H. unfold read_bytes. rewrite length_map, length_seq. now apply Z2Nat.id.
Qed.

Lemma frame_reshape mem :
  np.reshape (frombuffer (read_bytes mem (CAM_WIDTH * CAM_HEIGHT * 2)))
             [CAM_HEIGHT; CAM_WIDTH; 2] =
  Ok {| np.shape := [CAM_HEIGHT; CAM_WIDTH; 2];
        np.buf := np.U8 (read_bytes mem (CAM_WIDTH * CAM_HEIGHT * 2));
        np.c_contiguous := true |}.
Proof.
  apply reshape_ok. unfold np.size, frombuffer. cbn [np.shape fold_right].
  rewrite read_bytes_length by (cbv; discriminate). reflexivity.
Qed.

(** What the callback does with a frame that passes its checks, the queue
    being within its capacity: append the frame when there is room, else
    drop the oldest frame and append it. *)
Lemma callback_accepts f mem s :
  data f = Some mem -> width f = CAM_WIDTH -> height f = CAM_HEIGHT ->
  data_bytes f = CAM_WIDTH * CAM_HEIGHT * 2 ->
  qsize s <= BUF_SIZE ->
  py_frame_callback (Some f) s =
  (s <| frame_queue :=
          (if BUF_SIZE <=? qsize s then tl (frame_queue s) else frame_queue s)
          ++ [frame_array mem] |>, Ok tt).
Proof.
  intros Hd Hw Hh Hb Hcap. destruct f as [d n w h]. cbn [data width height data_bytes] in *. subst.
  unfold py_frame_callback. cbn [data width height data_bytes].
  rewrite !Z.eqb_refl. cbn [negb orb].
  unfold bind at 1. unfold lift at 1. rewrite frame_reshape.
  unfold queue_put, queue_get_nowait, queue_full.
  change (0 <? BUF_SIZE) with true. cbn [andb].
  destruct s. unfold qsize, np.copy, frame_array in *. cbn [frame_queue] in Hcap. mrun.
  destruct (BUF_SIZE <=? Z.of_nat (length frame_queue0)) eqn:E; mrun.
  - destruct frame_queue0 as [|a q]; [discriminate E|]. mrun.
    destruct (BUF_SIZE <=? Z.of_nat (length q)) eqn:E'; mrun.
    + exfalso. apply Z.leb_le in E'. cbn [length] in Hcap. lia.
    + reflexivity.
  - rewrite E. mrun. reflexivity.
Qed.

(** C4. With two frames buffered, a frame that passes the checks of the
    callback replaces the oldest one: the queue holds the second-oldest and
    the new frame, and the callback returns without blocking and without an
    error. With nothing buffered, the [get] of the render loop waits its
    half second, and the pass ends by [continue]: no exception reaches the
    loop, nothing is logged, and the loop goes on with the next event. *)
Theorem frame_queue_drop_oldest
  (cv : OpenCV) (e : env) (rest : list event) (s : state)
  (f : uvc_frame) (mem : nat -> Z) (a b : ndarray) :
  data f = Some mem -> width f = CAM_WIDTH -> height f = CAM_HEIGHT ->
  data_bytes f = CAM_WIDTH * CAM_HEIGHT * 2 ->
  quiet_pass e s ->
  is_running s = true -> display_active s = true -> stream_is_active s = true ->
  (frame_queue s = [a; b] ->
   py_frame_callback (Some f) s = (s <| frame_queue := [b; frame_array mem] |>, Ok tt)) /\
  (frame_queue s = [] ->
   loop_iteration cv e s = (s <| trace := trace s ++ [QueueWait (1 # 2)] |>, Ok Next) /\
   render_loop cv (Pass e :: rest) s =
   render_loop cv rest (s <| trace := trace s ++ [QueueWait (1 # 2)] |>)).
Proof.
  intros Hd Hw Hh Hb (Hint & Hdue & HA & HB) Hrun Hact Hstr. split.
  - intros Hq. rewrite (callback_accepts f mem s Hd Hw Hh Hb).
    + unfold qsize. rewrite Hq. reflexivity.
    + unfold qsize. rewrite Hq. cbv. discriminate.
  - intros Hq. apply Qgtb_false in Hdue.
    assert (Hit : loop_iteration cv e s =
                  (s <| trace := trace s ++ [QueueWait (1 # 2)] |>, Ok Next)).
    { destruct s, e. cbn in Hint, Hdue, HA, HB, Hrun, Hact, Hstr, Hq. subst.
      unfold loop_iteration, loop_body, check_temperature, handle_button_a, handle_button_b,
        handle_frame, queue_get.
      mrun. rewrite Hdue. mrun. destruct buttonA0, buttonB0; mrun; reflexivity. }
    split; [exact Hit|].
    destruct rest; cbn [render_loop]; unfold bind at 1, gets at 1; rewrite Hrun; cbn [negb];
      unfold bind at 1; rewrite Hit; reflexivity.
Qed.

Lemma frame_queue_drop_oldest_witness :
  py_frame_callback (Some (sample.frame 3))
    (sample.streaming <| frame_queue := [frame_array (fun _ => 1); frame_array (fun _ => 2)] |>) =
  (sample.streaming <| frame_queue := [frame_array (fun _ => 1); frame_array (fun _ => 2)] |>
                    <| frame_queue := [frame_array (fun _ => 2); frame_array (fun _ => 3)] |>,
   Ok tt) /\
  loop_iteration sample.cv (sample.quiet 1) sample.streaming =
  (sample.streaming <| trace := trace sample.streaming ++ [QueueWait (1 # 2)] |>, Ok Next).
Proof.
  split.
  - apply (frame_queue_drop_oldest sample.cv (sample.quiet 1) []
             (sample.streaming <| frame_queue := [frame_array (fun _ => 1);
                                                  frame_array (fun _ => 2)] |>)
             (sample.frame 3) (fun _ => 3) (frame_array (fun _ => 1)) (frame_array (fun _ => 2)));
      try reflexivity.
    repeat split; try reflexivity. vm_compute. discriminate.
  - apply (frame_queue_drop_oldest sample.cv (sample.quiet 1) [] sample.streaming
             (sample.frame 3) (fun _ => 3) (frame_array (fun _ => 1)) (frame_array (fun _ => 2)));
      try reflexivity.
    repeat split; try reflexivity. vm_compute. discriminate.
Defined.

(** ** What reaches the queue *)

Section Preservation.

Variable I : state -> Prop.

Lemma preserves_ret {A} (a : A) : preserves I (ret a).
Proof. intros s H. exact H. Qed.

Lemma preserves_raise {A} e : preserves I (@raise A e).
Proof. intros s H. exact H. Qed.

Lemma preserves_lift {A} (r : result A) : preserves I (lift r).
Proof. intros s H. exact H. Qed.

Lemma preserves_gets {A} (f : state -> A) : preserves I (gets f).
Proof. intros s H. exact H. Qed.

Lemma preserves_modify f : (forall s, I s -> I (f s)) -> preserves I (modify f).
Proof. intros Hf s H. apply Hf, H. Qed.

Lemma preserves_bind {A B} (m : M A) (k : A -> M B) :
  preserves I m -> (forall a, preserves I (k a)) -> preserves I (bind m k).
Proof.
  intros Hm Hk s H. unfold bind. specialize (Hm s H).
  destruct (m s) as [s' [a|e]]; cbn [fst] in *; [apply Hk, Hm | exact Hm].
Qed.

Lemma preserves_try_except {A} (body : M A) catches handler :
  preserves I body -> (forall e, preserves I (handler e)) ->
  preserves I (try_except body catches handler).
Proof.
  intros Hb Hh s H. unfold try_except. specialize (Hb s H).
  destruct (body s) as [s' [a|e]]; cbn [fst] in *; [exact Hb|].
  destruct (catches e); [apply Hh, Hb | exact Hb].
Qed.

Lemma preserves_try_finally {A} (body : M A) fin :
  preserves I body -> preserves I fin -> preserves I (try_finally body fin).
Proof.
  intros Hb Hf s H. unfold try_finally. specialize (Hb s H).
  destruct (body s) as [s' r]; cbn [fst] in *. specialize (Hf s' Hb).
  destruct (fin s') as [s'' [u|e]]; exact Hf.
Qed.

Lemma preserves_when b m : preserves I m -> preserves I (when b m).
Proof. intros Hm. destruct b; [exact Hm | apply preserves_ret]. Qed.

Lemma preserves_on_capture_thread m : preserves I m -> preserves I (on_capture_thread m).
Proof. intros Hm s H. exact (Hm s H). Qed.

End Preservation.

Create HintDb pres.

(** Structural decomposition of a method into its primitive steps. *)
Ltac pres_step :=
  lazymatch goal with
  | |- preserves _ (bind _ _) => apply preserves_bind; [|intros ?]
  | |- preserves _ (ret _) => apply preserves_ret
  | |- preserves _ (raise _) => apply preserves_raise
  | |- preserves _ (exit _) => apply preserves_raise
  | |- preserves _ (lift _) => apply preserves_lift
  | |- preserves _ (gets _) => apply preserves_gets
  | |- preserves _ (try_except _ _ _) => apply preserves_try_except; [|intros ?]
  | |- preserves _ (try_finally _ _) => apply preserves_try_finally
  | |- preserves _ (when _ _) => apply preserves_when
  | |- preserves _ (on_capture_thread _) => apply preserves_on_capture_thread
  | |- preserves _ (if ?b then _ else _) => destruct b eqn:?
  | |- preserves _ (match ?x with _ => _ end) => destruct x eqn:?
  | |- preserves _ (let (_, _) := ?x in _) => destruct x eqn:?
  end.

Ltac pres := repeat (pres_step || solve [auto with pres]).

Lemma queue_valid_same_queue (f : state -> state) :
  (forall s, frame_queue (f s) = frame_queue s) -> preserves queue_valid (modify f).
Proof.
  intros Hf. apply preserves_modify. intros s H. unfold queue_valid. now rewrite Hf.
Qed.

Ltac same_queue := apply queue_valid_same_queue; intros []; reflexivity.

Global Hint Extern 1 (preserves queue_valid (modify _)) => same_queue : pres.

Lemma queue_valid_emit x : preserves queue_valid (emit x).
Proof. unfold emit. same_queue. Qed.
Global Hint Resolve queue_valid_emit : pres.

Lemma queue_valid_log lvl msg : preserves queue_valid (logging_log lvl msg).
Proof. unfold logging_log. pres. Qed.
Global Hint Resolve queue_valid_log : pres.
Global Hint Extern 1 (preserves queue_valid (logging_debug _)) => apply queue_valid_log : pres.
Global Hint Extern 1 (preserves queue_valid (logging_info _)) => apply queue_valid_log : pres.
Global Hint Extern 1 (preserves queue_valid (logging_warning _)) => apply queue_valid_log : pres.
Global Hint Extern 1 (preserves queue_valid (logging_error _)) => apply queue_valid_log : pres.
Global Hint Extern 1 (preserves queue_valid (logging_critical _)) => apply queue_valid_log : pres.
Global Hint Extern 1 (preserves queue_valid (logging_exception _)) => apply queue_valid_log : pres.

Lemma preserves_bind_lift_ok {A B} (I : state -> Prop) (x : A) (k : A -> M B) :
  preserves I (k x) -> preserves I (bind (lift (Ok x)) k).
Proof. intros H s Hs. exact (H s Hs). Qed.

Lemma queue_valid_get_nowait : preserves queue_valid queue_get_nowait.
Proof.
  intros s H. unfold queue_valid in *. destruct s. unfold queue_get_nowait. mrun.
  cbn [frame_queue] in H. destruct frame_queue0 as [|a q]; mrun; [exact H|].
  now inversion H.
Qed.
Global Hint Resolve queue_valid_get_nowait : pres.

Lemma queue_valid_get timeout : preserves queue_valid (queue_get timeout).
Proof.
  intros s H. unfold queue_valid in *. destruct s. unfold queue_get. mrun.
  cbn [frame_queue] in H. destruct frame_queue0 as [|a q]; mrun; [exact H|].
  now inversion H.
Qed.
Global Hint Resolve queue_valid_get : pres.

Lemma queue_valid_put item : valid_frame item -> preserves queue_valid (queue_put item).
Proof.
  intros Hv s H. unfold queue_valid in *. destruct s. unfold queue_put, queue_full, qsize. mrun.
  cbn [frame_queue] in H.
  match goal with
  | |- context [if ?c then (fun s : state => (s, Raise BlockedForever)) else _] => destruct c
  end; mrun; [exact H|].
  apply Forall_app. split; [exact H | now constructor].
Qed.

Lemma valid_frame_copy mem : valid_frame (np.copy (frame_array mem)).
Proof.
  split; [reflexivity|]. eexists. split; [reflexivity|].
  apply read_bytes_length. cbv. discriminate.
Qed.

Lemma queue_valid_callback frame : preserves queue_valid (py_frame_callback frame).
Proof.
  unfold py_frame_callback. apply preserves_try_except; [|intros; pres].
  destruct frame as [f|]; [|pres]. destruct (data f) as [mem|]; [|pres].
  destruct (negb (width f =? CAM_WIDTH) || negb (height f =? CAM_HEIGHT)); [pres|].
  destruct (data_bytes f =? CAM_WIDTH * CAM_HEIGHT * 2) eqn:E; cbn [negb]; [|pres].
  apply Z.eqb_eq in E. rewrite E, frame_reshape.
  apply preserves_bind_lift_ok.
  pose proof (queue_valid_put _ (valid_frame_copy mem)).
  unfold queue_full. pres.
Qed.
Global Hint Resolve queue_valid_callback : pres.

Lemma callback_refuses frame s : malformed frame -> py_frame_callback frame s = (s, Ok tt).
Proof.
  intros H. unfold py_frame_callback. destruct frame as [f|]; [|reflexivity].
  cbn [malformed] in H. destruct (data f) as [mem|]; [|reflexivity].
  destruct H as [H | [H | [H | H]]]; [discriminate | | |].
  - apply Z.eqb_neq in H. now rewrite H.
  - apply Z.eqb_neq in H. rewrite H, orb_true_r. reflexivity.
  - apply Z.eqb_neq in H. rewrite H.
    destruct (negb (width f =? CAM_WIDTH) || negb (height f =? CAM_HEIGHT)); reflexivity.
Qed.

Lemma queue_valid_drain fuel n : preserves queue_valid (drain_queue fuel n).
Proof.
  revert n. induction fuel as [|fuel IH]; intros n; cbn [drain_queue]; unfold queue_empty; pres.
Qed.
Global Hint Resolve queue_valid_drain : pres.

Lemma queue_valid_set_cpu_governor out g : preserves queue_valid (set_cpu_governor out g).
Proof. unfold set_cpu_governor. pres. Qed.
Global Hint Resolve queue_valid_set_cpu_governor : pres.

Lemma queue_valid_start_uvc_stream e : preserves queue_valid (start_uvc_stream e).
Proof. unfold start_uvc_stream. pres. Qed.
Global Hint Resolve queue_valid_start_uvc_stream : pres.

Lemma queue_valid_stop_uvc_stream e : preserves queue_valid (stop_uvc_stream e).
Proof. unfold stop_uvc_stream, drain_frame_queue. pres. Qed.
Global Hint Resolve queue_valid_stop_uvc_stream : pres.

Lemma queue_valid_check_temperature e : preserves queue_valid (check_temperature e).
Proof. unfold check_temperature, get_cpu_temperature, shutdown_pi. pres. Qed.
Global Hint Resolve queue_valid_check_temperature : pres.

Lemma queue_valid_handle_button_a e : preserves queue_valid (handle_button_a e).
Proof. unfold handle_button_a, colormaps_getitem. pres. Qed.
Global Hint Resolve queue_valid_handle_button_a : pres.

Lemma queue_valid_handle_button_b e : preserves queue_valid (handle_button_b e).
Proof. unfold handle_button_b, backlight_set, disp_image_black. pres. Qed.
Global Hint Resolve queue_valid_handle_button_b : pres.

Lemma queue_valid_process_frame cv e frame : preserves queue_valid (process_frame cv e frame).
Proof. unfold process_frame, auto_gain, apply_colormap. pres. Qed.
Global Hint Resolve queue_valid_process_frame : pres.

Lemma queue_valid_handle_frame cv e : preserves queue_valid (handle_frame cv e).
Proof. unfold handle_frame. pres. Qed.
Global Hint Resolve queue_valid_handle_frame : pres.

Lemma queue_valid_loop_iteration cv e : preserves queue_valid (loop_iteration cv e).
Proof. unfold loop_iteration, loop_body. pres. Qed.
Global Hint Resolve queue_valid_loop_iteration : pres.

Lemma queue_valid_render_loop cv sched : preserves queue_valid (render_loop cv sched).
Proof.
  induction sched as [|ev rest IH]; cbn [render_loop]; pres.
Qed.
Global Hint Resolve queue_valid_render_loop : pres.

Lemma queue_valid_create_custom_lut color step :
  preserves queue_valid (create_custom_lut color step).
Proof. unfold create_custom_lut. pres. Qed.
Global Hint Resolve queue_valid_create_custom_lut : pres.

Lemma queue_valid_append_colormap name c : preserves queue_valid (append_colormap name c).
Proof. unfold append_colormap. pres. Qed.
Global Hint Resolve queue_valid_append_colormap : pres.

Lemma queue_valid_init e : preserves queue_valid (LeptonViewer_init e).
Proof. unfold LeptonViewer_init, add_custom_luts, colormaps_getitem. pres. Qed.
Global Hint Resolve queue_valid_init : pres.

Lemma queue_valid_initialize_display failure :
  preserves queue_valid (initialize_display_and_buttons failure).
Proof. unfold initialize_display_and_buttons, disp_image_black. pres. Qed.
Global Hint Resolve queue_valid_initialize_display : pres.

Lemma queue_valid_load_lut_file cv f : preserves queue_valid (load_lut_file cv f).
Proof. unfold load_lut_file. pres. Qed.
Global Hint Resolve queue_valid_load_lut_file : pres.

Lemma queue_valid_load_lut_files cv listing n :
  preserves queue_valid (load_lut_files cv listing n).
Proof.
  revert n. induction listing as [|f rest IH]; intros n; cbn [load_lut_files]; pres.
Qed.
Global Hint Resolve queue_valid_load_lut_files : pres.

Lemma queue_valid_cleanup e : preserves queue_valid (cleanup e).
Proof. unfold cleanup, disp_image_black. pres. Qed.
Global Hint Resolve queue_valid_cleanup : pres.

Lemma queue_valid_initialize_camera c e : preserves queue_valid (initialize_camera c e).
Proof. unfold initialize_camera. pres. Qed.
Global Hint Resolve queue_valid_initialize_camera : pres.

Lemma queue_valid_process_and_display cv e sched :
  preserves queue_valid (process_and_display cv e sched).
Proof. unfold process_and_display. pres. Qed.
Global Hint Resolve queue_valid_process_and_display : pres.

Lemma queue_valid_run cv w : preserves queue_valid (run cv w).
Proof.
  unfold run. pres. intros s H.
  assert (Hb : preserves queue_valid (run_body cv w))
    by (unfold run_body, load_custom_luts; pres).
  specialize (Hb s H). destruct (run_body cv w s) as [s1 r]. cbn [fst] in Hb.
  assert (Hf : forall r', preserves queue_valid
            (try_finally
               (try_except (lift r')
                  (fun ex => match ex with KeyboardInterrupt => true | _ => is_Exception ex end)
                  (fun ex =>
                     match ex with
                     | KeyboardInterrupt =>
                         logging_info "Exiting application due to KeyboardInterrupt.";;
                         ret LoopExited
                     | _ =>
                         logging_exception "An unexpected error occurred during setup or run";;
                         ret LoopExited
                     end))
               (modify (fun s => s <| is_running := false |>);;
                set_cpu_governor (cpufreq_set (at_exit w)) CPU_GOVERNOR_RUN;;
                cleanup (at_exit w))))
    by (intros r'; pres).
  destruct r as [[|]|e]; [apply (Hf _ s1 Hb) | exact Hb | apply (Hf _ s1 Hb)].
Qed.
Global Hint Resolve queue_valid_run : pres.

Lemma queue_valid_script cv w : preserves queue_valid (script cv w).
Proof. unfold script. pres. Qed.

(** C8. The callback keeps the queue made of frames of shape
    (CAM_HEIGHT, CAM_WIDTH, 2) holding CAM_WIDTH * CAM_HEIGHT * 2 bytes, and
    so do the render loop along any schedule of callbacks and passes and the
    whole program; a raw frame that is null, has no buffer, or has another
    width, height or byte length leaves the queue (and the rest of the
    state) untouched. *)
Theorem producer_boundary
  (cv : OpenCV) (w : world) (frame : option uvc_frame) (sched : list event) (s : state) :
  queue_valid s ->
  queue_valid (fst (py_frame_callback frame s)) /\
  (malformed frame -> py_frame_callback frame s = (s, Ok tt)) /\
  queue_valid (fst (render_loop cv sched s)) /\
  queue_valid (fst (main cv w)).
Proof.
  intros H. split; [apply queue_valid_callback, H|].
  split; [apply callback_refuses|].
  split; [apply queue_valid_render_loop, H|].
  apply queue_valid_script. constructor.
Qed.

Lemma producer_boundary_witness :
  queue_valid (fst (py_frame_callback (Some (sample.frame 3)) sample.streaming)) /\
  py_frame_callback
    (Some {| data := Some (fun _ => 3); data_bytes := 38399; width := 160; height := 120 |})
    sample.streaming = (sample.streaming, Ok tt).
Proof.
  assert (H : queue_valid sample.streaming) by constructor.
  pose (w := {| startup_failure := false; display_outcome := None; listing := [];
                camera := {| res_uvc_init := 0; res_uvc_find_device := 0; res_uvc_open := 0;
                             res_uvc_get_stream_ctrl := 0 |};
                at_start := sample.quiet 0; schedule := []; at_exit := sample.quiet 1 |}).
  split.
  - exact (proj1 (producer_boundary sample.cv w (Some (sample.frame 3)) [] sample.streaming H)).
  - refine (proj1 (proj2 (producer_boundary sample.cv w _ [] sample.streaming H)) _).
    right. right. right. discriminate.
Defined.

(** ** Power save *)

Lemma drain_queue_empties fuel n s :
  (length (frame_queue s) < fuel)%nat ->
  drain_queue fuel n s =
  (s <| frame_queue := [] |>, Ok (n + Z.of_nat (length (frame_queue s)))).
Proof.
  revert n s. induction fuel as [|fuel IH]; intros n s Hlt; [inversion Hlt|].
  destruct s. cbn [frame_queue] in *. cbn [drain_queue]. unfold queue_empty, queue_get_nowait, qsize.
  destruct frame_queue0 as [|a q].
  - mrun. change (Z.of_nat (length (@nil ndarray)) =? 0) with true. mrun.
    now rewrite Z.add_0_r.
  - mrun. replace (Z.of_nat (length (a :: q)) =? 0) with false
      by (symmetry; apply Z.eqb_neq; cbn [length]; lia).
    mrun. rewrite IH by (cbn [frame_queue length] in *; lia). mrun.
    cbn [length]. do 2 f_equal. lia.
Qed.

Lemma drain_frame_queue_empties s :
  drain_frame_queue s =
  (s <| frame_queue := [] |>, Ok (Z.of_nat (length (frame_queue s)))).
Proof.
  unfold drain_frame_queue. unfold bind at 1, gets at 1.
  rewrite drain_queue_empties by lia. reflexivity.
Qed.

(** A debounced press of button B while the display is on. *)
Lemma toggle_off cv e s :
  display_active s = true -> stream_is_active s = true ->
  uvc_devh s = true -> backlight s = true -> buttonB s = true ->
  quiet_pass (e <| buttonB_value := true |>) s -> buttonB_value e = false ->
  (3 # 10 < time_time e - last_button_b_time s)%Q ->
  exists t,
    loop_iteration cv e s =
    (s <| last_button_b_time := time_time e |> <| display_active := false |>
       <| stream_is_active := false |> <| frame_queue := [] |>
       <| trace := trace s ++ t |>, Ok Next) /\
    In (BacklightValue false) t /\
    In (Libuvc uvc_stop_streaming) t /\
    In (Subprocess ["sudo"; "cpufreq-set"; "-g"; CPU_GOVERNOR_SAVE]) t.
Proof.
  intros Hact Hstr Hdevh Hbl HbB (Hint & Hdue & HA & _) HB Hdeb.
  apply Qgtb_false in Hdue. apply Qgtb_true in Hdeb.
  destruct s, e as [t1 ts1 a1 b1 g1 sh1 r1 x1 i1].
  cbn in Hact, Hstr, Hdevh, Hbl, HbB, Hint, Hdue, HA, HB, Hdeb. subst.
  unfold loop_iteration, loop_body, check_temperature, handle_button_a, handle_button_b,
    handle_frame, backlight_set, stop_uvc_stream, set_cpu_governor, disp_image_black.
  mrun. rewrite Hdue. mrun.
  destruct buttonA0; mrun; rewrite Hdeb; mrun;
    (destruct x1; mrun; rewrite drain_frame_queue_empties; mrun;
     destruct g1 as [[|p|p]| |]; cbn [Z.eqb]; mrun;
     (eexists; split; [rewrite <- !app_assoc; reflexivity | simpl; auto 20])).
Qed.

(** A debounced press of button B while the display is off and the stream
    is stopped, the device accepting to stream. *)
Lemma toggle_on cv e s :
  display_active s = false -> stream_is_active s = false -> frame_queue s = [] ->
  uvc_devh s = true -> backlight s = true -> buttonB s = true ->
  quiet_pass (e <| buttonB_value := true |>) s -> buttonB_value e = false ->
  (3 # 10 < time_time e - last_button_b_time s)%Q ->
  0 <= uvc_start_res e ->
  exists t,
    loop_iteration cv e s =
    (s <| last_button_b_time := time_time e |> <| display_active := true |>
       <| stream_is_active := true |> <| last_display_time := time_time e |>
       <| trace := trace s ++ t |>, Ok Next) /\
    In (BacklightValue true) t /\
    In (Libuvc uvc_start_streaming) t /\
    In (Subprocess ["sudo"; "cpufreq-set"; "-g"; CPU_GOVERNOR_RUN]) t.
Proof.
  intros Hact Hstr Hq Hdevh Hbl HbB (Hint & Hdue & HA & _) HB Hdeb Hres.
  apply Qgtb_false in Hdue. apply Qgtb_true in Hdeb. apply Z.ltb_ge in Hres.
  destruct s, e as [t1 ts1 a1 b1 g1 sh1 r1 x1 i1].
  cbn in Hact, Hstr, Hq, Hdevh, Hbl, HbB, Hint, Hdue, HA, HB, Hdeb, Hres. subst.
  unfold loop_iteration, loop_body, check_temperature, handle_button_a, handle_button_b,
    handle_frame, backlight_set, start_uvc_stream, set_cpu_governor, queue_get.
  mrun. rewrite Hdue. mrun.
  destruct buttonA0; mrun; rewrite Hdeb; mrun;
    (destruct g1 as [[|p|p]| |]; cbn [Z.eqb]; mrun; rewrite Hres; mrun;
     (eexists; split; [rewrite <- !app_assoc; reflexivity | simpl; auto 20])).
Qed.

(** C6. From RUNNING (display on, stream active), a debounced press of
    button B stops the capture stream, clears [stream_is_active], empties
    the frame queue, asks for the power-save governor, turns the backlight
    off and leaves the viewer in POWERSAVE; a second debounced press turns
    the display back on, asks libuvc to start streaming again and, the
    device accepting, leaves the viewer in RUNNING with the stream active. *)
Theorem toggle_power_save (cv : OpenCV) (e1 e2 : env) (s : state) :
  is_running s = true -> display_active s = true -> stream_is_active s = true ->
  uvc_devh s = true -> backlight s = true -> buttonB s = true ->
  quiet_pass (e1 <| buttonB_value := true |>) s -> buttonB_value e1 = false ->
  (3 # 10 < time_time e1 - last_button_b_time s)%Q ->
  quiet_pass (e2 <| buttonB_value := true |>) s -> buttonB_value e2 = false ->
  (3 # 10 < time_time e2 - time_time e1)%Q ->
  0 <= uvc_start_res e2 ->
  exists s1 s2 t1 t2,
    loop_iteration cv e1 s = (s1, Ok Next) /\
    mode s = RUNNING /\ mode s1 = POWERSAVE /\
    display_active s1 = false /\ stream_is_active s1 = false /\ frame_queue s1 = [] /\
    trace s1 = trace s ++ t1 /\
    In (BacklightValue false) t1 /\
    In (Libuvc uvc_stop_streaming) t1 /\
    In (Subprocess ["sudo"; "cpufreq-set"; "-g"; CPU_GOVERNOR_SAVE]) t1 /\
    loop_iteration cv e2 s1 = (s2, Ok Next) /\
    mode s2 = RUNNING /\
    display_active s2 = true /\ stream_is_active s2 = true /\
    trace s2 = trace s1 ++ t2 /\
    In (BacklightValue true) t2 /\
    In (Libuvc uvc_start_streaming) t2 /\
    In (Subprocess ["sudo"; "cpufreq-set"; "-g"; CPU_GOVERNOR_RUN]) t2.
Proof.
  intros Hrun Hact Hstr Hdevh Hbl HbB Hq1 HB1 Hdeb1 Hq2 HB2 Hdeb2 Hres.
  destruct (toggle_off cv e1 s Hact Hstr Hdevh Hbl HbB Hq1 HB1 Hdeb1)
    as (t1 & H1 & Hbl1 & Hstop & Hgov1).
  set (s1 := s <| last_button_b_time := time_time e1 |> <| display_active := false |>
               <| stream_is_active := false |> <| frame_queue := [] |>
               <| trace := trace s ++ t1 |>) in *.
  assert (Hq2' : quiet_pass (e2 <| buttonB_value := true |>) s1)
    by (destruct s; exact Hq2).
  destruct (toggle_on cv e2 s1) as (t2 & H2 & Hbl2 & Hstart & Hgov2);
    try (destruct s; solve [reflexivity | assumption]).
  exists s1. eexists. exists t1, t2.
  split; [exact H1|].
  split; [unfold mode; now rewrite Hrun, Hact|].
  split; [unfold mode; destruct s; cbn in *; now rewrite Hrun|].
  do 3 (split; [destruct s; reflexivity|]).
  split; [destruct s; reflexivity|].
  do 3 (split; [assumption|]).
  split; [exact H2|].
  split; [unfold mode; destruct s; cbn in *; now rewrite Hrun|].
  do 2 (split; [destruct s; reflexivity|]).
  split; [destruct s; reflexivity|].
  repeat split; assumption.
Qed.

Lemma toggle_power_save_witness :
  exists s1 s2 t1 t2,
    loop_iteration sample.cv ((sample.quiet 1) <| buttonB_value := false |>) sample.streaming
    = (s1, Ok Next) /\
    mode sample.streaming = RUNNING /\ mode s1 = POWERSAVE /\
    display_active s1 = false /\ stream_is_active s1 = false /\ frame_queue s1 = [] /\
    trace s1 = trace sample.streaming ++ t1 /\
    In (BacklightValue false) t1 /\
    In (Libuvc uvc_stop_streaming) t1 /\
    In (Subprocess ["sudo"; "cpufreq-set"; "-g"; CPU_GOVERNOR_SAVE]) t1 /\
    loop_iteration sample.cv ((sample.quiet 2) <| buttonB_value := false |>) s1 = (s2, Ok Next) /\
    mode s2 = RUNNING /\
    display_active s2 = true /\ stream_is_active s2 = true /\
    trace s2 = trace s1 ++ t2 /\
    In (BacklightValue true) t2 /\
    In (Libuvc uvc_start_streaming) t2 /\
    In (Subprocess ["sudo"; "cpufreq-set"; "-g"; CPU_GOVERNOR_RUN]) t2.
Proof.
  apply (toggle_power_save sample.cv
           ((sample.quiet 1) <| buttonB_value := false |>)
           ((sample.quiet 2) <| buttonB_value := false |>)
           sample.streaming);
    try reflexivity;
    try (repeat split; try reflexivity; vm_compute; discriminate).
Defined.

(** ** Fallback to grayscale *)

Lemma apply_colormap_fallback cv agc lut s :
  current_colormap s = CustomLut lut ->
  custom_lut_checks lut agc = false \/ applyColorMap cv agc (CustomLut lut) = Raise cv2_error ->
  exists report,
    apply_colormap cv agc s =
    (s <| trace := trace s ++ report |>, Ok (cv2.cvtColor_GRAY2BGR agc)) /\
    report <> [] /\ Forall is_error_log report.
Proof.
  intros Hc H. destruct s. cbn [current_colormap] in Hc. subst.
  unfold apply_colormap. mrun.
  destruct (custom_lut_checks lut agc) eqn:E.
  - destruct H as [H|H]; [discriminate|]. rewrite H. mrun.
    exists [Log ERROR "!!! cv2.applyColorMap error!"].
    split; [reflexivity|]. split; [discriminate|].
    repeat constructor. now eexists.
  - eexists. split; [rewrite <- !app_assoc; reflexivity|].
    split; [discriminate|]. repeat constructor; now eexists.
Qed.

Lemma Qeq_bool_of_ge5 x : Qgeb x 5 = true -> Qeq_bool x 0 = false.
Proof.
  unfold Qgeb. intros H. apply Qle_bool_iff in H.
  destruct (Qeq_bool x 0) eqn:E; [|reflexivity].
  apply Qeq_bool_iff in E. rewrite E in H. exfalso. revert H. apply Qlt_not_le. reflexivity.
Qed.

(** C9. With a custom table selected, when the table fails the checks made
    before its use (shape (256, 1, 3), dtype uint8, C-contiguous, 768
    elements, uint8 frame) or [cv2.applyColorMap] raises [cv2.error], the
    colormap step logs an error and yields the gray frame converted to BGR;
    the frame is then resized and displayed as usual, the call returns
    normally, and the flags, the selected colormap and the catalogue are
    left as they were, so that the next frame is handled afresh. *)
Theorem custom_lut_fallback
  (cv : OpenCV) (e : env) (s : state) (lut frame bgr gray agc resized rgb : ndarray) :
  current_colormap s = CustomLut lut ->
  cvtColor_YUV2BGR_UYVY cv frame = Ok bgr ->
  cvtColor_BGR2GRAY cv bgr = Ok gray ->
  auto_gain cv gray s = (s, Ok agc) ->
  custom_lut_checks lut agc = false \/ applyColorMap cv agc (CustomLut lut) = Raise cv2_error ->
  resize_linear cv (cv2.cvtColor_GRAY2BGR agc) (LCD_WIDTH, LCD_HEIGHT) = Ok resized ->
  cvtColor_BGR2RGB cv resized = Ok rgb ->
  exists report s',
    apply_colormap cv agc s =
    (s <| trace := trace s ++ report |>, Ok (cv2.cvtColor_GRAY2BGR agc)) /\
    report <> [] /\ Forall is_error_log report /\
    process_frame cv e frame s = (s', Ok tt) /\
    trace s' = trace s ++ report ++ [DispImage (fromarray rgb)] /\
    is_running s' = is_running s /\
    display_active s' = display_active s /\
    stream_is_active s' = stream_is_active s /\
    current_colormap s' = current_colormap s /\
    colormaps s' = colormaps s /\
    colormap_index s' = colormap_index s /\
    frame_queue s' = frame_queue s.
Proof.
  intros Hc Hbgr Hgray Hagc Hbad Hres Hrgb.
  destruct (apply_colormap_fallback cv agc lut s Hc Hbad) as (report & Hap & Hne & Herr).
  assert (Hpf : process_frame cv e frame s =
                (let s1 := s <| trace := (trace s ++ report) ++ [DispImage (fromarray rgb)] |>
                             <| frame_count := frame_count s + 1 |>
                             <| last_display_time := time_time e |> in
                 if Qgeb (time_time e - start_time s) 5
                 then s1 <| frame_count := 0 |> <| start_time := time_time e |>
                 else s1, Ok tt)).
  { unfold process_frame.
    unfold bind at 1, lift at 1. rewrite Hbgr.
    unfold bind at 1, lift at 1. rewrite Hgray.
    unfold bind at 1. rewrite Hagc.
    unfold bind at 1. rewrite Hap.
    unfold bind at 1, lift at 1. rewrite Hres.
    unfold bind at 1, lift at 1. rewrite Hrgb.
    destruct s, e. mrun.
    destruct (Qgeb (time_time0 - start_time0) 5) eqn:E; mrun; [|reflexivity].
    unfold py_div. rewrite (Qeq_bool_of_ge5 _ E). mrun. reflexivity. }
  exists report. eexists.
  split; [exact Hap|]. split; [exact Hne|]. split; [exact Herr|].
  split; [exact Hpf|].
  destruct s, e. mrun.
  destruct (Qgeb (time_time0 - start_time0) 5); mrun;
    repeat split; try reflexivity; now rewrite <- !app_assoc.
Qed.

Lemma custom_lut_fallback_witness :
  let s := sample.streaming <| current_colormap := CustomLut sample.flat_lut |> in
  let resized := get_ok sample.tiny_agc
                   (sample.resize (cv2.cvtColor_GRAY2BGR sample.tiny_agc) (LCD_WIDTH, LCD_HEIGHT)) in
  let rgb := get_ok resized (sample.bgr2rgb resized) in
  exists report s',
    apply_colormap sample.cv sample.tiny_agc s =
    (s <| trace := trace s ++ report |>, Ok (cv2.cvtColor_GRAY2BGR sample.tiny_agc)) /\
    report <> [] /\ Forall is_error_log report /\
    process_frame sample.cv (sample.quiet 1) sample.tiny_uyvy s = (s', Ok tt) /\
    trace s' = trace s ++ report ++ [DispImage (fromarray rgb)] /\
    is_running s' = is_running s /\
    display_active s' = display_active s /\
    stream_is_active s' = stream_is_active s /\
    current_colormap s' = current_colormap s /\
    colormaps s' = colormaps s /\
    colormap_index s' = colormap_index s /\
    frame_queue s' = frame_queue s.
Proof.
  intros s resized rgb.
  apply (custom_lut_fallback sample.cv (sample.quiet 1) s sample.flat_lut
           sample.tiny_uyvy sample.tiny_bgr sample.tiny_gray sample.tiny_agc resized rgb).
  - reflexivity.
  - reflexivity.
  - reflexivity.
  - vm_compute. reflexivity.
  - left. reflexivity.
  - reflexivity.
  - reflexivity.
Defined.

(** ** Rounding to a binary format *)

Lemma pow2_pos e : (0 < 2 ^ e)%Q.
Proof. apply Qpower_0_lt. reflexivity. Qed.

Lemma pow2_succ e : (2 ^ (e + 1) == 2 * 2 ^ e)%Q.
Proof. rewrite Qpower_plus by discriminate. change (2 ^ 1)%Q with 2%Q. ring. Qed.

Lemma pow2_Z k : 0 <= k -> (2 ^ k == inject_Z (2 ^ k))%Q.
Proof. intros H. rewrite Zpower_Qpower by exact H. reflexivity. Qed.

Lemma pow2_le a b : a <= b -> (2 ^ a <= 2 ^ b)%Q.
Proof. intros H. apply Qpower_le_compat_l; [exact H | discriminate]. Qed.

Lemma Qabs_frac x : (Qabs x == inject_Z (Z.abs (Qnum x)) / inject_Z (Z.pos (Qden x)))%Q.
Proof.
  destruct x as [n d]. unfold Qabs, Qeq, Qdiv, Qmult, Qinv, inject_Z. cbn. lia.
Qed.

(** [ilog2 x] is the exponent of the power of two at or just below [|x|]. *)
Lemma ilog2_spec x :
  ~ (x == 0)%Q -> (2 ^ ieee.ilog2 x <= Qabs x /\ Qabs x < 2 ^ (ieee.ilog2 x + 1))%Q.
Proof.
  intros Hx.
  assert (Hn : 0 < Z.abs (Qnum x)).
  { destruct x as [n d]. unfold Qeq in Hx. cbn in *. lia. }
  set (n := Z.abs (Qnum x)) in *. set (d := Z.pos (Qden x)).
  assert (Hd : 0 < d) by (subst d; lia).
  pose proof (Z.log2_spec n Hn) as [Hn1 Hn2].
  pose proof (Z.log2_spec d Hd) as [Hd1 Hd2].
  pose proof (Z.log2_nonneg n) as Hln. pose proof (Z.log2_nonneg d) as Hld.
  assert (Hq : (Qabs x == inject_Z n / inject_Z d)%Q) by apply Qabs_frac.
  assert (HdQ : (0 < inject_Z d)%Q) by (rewrite <- (Zlt_Qlt 0); exact Hd).
  (* bounds valid for both outcomes *)
  assert (Hlow : (2 ^ (Z.log2 n - Z.log2 d - 1) <= inject_Z n / inject_Z d)%Q).
  { apply Qle_shift_div_l; [exact HdQ|].
    replace (Z.log2 n - Z.log2 d - 1) with (Z.log2 n + - (Z.log2 d + 1)) by lia.
    rewrite Qpower_plus by discriminate. rewrite Qpower_opp.
    rewrite !pow2_Z by lia.
    assert (H1 : (inject_Z (2 ^ Z.log2 n) <= inject_Z n)%Q) by (rewrite <- Zle_Qle; exact Hn1).
    assert (H2 : (inject_Z d <= inject_Z (2 ^ (Z.log2 d + 1)))%Q) by (rewrite <- Zle_Qle; lia).
    assert (H3 : (0 < inject_Z (2 ^ (Z.log2 d + 1)))%Q) by lra.
    assert (H0 : (0 < inject_Z (2 ^ Z.log2 n))%Q)
      by (rewrite <- (Zlt_Qlt 0); apply Z.pow_pos_nonneg; lia).
    apply Qle_trans with (inject_Z (2 ^ Z.log2 n) * / inject_Z (2 ^ (Z.log2 d + 1))
                          * inject_Z (2 ^ (Z.log2 d + 1)))%Q.
    - apply Qmult_le_l.
      + apply Qmult_lt_0_compat; [exact H0 | apply Qinv_lt_0_compat; exact H3].
      + exact H2.
    - assert (E : (inject_Z (2 ^ Z.log2 n) * / inject_Z (2 ^ (Z.log2 d + 1))
                   * inject_Z (2 ^ (Z.log2 d + 1)) == inject_Z (2 ^ Z.log2 n))%Q)
        by (field; lra).
      rewrite E. exact H1. }
  assert (Hhigh : (inject_Z n / inject_Z d < 2 ^ (Z.log2 n - Z.log2 d + 1))%Q).
  { apply Qlt_shift_div_r; [exact HdQ|].
    replace (Z.log2 n - Z.log2 d + 1) with (Z.log2 n + 1 + - Z.log2 d) by lia.
    rewrite Qpower_plus by discriminate. rewrite Qpower_opp.
    rewrite !pow2_Z by lia.
    assert (H1 : (inject_Z n < inject_Z (2 ^ (Z.log2 n + 1)))%Q) by (rewrite <- Zlt_Qlt; lia).
    assert (H2 : (inject_Z (2 ^ Z.log2 d) <= inject_Z d)%Q) by (rewrite <- Zle_Qle; exact Hd1).
    assert (H3 : (0 < inject_Z (2 ^ Z.log2 d))%Q)
      by (rewrite <- (Zlt_Qlt 0); apply Z.pow_pos_nonneg; lia).
    apply Qlt_le_trans with (inject_Z (2 ^ (Z.log2 n + 1)) * / inject_Z (2 ^ Z.log2 d)
                             * inject_Z (2 ^ Z.log2 d))%Q.
    - apply Qlt_le_trans with (inject_Z (2 ^ (Z.log2 n + 1)));
        [exact H1 | apply Qle_lteq; right; field; lra].
    - apply Qmult_le_l.
      + apply Qmult_lt_0_compat; [|apply Qinv_lt_0_compat; exact H3].
        rewrite <- (Zlt_Qlt 0). apply Z.pow_pos_nonneg; lia.
      + exact H2. }
  rewrite Hq. unfold ieee.ilog2. fold n. fold d.
  set (k := Z.log2 n - Z.log2 d) in *.
  destruct (0 <=? k) eqn:Ek.
  - apply Z.leb_le in Ek.
    destruct (d * 2 ^ k <=? n) eqn:E.
    + apply Z.leb_le in E. split; [|exact Hhigh].
      apply Qle_shift_div_l; [exact HdQ|]. rewrite pow2_Z by lia.
      rewrite <- inject_Z_mult, <- Zle_Qle. lia.
    + apply Z.leb_gt in E. split; [exact Hlow|].
      replace (k - 1 + 1) with k by lia.
      apply Qlt_shift_div_r; [exact HdQ|]. rewrite pow2_Z by lia.
      rewrite <- inject_Z_mult, <- Zlt_Qlt. lia.
  - apply Z.leb_gt in Ek.
    assert (Hk : (2 ^ k == / inject_Z (2 ^ (- k)))%Q).
    { replace k with (- (- k)) at 1 by lia. rewrite Qpower_opp, pow2_Z by lia. reflexivity. }
    assert (Hp : (0 < inject_Z (2 ^ (- k)))%Q)
      by (rewrite <- (Zlt_Qlt 0); apply Z.pow_pos_nonneg; lia).
    destruct (d <=? n * 2 ^ (- k)) eqn:E.
    + apply Z.leb_le in E. split; [|exact Hhigh].
      rewrite Hk. apply Qle_shift_div_l; [exact HdQ|].
      rewrite Qmult_comm. apply Qle_shift_div_r; [exact Hp|].
      rewrite <- inject_Z_mult, <- Zle_Qle. lia.
    + apply Z.leb_gt in E. split; [exact Hlow|].
      replace (k - 1 + 1) with k by lia.
      rewrite Hk. apply Qlt_shift_div_r; [exact HdQ|].
      rewrite Qmult_comm. apply Qlt_shift_div_l; [exact Hp|].
      rewrite <- inject_Z_mult, <- Zlt_Qlt. lia.
Qed.

Lemma ilog2_unique x k :
  (2 ^ k <= Qabs x)%Q -> (Qabs x < 2 ^ (k + 1))%Q -> ~ (x == 0)%Q -> ieee.ilog2 x = k.
Proof.
  intros H1 H2 Hx. destruct (ilog2_spec x Hx) as [H3 H4].
  assert (Hk : ieee.ilog2 x < k \/ ieee.ilog2 x = k \/ k < ieee.ilog2 x) by lia.
  destruct Hk as [Hk|[Hk|Hk]]; [exfalso | exact Hk | exfalso].
  - pose proof (pow2_le (ieee.ilog2 x + 1) k ltac:(lia)). lra.
  - pose proof (pow2_le (k + 1) (ieee.ilog2 x) ltac:(lia)). lra.
Qed.

Lemma ilog2_comp x y : (x == y)%Q -> ~ (x == 0)%Q -> ieee.ilog2 x = ieee.ilog2 y.
Proof.
  intros H Hx. symmetry.
  assert (Hy : ~ (y == 0)%Q) by (rewrite <- H; exact Hx).
  destruct (ilog2_spec x Hx) as [H1 H2].
  apply ilog2_unique; [rewrite <- H; exact H1 | rewrite <- H; exact H2 | exact Hy].
Qed.

#[local] Instance rint_comp : Proper (Qeq ==> eq) ieee.rint.
Proof.
  intros q q' H. unfold ieee.rint.
  rewrite <- (Qfloor_comp _ _ H).
  assert (Hc : (q - inject_Z (Qfloor q) ?= 1 # 2)%Q = (q' - inject_Z (Qfloor q) ?= 1 # 2)%Q)
    by (apply Qcompare_comp; [apply Qplus_comp; [exact H | reflexivity] | reflexivity]).
  now rewrite Hc.
Qed.

Lemma rint_near q : (Qabs (inject_Z (ieee.rint q) - q) <= 1 # 2)%Q.
Proof.
  pose proof (Qfloor_le q) as Hlo. pose proof (Qlt_floor q) as Hhi.
  unfold ieee.rint.
  rewrite inject_Z_plus in Hhi. change (inject_Z 1) with 1%Q in Hhi.
  destruct (q - inject_Z (Qfloor q) ?= 1 # 2)%Q eqn:E.
  - apply Qeq_alt in E.
    destruct (Z.even (Qfloor q)); [|rewrite inject_Z_plus; change (inject_Z 1) with 1%Q];
      apply Qabs_Qle_condition; split; lra.
  - apply Qlt_alt in E. apply Qabs_Qle_condition; split; lra.
  - apply Qgt_alt in E. rewrite inject_Z_plus. change (inject_Z 1) with 1%Q.
    apply Qabs_Qle_condition; split; lra.
Qed.

Lemma rint_Z z : ieee.rint (inject_Z z) = z.
Proof.
  unfold ieee.rint. rewrite Qfloor_Z.
  replace (inject_Z z - inject_Z z ?= 1 # 2)%Q with Lt; [reflexivity|].
  symmetry. apply (proj1 (Qlt_alt _ _)). lra.
Qed.

Lemma Qeq_bool_comp x y z : (x == y)%Q -> Qeq_bool x z = Qeq_bool y z.
Proof.
  intros H. destruct (Qeq_bool x z) eqn:E1, (Qeq_bool y z) eqn:E2; try reflexivity.
  - apply Qeq_bool_iff in E1. apply Qeq_bool_neq in E2. exfalso. apply E2. now rewrite <- H.
  - apply Qeq_bool_iff in E2. apply Qeq_bool_neq in E1. exfalso. apply E1. now rewrite H.
Qed.

(** Rounding depends on the value only, and returns a fraction in lowest
    terms. *)
#[local] Instance round_comp f : Proper (Qeq ==> eq) (ieee.round f).
Proof.
  intros x y H. unfold ieee.round, ieee.ulp_exponent.
  rewrite (Qeq_bool_comp x y 0 H).
  destruct (Qeq_bool y 0) eqn:E; [reflexivity|].
  apply Qeq_bool_neq in E.
  assert (Hx : ~ (x == 0)%Q) by (rewrite H; exact E).
  rewrite (ilog2_comp x y H Hx).
  apply Qred_complete. now rewrite H.
Qed.

(** The rounding error is at most half a unit in the last place: a
    relative error of [2 ^ - prec], or half the smallest positive number. *)
Lemma round_error f x :
  (Qabs (ieee.round f x - x)
   <= Qabs x * 2 ^ (- ieee.prec f) + 2 ^ (ieee.emin f - 1))%Q.
Proof.
  pose proof (pow2_pos (- ieee.prec f)) as Hp. pose proof (pow2_pos (ieee.emin f - 1)) as Hm.
  pose proof (Qabs_nonneg x) as Hx0.
  unfold ieee.round.
  destruct (Qeq_bool x 0) eqn:E.
  - apply Qeq_bool_iff in E.
    assert (Hz : (0 - x == 0)%Q) by (rewrite E; reflexivity).
    rewrite Hz. cbn [Qabs Z.abs Qnum Qden].
    assert (0 <= Qabs x * 2 ^ (- ieee.prec f))%Q by (apply Qmult_le_0_compat; lra).
    change (Qabs 0) with 0%Q. lra.
  - apply Qeq_bool_neq in E. rewrite Qred_correct.
    set (e := ieee.ulp_exponent f x).
    pose proof (pow2_pos e) as He.
    pose proof (rint_near (x / 2 ^ e)) as Hn.
    assert (Herr : (Qabs (inject_Z (ieee.rint (x / 2 ^ e)) * 2 ^ e - x) <= (1 # 2) * 2 ^ e)%Q).
    { assert (Heq : (inject_Z (ieee.rint (x / 2 ^ e)) * 2 ^ e - x
                     == (inject_Z (ieee.rint (x / 2 ^ e)) - x / 2 ^ e) * 2 ^ e)%Q)
        by (field; lra).
      rewrite Heq, Qabs_Qmult, (Qabs_pos (2 ^ e)) by lra.
      apply Qmult_le_compat_r; [exact Hn | lra]. }
    eapply Qle_trans; [exact Herr|].
    destruct (ilog2_spec x E) as [Hlo _].
    unfold e, ieee.ulp_exponent.
    destruct (Z.max_spec (ieee.ilog2 x - ieee.prec f + 1) (ieee.emin f)) as [[_ ->]|[_ ->]].
    + assert (H2 : ((1 # 2) * 2 ^ ieee.emin f == 2 ^ (ieee.emin f - 1))%Q).
      { replace (ieee.emin f) with (ieee.emin f - 1 + 1) at 1 by lia.
        rewrite pow2_succ. field. }
      rewrite H2.
      assert (0 <= Qabs x * 2 ^ (- ieee.prec f))%Q by (apply Qmult_le_0_compat; lra).
      lra.
    + assert (H2 : ((1 # 2) * 2 ^ (ieee.ilog2 x - ieee.prec f + 1)
                    == 2 ^ ieee.ilog2 x * 2 ^ (- ieee.prec f))%Q).
      { replace (ieee.ilog2 x - ieee.prec f + 1) with (ieee.ilog2 x + - ieee.prec f + 1) by lia.
        rewrite pow2_succ, Qpower_plus by discriminate. field. }
      rewrite H2.
      assert (2 ^ ieee.ilog2 x * 2 ^ (- ieee.prec f) <= Qabs x * 2 ^ (- ieee.prec f))%Q
        by (apply Qmult_le_compat_r; lra).
      lra.
Qed.

Lemma single_error x :
  (Qabs (ieee.single x - x) <= Qabs x * (1 # 16777216) + (1 # 1099511627776))%Q.
Proof.
  pose proof (round_error ieee.binary32 x) as H. unfold ieee.single.
  assert (H1 : (2 ^ (- ieee.prec ieee.binary32) == 1 # 16777216)%Q) by reflexivity.
  assert (H2 : (2 ^ (ieee.emin ieee.binary32 - 1) <= 1 # 1099511627776)%Q)
    by (vm_compute; discriminate).
  rewrite H1 in H. lra.
Qed.

Lemma double_error x :
  (Qabs (ieee.double x - x) <= Qabs x * (1 # 9007199254740992) + (1 # 1180591620717411303424))%Q.
Proof.
  pose proof (round_error ieee.binary64 x) as H. unfold ieee.double.
  assert (H1 : (2 ^ (- ieee.prec ieee.binary64) == 1 # 9007199254740992)%Q) by reflexivity.
  assert (H2 : (2 ^ (ieee.emin ieee.binary64 - 1) <= 1 # 1180591620717411303424)%Q)
    by (vm_compute; discriminate).
  rewrite H1 in H. lra.
Qed.

(** ** Automatic gain *)

Lemma fold_min_spec v0 l :
  In (fold_right Z.min v0 l) (v0 :: l) /\
  forall v, In v (v0 :: l) -> fold_right Z.min v0 l <= v.
Proof.
  induction l as [|a l [IHin IHle]]; cbn [fold_right].
  - split; [now left|]. intros v [<-|[]]. lia.
  - split.
    + destruct (Z.min_spec a (fold_right Z.min v0 l)) as [[_ ->]|[_ ->]].
      * right; now left.
      * destruct IHin as [H|H]; [now left | right; now right].
    + intros v [<-|[<-|H]].
      * specialize (IHle v0 (or_introl eq_refl)). lia.
      * lia.
      * specialize (IHle v (or_intror H)). lia.
Qed.

Lemma fold_max_spec v0 l :
  In (fold_right Z.max v0 l) (v0 :: l) /\
  forall v, In v (v0 :: l) -> v <= fold_right Z.max v0 l.
Proof.
  induction l as [|a l [IHin IHle]]; cbn [fold_right].
  - split; [now left|]. intros v [<-|[]]. lia.
  - split.
    + destruct (Z.max_spec a (fold_right Z.max v0 l)) as [[_ ->]|[_ ->]].
      * destruct IHin as [H|H]; [now left | right; now right].
      * right; now left.
    + intros v [<-|[<-|H]].
      * specialize (IHle v0 (or_introl eq_refl)). lia.
      * lia.
      * specialize (IHle v (or_intror H)). lia.
Qed.



Lemma in_range k n : 0 <= k < n -> In k (np.range n).
Proof.
  intros H. unfold np.range. apply in_map_iff. exists (Z.to_nat k).
  split; [lia|]. apply in_seq. lia.
Qed.

(** A byte is a number of both formats. *)
Lemma byte_exact k :
  0 <= k <= 255 ->
  (ieee.double (inject_Z k) == inject_Z k)%Q /\ (ieee.single (inject_Z k) == inject_Z k)%Q.
Proof.
  intros H.
  assert (Hall : forallb (fun k => Qeq_bool (ieee.double (inject_Z k)) (inject_Z k)
                                   && Qeq_bool (ieee.single (inject_Z k)) (inject_Z k))
                         (np.range 256) = true) by (vm_compute; reflexivity).
  rewrite forallb_forall in Hall. specialize (Hall k (in_range k 256 ltac:(lia))).
  apply andb_prop in Hall. destruct Hall as [H1 H2].
  apply Qeq_bool_iff in H1, H2. split; assumption.
Qed.

Lemma multiply_add_comp cv x x' a b :
  (x == x')%Q -> cv2.multiply_add cv x a b = cv2.multiply_add cv x' a b.
Proof.
  intros H. unfold cv2.multiply_add. destruct (fused_multiply_add cv).
  - apply round_comp. now rewrite H.
  - apply round_comp.
    assert (E : ieee.single (x * a) = ieee.single (x' * a)) by (apply round_comp; now rewrite H).
    now rewrite E.
Qed.

Lemma single_bounds x M :
  (- M <= x <= M)%Q ->
  (x - (M * (1 # 16777216) + (1 # 1099511627776)) <= ieee.single x
   <= x + (M * (1 # 16777216) + (1 # 1099511627776)))%Q.
Proof.
  intros H. pose proof (single_error x) as He.
  assert (Ha : (Qabs x <= M)%Q) by (apply Qabs_Qle_condition; exact H).
  apply Qabs_Qle_condition in He. lra.
Qed.

Lemma double_bounds x M :
  (- M <= x <= M)%Q ->
  (x - (M * (1 # 9007199254740992) + (1 # 1180591620717411303424)) <= ieee.double x
   <= x + (M * (1 # 9007199254740992) + (1 # 1180591620717411303424)))%Q.
Proof.
  intros H. pose proof (double_error x) as He.
  assert (Ha : (Qabs x <= M)%Q) by (apply Qabs_Qle_condition; exact H).
  apply Qabs_Qle_condition in He. lra.
Qed.

Lemma inject_Z_bounds z a b :
  a <= z <= b -> (inject_Z a <= inject_Z z <= inject_Z b)%Q.
Proof. intros [H1 H2]. split; rewrite <- Zle_Qle; assumption. Qed.

(** A product of a byte and a small error. *)
Lemma byte_times c z B :
  (0 <= c <= 255)%Q -> (- B <= z <= B)%Q -> (- (255 * B) <= c * z <= 255 * B)%Q.
Proof. intros Hc Hz. nra. Qed.

Lemma Qtrunc_floor z : (0 <= z)%Q -> (inject_Z (np.Qtrunc z) <= z < inject_Z (np.Qtrunc z) + 1)%Q.
Proof.
  intros H. destruct z as [n d]. unfold np.Qtrunc. cbn [Qnum Qden].
  assert (Hn : 0 <= n) by (unfold Qle in H; cbn in H; lia).
  rewrite Z.quot_div_nonneg by lia.
  change (n / Z.pos d) with (Qfloor (n # d)).
  split; [apply Qfloor_le|].
  pose proof (Qlt_floor (n # d)) as Hf. rewrite inject_Z_plus in Hf. exact Hf.
Qed.

(** What the ieee.single-precision arithmetic of the gain step leaves of the
    affine map, before the conversion to an integer. *)
Lemma scaled_close (cv : OpenCV) (lo d v : Z) :
  0 <= lo -> 1 <= d -> lo + d <= 255 -> lo <= v <= lo + d ->
  let A := (255 / inject_Z d)%Q in
  let alpha := ieee.double A in
  let beta := ieee.double (- inject_Z lo * alpha) in
  let y := Qabs (cv2.multiply_add cv (ieee.single (inject_Z v)) (ieee.single alpha) (ieee.single beta)) in
  let x := ((inject_Z v - inject_Z lo) * A)%Q in
  (- ((1 # 4096) * A + (1 # 32768)) <= y - x <= (1 # 4096) * A + (1 # 32768))%Q.
Proof.
  intros Hlo Hd Hhi Hv A alpha beta y x.
  assert (HL : (0 <= inject_Z lo <= 255)%Q) by (apply (inject_Z_bounds lo 0 255); lia).
  assert (HV : (0 <= inject_Z v <= 255)%Q) by (apply (inject_Z_bounds v 0 255); lia).
  assert (HLV : (inject_Z lo <= inject_Z v)%Q) by (rewrite <- Zle_Qle; lia).
  assert (HVD : (inject_Z v - inject_Z lo <= inject_Z d)%Q).
  { assert (H : (inject_Z v <= inject_Z (lo + d))%Q) by (rewrite <- Zle_Qle; lia).
    rewrite inject_Z_plus in H. lra. }
  assert (HD : (1 <= inject_Z d <= 255)%Q) by (apply (inject_Z_bounds d 1 255); lia).
  assert (HDA : (inject_Z d * A == 255)%Q) by (unfold A; field; lra).
  assert (HA : (1 <= A <= 255)%Q) by nra.
  set (L := inject_Z lo) in *. set (V := inject_Z v) in *.
  assert (Hx : (0 <= x <= 255)%Q) by (unfold x; nra).
  assert (HLA : (0 <= L * A <= 255 * A)%Q) by nra.
  assert (HVA : (0 <= V * A <= 255 * A)%Q) by nra.
  (* alpha *)
  assert (H1 : (- ((1 # 4503599627370496) * A) <= alpha - A <= (1 # 4503599627370496) * A)%Q).
  { pose proof (double_bounds A A ltac:(lra)) as H. fold alpha in H. lra. }
  (* beta *)
  pose proof (byte_times L (alpha - A) _ HL H1) as H2a.
  assert (H2 : (- ((1 # 8796093022208) * A) <= beta + L * A <= (1 # 8796093022208) * A)%Q).
  { pose proof (double_bounds (- L * alpha) (256 * A) ltac:(nra)) as H. fold beta in H. nra. }
  (* a and b *)
  set (a := ieee.single alpha) in *. set (b := ieee.single beta) in *.
  assert (H3 : (- ((1 # 4194304) * A) <= a - A <= (1 # 4194304) * A)%Q).
  { pose proof (single_bounds alpha (2 * A) ltac:(lra)) as H. fold a in H. lra. }
  assert (H4 : (- ((1 # 16384) * A) <= b + L * A <= (1 # 16384) * A)%Q).
  { pose proof (single_bounds beta (256 * A) ltac:(lra)) as H. fold b in H. lra. }
  (* the pixel *)
  destruct (byte_exact v ltac:(lia)) as [_ HVs]. fold V in HVs.
  apply (multiply_add_comp cv _ _ a b) in HVs.
  pose proof (byte_times V (a - A) _ HV H3) as H5.
  unfold y. rewrite HVs. fold a. fold b.
  assert (Hs : (- ((1 # 4096) * A + (1 # 32768)) <= cv2.multiply_add cv V a b - x
                <= (1 # 4096) * A + (1 # 32768))%Q).
  { unfold cv2.multiply_add. destruct (fused_multiply_add cv).
    - pose proof (single_bounds (V * a + b) 256 ltac:(unfold x in *; nra)) as H.
      unfold x in *. nra.
    - pose proof (single_bounds (V * a) (256 * A) ltac:(nra)) as Hp.
      set (p := ieee.single (V * a)) in *.
      pose proof (single_bounds (p + b) 256 ltac:(unfold x in *; nra)) as H.
      unfold x in *. nra. }
  destruct (Qle_bool 0 (cv2.multiply_add cv V a b)) eqn:E.
  - apply Qle_bool_iff in E. rewrite Qabs_pos by exact E. exact Hs.
  - assert (E' : (cv2.multiply_add cv V a b < 0)%Q).
    { apply Qnot_le_lt. intros H. apply Qle_bool_iff in H. congruence. }
    rewrite Qabs_neg by lra. lra.
Qed.

(** The integer [cv2.cvRound] returns is within one half of its argument, up
    to the rounding of the addition when it adds one half and truncates. *)
Lemma cvRound_near cv y :
  (0 <= y <= 256)%Q ->
  (- ((1 # 2) + (1 # 32768)) <= inject_Z (cv2.cvRound cv y) - y <= (1 # 2) + (1 # 32768))%Q.
Proof.
  intros Hy. unfold cv2.cvRound. destruct (cvRound_ties_even cv).
  - pose proof (rint_near y) as H. apply Qabs_Qle_condition in H. lra.
  - assert (E : Qle_bool 0 y = true) by (apply Qle_bool_iff; lra).
    rewrite E.
    pose proof (single_bounds (y + (1 # 2)) 257 ltac:(lra)) as H.
    set (z := ieee.single (y + (1 # 2))) in *.
    pose proof (Qtrunc_floor z ltac:(lra)) as Hz. lra.
Qed.

Lemma inject_Z_minus a b : (inject_Z (a - b) == inject_Z a - inject_Z b)%Q.
Proof. unfold Z.sub. rewrite inject_Z_plus, inject_Z_opp. reflexivity. Qed.

Lemma affine_scaled lo d v :
  1 <= d ->
  (affine lo (lo + d) v == (inject_Z v - inject_Z lo) * (255 / inject_Z d))%Q.
Proof.
  intros Hd. unfold affine. rewrite inject_Z_plus.
  assert (HD : (1 <= inject_Z d)%Q) by (rewrite <- (Zle_Qle 1); exact Hd).
  field. lra.
Qed.

(** Inside the np.range of the frame the gain step returns an integer within
    one half of the affine map; the saturation changes nothing. *)
Lemma gain_near cv lo hi v :
  0 <= lo -> hi <= 255 -> lo < hi -> lo <= v <= hi ->
  0 <= gain cv lo hi v <= 255 /\
  (Qabs (inject_Z (gain cv lo hi v) - affine lo hi v) <= 1 # 2)%Q.
Proof.
  intros Hlo Hhi Hlt Hv.
  set (d := hi - lo). assert (Hd : 1 <= d) by (unfold d; lia).
  replace hi with (lo + d) in * by (unfold d; lia).
  pose proof (scaled_close cv lo d v Hlo Hd Hhi Hv) as Hs. cbv zeta in Hs.
  assert (HD : (ieee.double (inject_Z (lo + d) - inject_Z lo) == inject_Z d)%Q).
  { assert (E : (inject_Z (lo + d) - inject_Z lo == inject_Z d)%Q)
      by (rewrite inject_Z_plus; ring).
    rewrite (round_comp ieee.binary64 _ _ E : ieee.double _ = ieee.double _).
    apply byte_exact. lia. }
  assert (Halpha : ieee.double (255 / ieee.double (inject_Z (lo + d) - inject_Z lo))
                   = ieee.double (255 / inject_Z d))
    by (apply round_comp; now rewrite HD).
  unfold gain, cv2.convertScaleAbs_elem. rewrite Halpha.
  set (A := (255 / inject_Z d)%Q) in *.
  set (alpha := ieee.double A) in *.
  set (beta := ieee.double (- inject_Z lo * alpha)) in *.
  set (y := Qabs (cv2.multiply_add cv (ieee.single (inject_Z v)) (ieee.single alpha)
                    (ieee.single beta))) in *.
  rewrite (affine_scaled lo d v Hd). fold A.
  set (x := ((inject_Z v - inject_Z lo) * A)%Q) in *.
  assert (HDq : (1 <= inject_Z d <= 255)%Q) by (apply (inject_Z_bounds d 1 255); lia).
  assert (HDA : (inject_Z d * A == 255)%Q) by (unfold A; field; lra).
  assert (HA : (1 <= A <= 255)%Q) by nra.
  assert (HVL : (0 <= inject_Z v - inject_Z lo <= inject_Z d)%Q).
  { pose proof (inject_Z_bounds v lo (lo + d) Hv) as H. rewrite inject_Z_plus in H. lra. }
  assert (Hx : (0 <= x <= 255)%Q) by (unfold x; nra).
  assert (Hy0 : (0 <= y)%Q) by (unfold y; apply Qabs_nonneg).
  pose proof (cvRound_near cv y ltac:(lra)) as Hr.
  set (r := cv2.cvRound cv y) in *.
  (* from rationals to integers *)
  set (n := 255 * (v - lo)).
  assert (Hn : (inject_Z d * x == inject_Z n)%Q).
  { unfold x, n. rewrite inject_Z_mult, inject_Z_minus.
    change (inject_Z 255) with 255%Q.
    transitivity ((inject_Z v - inject_Z lo) * (inject_Z d * A))%Q; [ring|].
    rewrite HDA. ring. }
  assert (Hint : (- (inject_Z d + 1) < inject_Z (2 * (r * d - n)) < inject_Z d + 1)%Q).
  { rewrite inject_Z_mult, inject_Z_minus, inject_Z_mult, <- Hn.
    change (inject_Z 2) with 2%Q.
    assert (E : (2 * (inject_Z r * inject_Z d - inject_Z d * x)
                 == 2 * inject_Z d * (inject_Z r - x))%Q) by ring.
    rewrite E. nra. }
  assert (HintZ : - d <= 2 * (r * d - n) <= d).
  { destruct Hint as [H1 H2].
    change 1%Q with (inject_Z 1) in H1, H2.
    rewrite <- inject_Z_plus in H1, H2. rewrite <- inject_Z_opp in H1.
    rewrite <- Zlt_Qlt in H1, H2. lia. }
  assert (Hrange : 0 <= r <= 255) by (unfold n in HintZ; nia).
  assert (Hsat : cv2.saturate_u8 r = r) by (unfold cv2.saturate_u8; lia).
  rewrite Hsat. split; [exact Hrange|].
  apply Qabs_Qle_condition.
  assert (HZ : (- inject_Z d <= inject_Z (2 * (r * d - n)) <= inject_Z d)%Q).
  { rewrite <- inject_Z_opp. apply inject_Z_bounds. exact HintZ. }
  rewrite inject_Z_mult, inject_Z_minus, inject_Z_mult, <- Hn in HZ.
  change (inject_Z 2) with 2%Q in HZ.
  assert (E : (2 * (inject_Z r * inject_Z d - inject_Z d * x)
               == 2 * inject_Z d * (inject_Z r - x))%Q) by ring.
  rewrite E in HZ. nra.
Qed.

Lemma affine_lo lo hi : lo < hi -> (affine lo hi lo == 0)%Q.
Proof.
  intros H. assert (0 < inject_Z hi - inject_Z lo)%Q by (rewrite Zlt_Qlt in H; lra).
  unfold affine. field. lra.
Qed.

Lemma affine_hi lo hi : lo < hi -> (affine lo hi hi == 255)%Q.
Proof.
  intros H. assert (0 < inject_Z hi - inject_Z lo)%Q by (rewrite Zlt_Qlt in H; lra).
  unfold affine. field. lra.
Qed.

Lemma gain_lo cv lo hi : 0 <= lo -> hi <= 255 -> lo < hi -> gain cv lo hi lo = 0.
Proof.
  intros Hlo Hhi Hlt.
  destruct (gain_near cv lo hi lo Hlo Hhi Hlt ltac:(lia)) as [_ H].
  rewrite (affine_lo lo hi Hlt) in H. apply Qabs_Qle_condition in H.
  assert (H1 : (inject_Z (-1) < inject_Z (gain cv lo hi lo) < inject_Z 1)%Q)
    by (change (inject_Z (-1)) with (-1 # 1)%Q; change (inject_Z 1) with 1%Q; lra).
  rewrite <- !Zlt_Qlt in H1. lia.
Qed.

Lemma gain_hi cv lo hi : 0 <= lo -> hi <= 255 -> lo < hi -> gain cv lo hi hi = 255.
Proof.
  intros Hlo Hhi Hlt.
  destruct (gain_near cv lo hi hi Hlo Hhi Hlt ltac:(lia)) as [_ H].
  rewrite (affine_hi lo hi Hlt) in H. apply Qabs_Qle_condition in H.
  assert (H1 : (inject_Z 254 < inject_Z (gain cv lo hi hi) < inject_Z 256)%Q)
    by (change (inject_Z 254) with 254%Q; change (inject_Z 256) with 256%Q; lra).
  rewrite <- !Zlt_Qlt in H1. lia.
Qed.

(** The divisor of the gain step is not zero when the frame is not flat. *)
Lemma span_nonzero lo hi :
  0 <= lo -> hi <= 255 -> lo < hi ->
  Qeq_bool (ieee.double (inject_Z hi - inject_Z lo)) 0 = false.
Proof.
  intros Hlo Hhi Hlt.
  assert (E : (inject_Z hi - inject_Z lo == inject_Z (hi - lo))%Q)
    by (rewrite inject_Z_minus; reflexivity).
  rewrite (round_comp ieee.binary64 _ _ E : ieee.double _ = ieee.double _).
  destruct (byte_exact (hi - lo) ltac:(lia)) as [Hd _].
  destruct (Qeq_bool (ieee.double (inject_Z (hi - lo))) 0) eqn:E0; [|reflexivity].
  apply Qeq_bool_iff in E0. rewrite Hd in E0.
  assert (H : (inject_Z 0 < inject_Z (hi - lo))%Q) by (rewrite <- Zlt_Qlt; lia).
  change (inject_Z 0) with 0%Q in H. lra.
Qed.

Lemma bytes_extremes v0 l :
  np.bytes (v0 :: l) ->
  0 <= fold_right Z.min v0 l /\ fold_right Z.max v0 l <= 255.
Proof.
  intros Hb. unfold np.bytes in Hb. rewrite Forall_forall in Hb.
  destruct (fold_min_spec v0 l) as [Hmin _]. destruct (fold_max_spec v0 l) as [Hmax _].
  pose proof (Hb _ Hmin). pose proof (Hb _ Hmax). lia.
Qed.

(** C5. On a grayscale frame of bytes whose smallest and largest
    intensities are [lo] and [hi], and whatever the build of OpenCV: when
    [lo < hi] the gain step returns the frame with every intensity [v]
    replaced by [gain cv lo hi v], the value the double-precision
    arithmetic of Python and the single-precision arithmetic of
    [cv2.convertScaleAbs] produce, which is 0 at [lo], 255 at [hi], lies
    between 0 and 255 and is within one half of the affine map
    [255 * (v - lo) / (hi - lo)]; when [lo = hi] it returns the frame
    itself. In both cases it returns normally: the division is only made
    with a non-zero divisor. *)
Theorem auto_gain_spec
    (cv : OpenCV) (frame_gray : ndarray) (v0 : Z) (l : list Z) (s : state) :
  np.buf frame_gray = np.U8 (v0 :: l) -> np.bytes (v0 :: l) ->
  let lo := fold_right Z.min v0 l in
  let hi := fold_right Z.max v0 l in
  In lo (v0 :: l) /\ In hi (v0 :: l) /\
  (forall v, In v (v0 :: l) -> lo <= v <= hi) /\
  (lo < hi ->
   auto_gain cv frame_gray s =
   (s, Ok {| np.shape := np.shape frame_gray;
             np.buf := np.U8 (map (gain cv lo hi) (v0 :: l));
             np.c_contiguous := true |}) /\
   gain cv lo hi lo = 0 /\ gain cv lo hi hi = 255 /\
   forall v, lo <= v <= hi ->
             0 <= gain cv lo hi v <= 255 /\
             (Qabs (inject_Z (gain cv lo hi v) - affine lo hi v) <= 1 # 2)%Q) /\
  (lo = hi -> auto_gain cv frame_gray s = (s, Ok frame_gray)).
Proof.
  intros Hbuf Hbytes lo hi.
  destruct (fold_min_spec v0 l) as [Hminin Hmin].
  destruct (fold_max_spec v0 l) as [Hmaxin Hmax].
  destruct (bytes_extremes v0 l Hbytes) as [Hlo0 Hhi255].
  fold lo in Hminin, Hmin, Hlo0. fold hi in Hmaxin, Hmax, Hhi255.
  split; [exact Hminin|]. split; [exact Hmaxin|].
  split; [intros v Hv; split; [apply Hmin | apply Hmax]; exact Hv|].
  assert (Hmm : cv2.minMaxLoc frame_gray = Ok (inject_Z lo, inject_Z hi))
    by (unfold cv2.minMaxLoc; rewrite Hbuf; reflexivity).
  split.
  - intros Hlt. split; [|split; [|split]].
    + unfold auto_gain. unfold bind at 1, lift at 1. rewrite Hmm.
      rewrite Qgtb_true by (rewrite <- Zlt_Qlt; exact Hlt).
      unfold bind, lift, ret, py_div.
      rewrite (span_nonzero lo hi Hlo0 Hhi255 Hlt).
      unfold cv2.convertScaleAbs. rewrite Hbuf. cbn [np.as_floats].
      rewrite map_map. reflexivity.
    + now apply gain_lo.
    + now apply gain_hi.
    + intros v Hv. now apply gain_near.
  - intros Heq. unfold auto_gain. unfold bind at 1, lift at 1. rewrite Hmm.
    rewrite Qgtb_false by (rewrite Heq; apply Qle_refl). reflexivity.
Qed.

Lemma auto_gain_spec_witness :
  let frame_gray := {| np.shape := [1; 3]; np.buf := np.U8 [50; 125; 200];
                       np.c_contiguous := true |} in
  let lo := fold_right Z.min 50 [125; 200] in
  let hi := fold_right Z.max 50 [125; 200] in
  In lo [50; 125; 200] /\ In hi [50; 125; 200] /\
  (forall v, In v [50; 125; 200] -> lo <= v <= hi) /\
  (lo < hi ->
   auto_gain sample.cv frame_gray blank =
   (blank, Ok {| np.shape := np.shape frame_gray;
                 np.buf := np.U8 (map (gain sample.cv lo hi) [50; 125; 200]);
                 np.c_contiguous := true |}) /\
   gain sample.cv lo hi lo = 0 /\ gain sample.cv lo hi hi = 255 /\
   forall v, lo <= v <= hi ->
             0 <= gain sample.cv lo hi v <= 255 /\
             (Qabs (inject_Z (gain sample.cv lo hi v) - affine lo hi v) <= 1 # 2)%Q) /\
  (lo = hi -> auto_gain sample.cv frame_gray blank = (blank, Ok frame_gray)).
Proof.
  intros frame_gray.
  apply (auto_gain_spec sample.cv frame_gray 50 [125; 200] blank).
  - reflexivity.
  - repeat constructor; lia.
Defined.

(** ** Which exceptions a method lets through *)

Section RaisesOnly.

Context {A : Type} (P : exn -> bool).

Lemma raises_only_ret (a : A) : raises_only P (ret a).
Proof. intros s. exact I. Qed.

Lemma raises_only_gets (f : state -> A) : raises_only P (gets f).
Proof. intros s. exact I. Qed.

Lemma raises_only_raise e : P e = true -> raises_only P (@raise A e).
Proof. intros H s. exact H. Qed.

Lemma raises_only_lift_ok (a : A) : raises_only P (lift (Ok a)).
Proof. intros s. exact I. Qed.

Lemma raises_only_bind {B} (m : M B) (k : B -> M A) :
  raises_only P m -> (forall b, raises_only P (k b)) -> raises_only P (bind m k).
Proof.
  intros Hm Hk s. unfold bind. specialize (Hm s).
  destruct (m s) as [s' [b|e]]; cbn [snd] in *; [apply Hk | exact Hm].
Qed.

Lemma raises_only_try_except (Q : exn -> bool) (body : M A) catches handler :
  raises_only Q body ->
  (forall e, Q e = true -> catches e = false -> P e = true) ->
  (forall e, raises_only P (handler e)) ->
  raises_only P (try_except body catches handler).
Proof.
  intros Hb Hq Hh s. unfold try_except. specialize (Hb s).
  destruct (body s) as [s' [a|e]]; cbn [snd] in *; [exact I|].
  destruct (catches e) eqn:E; [apply Hh | cbn [snd]; now apply Hq].
Qed.

Lemma raises_only_try_finally (body : M A) fin :
  raises_only P body -> raises_only P fin -> raises_only P (try_finally body fin).
Proof.
  intros Hb Hf s. unfold try_finally. specialize (Hb s).
  destruct (body s) as [s' r]; cbn [snd] in *. specialize (Hf s').
  destruct (fin s') as [s'' [u|e]]; cbn [snd] in *; [exact Hb | exact Hf].
Qed.

End RaisesOnly.

Lemma raises_only_modify P f : raises_only P (modify f).
Proof. intros s. exact I. Qed.

Lemma raises_only_when P b m : raises_only P m -> raises_only P (when b m).
Proof. intros Hm. destruct b; [exact Hm | apply raises_only_ret]. Qed.

Lemma raises_only_emit P x : raises_only P (emit x).
Proof. apply raises_only_modify. Qed.

Lemma raises_only_log P lvl msg : raises_only P (logging_log lvl msg).
Proof. unfold logging_log. apply raises_only_when, raises_only_emit. Qed.

Create HintDb raises.
Global Hint Resolve raises_only_emit raises_only_log raises_only_modify : raises.
Global Hint Extern 1 (raises_only _ (logging_debug _)) => apply raises_only_log : raises.
Global Hint Extern 1 (raises_only _ (logging_info _)) => apply raises_only_log : raises.
Global Hint Extern 1 (raises_only _ (logging_warning _)) => apply raises_only_log : raises.
Global Hint Extern 1 (raises_only _ (logging_error _)) => apply raises_only_log : raises.
Global Hint Extern 1 (raises_only _ (logging_critical _)) => apply raises_only_log : raises.
Global Hint Extern 1 (raises_only _ (logging_exception _)) => apply raises_only_log : raises.
Global Hint Extern 1 (raises_only _ (raise _)) => apply raises_only_raise; reflexivity : raises.
Global Hint Extern 1 (raises_only _ (exit _)) => apply raises_only_raise; reflexivity : raises.

Ltac raises_step :=
  lazymatch goal with
  | |- raises_only _ (bind _ _) => apply raises_only_bind; [|intros ?]
  | |- raises_only _ (ret _) => apply raises_only_ret
  | |- raises_only _ (gets _) => apply raises_only_gets
  | |- raises_only _ (lift (Ok _)) => apply raises_only_lift_ok
  | |- raises_only _ (try_finally _ _) => apply raises_only_try_finally
  | |- raises_only _ (when _ _) => apply raises_only_when
  | |- raises_only _ (if ?b then _ else _) => destruct b eqn:?
  | |- raises_only _ (match ?x with _ => _ end) => destruct x eqn:?
  | |- raises_only _ (let (_, _) := ?x in _) => destruct x eqn:?
  end.

Ltac raises := repeat (raises_step || solve [auto with raises]).

Lemma set_cpu_governor_never_raises out g : never_raises (set_cpu_governor out g).
Proof. unfold set_cpu_governor. raises. Qed.
Global Hint Resolve set_cpu_governor_never_raises : raises.

Lemma queue_get_nowait_raises : raises_only is_QueueEmpty queue_get_nowait.
Proof. unfold queue_get_nowait. raises. Qed.

Lemma drain_queue_never_raises fuel n : never_raises (drain_queue fuel n).
Proof.
  revert n. induction fuel as [|fuel IH]; intros n; cbn [drain_queue]; unfold queue_empty.
  - raises.
  - raises. apply (raises_only_try_except _ is_QueueEmpty).
    + apply raises_only_bind; [apply queue_get_nowait_raises|].
      intros _ s. specialize (IH (n + 1) s). destruct (snd (drain_queue fuel (n + 1) s));
        [exact I | discriminate IH].
    + intros e He Hc. congruence.
    + intros e. raises.
Qed.
Global Hint Resolve drain_queue_never_raises : raises.

Lemma stop_uvc_stream_never_raises e : never_raises (stop_uvc_stream e).
Proof.
  unfold stop_uvc_stream, drain_frame_queue. raises.
  apply (raises_only_try_except _ is_Exception).
  - raises.
  - intros ex He Hc. congruence.
  - intros ex. raises.
Qed.
Global Hint Resolve stop_uvc_stream_never_raises : raises.

Lemma cleanup_never_raises e : never_raises (cleanup e).
Proof. unfold cleanup, disp_image_black. raises. Qed.
Global Hint Resolve cleanup_never_raises : raises.

(** ** Exit status *)

Lemma never_raises_ok {A} (m : M A) s : never_raises m -> exists a, snd (m s) = Ok a.
Proof.
  intros H. specialize (H s). destruct (snd (m s)) as [a|e]; [now exists a | discriminate H].
Qed.

Lemma try_finally_snd {A} (body : M A) fin s :
  never_raises fin -> snd (try_finally body fin s) = snd (body s).
Proof.
  intros Hf. unfold try_finally. destruct (body s) as [s' r].
  specialize (Hf s'). destruct (fin s') as [s'' [u|e]]; cbn [snd] in *;
    [reflexivity | discriminate Hf].
Qed.

Lemma run_snd cv w s :
  exists s1, snd (run cv w s) = run_outcome (snd (run_body cv w s1)).
Proof.
  unfold run.
  unfold bind at 1.
  destruct (never_raises_ok (logging_info "Application run started.") s) as [u Hu];
    [raises|].
  destruct (logging_info "Application run started." s) as [s0 r0]. cbn [snd] in Hu. subst r0.
  unfold bind at 1.
  destruct (never_raises_ok (set_cpu_governor (cpufreq_set (at_start w)) CPU_GOVERNOR_RUN) s0)
    as [b Hb]; [raises|].
  destruct (set_cpu_governor (cpufreq_set (at_start w)) CPU_GOVERNOR_RUN s0) as [s1 r1].
  cbn [snd] in Hb. subst r1.
  exists s1. destruct (run_body cv w s1) as [s2 r]. cbn [snd].
  destruct r as [[|]|e]; [| reflexivity |].
  - rewrite try_finally_snd by raises. reflexivity.
  - rewrite try_finally_snd by raises. unfold try_except, lift.
    destruct e; cbn [is_Exception run_outcome];
      try reflexivity;
      match goal with
      | |- snd (bind (logging_log ?l ?m) ?k ?s) = _ =>
          unfold bind; destruct (never_raises_ok (logging_log l m) s) as [x Hx]; [raises|];
          destruct (logging_log l m s) as [s3 r3]; cbn [snd] in Hx; subst r3; reflexivity
      end.
Qed.

Lemma display_failure_raises cv w d s :
  display_outcome w = Some d -> snd (run_body cv w s) = Raise (SystemExit 1).
Proof.
  intros H. unfold run_body, initialize_display_and_buttons. rewrite H.
  destruct s, d; mrun; reflexivity.
Qed.

Lemma initialize_camera_raises c e s :
  camera_fails c -> exists msg, snd (initialize_camera c e s) = Raise (RuntimeError msg).
Proof.
  intros H. unfold initialize_camera. destruct s. mrun.
  destruct (res_uvc_init c <? 0) eqn:E1; mrun; [eexists; reflexivity|].
  destruct (res_uvc_find_device c <? 0) eqn:E2; mrun; [eexists; reflexivity|].
  destruct (res_uvc_open c <? 0) eqn:E3; mrun; [eexists; reflexivity|].
  destruct (res_uvc_get_stream_ctrl c <? 0) eqn:E4; mrun.
  - match goal with
    | |- context [cleanup e ?s] =>
        destruct (never_raises_ok (cleanup e) s) as [u Hu]; [raises|];
        destruct (cleanup e s) as [s' r']; cbn [snd] in Hu; subst r'
    end.
    eexists. reflexivity.
  - exfalso. apply Z.ltb_ge in E1, E2, E3, E4. unfold camera_fails in H. lia.
Qed.

Lemma LeptonViewer_init_constructs e s :
  LeptonViewer_init e s = (constructed e s, Ok tt).
Proof.
  unfold LeptonViewer_init, add_custom_luts, append_colormap, colormaps_getitem, constructed,
    initial_colormaps.
  destruct s. mrun.
  rewrite (create_custom_lut_in_range "red" 64 [64; 0; 0] [255; 0; 0])
    by (lia || reflexivity).
  mrun.
  rewrite (create_custom_lut_in_range "green" 64 [0; 64; 0] [0; 255; 0])
    by (lia || reflexivity).
  mrun.
  rewrite (create_custom_lut_in_range "blue" 64 [0; 0; 64] [0; 0; 255])
    by (lia || reflexivity).
  mrun. cbn [nth_error Z.to_nat app]. mrun.
  rewrite <- !app_assoc. reflexivity.
Qed.

Lemma initialize_display_never_raises_ok : never_raises (initialize_display_and_buttons None).
Proof. unfold initialize_display_and_buttons, disp_image_black. cbv beta iota. raises. Qed.

Lemma load_no_luts_never_raises cv : never_raises (load_custom_luts cv []).
Proof. unfold load_custom_luts. cbn [load_lut_files]. raises. Qed.

Lemma camera_failure_raises cv w s :
  display_outcome w = None -> listing w = [] -> camera_fails (camera w) ->
  exists msg, snd (run_body cv w s) = Raise (RuntimeError msg).
Proof.
  intros Hd Hl Hc. unfold run_body. rewrite Hd, Hl.
  unfold bind at 1.
  destruct (never_raises_ok (initialize_display_and_buttons None) s
              initialize_display_never_raises_ok) as [u Hu].
  destruct (initialize_display_and_buttons None s) as [s1 r1]. cbn [snd] in Hu. subst r1.
  unfold bind at 1.
  destruct (never_raises_ok (load_custom_luts cv []) s1 (load_no_luts_never_raises cv))
    as [u' Hu'].
  destruct (load_custom_luts cv [] s1) as [s2 r2]. cbn [snd] in Hu'. subst r2.
  unfold bind at 1.
  destruct (initialize_camera_raises (camera w) (at_start w) s2 Hc) as [msg Hm].
  exists msg. destruct (initialize_camera (camera w) (at_start w) s2) as [s3 r3].
  cbn [snd] in Hm. subst r3. reflexivity.
Qed.

(** The script up to [app.run()]: three records logged, the viewer built. *)
Lemma script_start cv w :
  startup_failure w = false ->
  main cv w =
  run cv w (constructed (at_start w)
              (logged [Log INFO "--- Script Started ---";
                       Log INFO "Display libraries imported successfully.";
                       Log INFO "Camera libraries imported successfully."] blank)).
Proof.
  intros H. unfold main, script. rewrite H.
  unfold logging_info, logging_log. change (isEnabledFor INFO) with true. cbn [when].
  unfold bind, emit, modify. rewrite LeptonViewer_init_constructs. reflexivity.
Qed.

Lemma script_snd cv w :
  startup_failure w = false ->
  exists s1, snd (main cv w) = run_outcome (snd (run_body cv w s1)).
Proof. intros H. rewrite (script_start cv w H). apply run_snd. Qed.

(** C7, the part the code satisfies: when the display or the buttons
    cannot be set up, the process ends with exit status 1. *)
Lemma display_failure_exit_status cv w d :
  startup_failure w = false -> display_outcome w = Some d ->
  exit_status (main cv w) = Some 1.
Proof.
  intros Hs Hd. destruct (script_snd cv w Hs) as [s1 H1].
  unfold exit_status. rewrite H1, (display_failure_raises cv w d s1 Hd). reflexivity.
Qed.

(** When a libuvc call of [initialize_camera] fails, the [RuntimeError] it
    raises is caught in [run]: the process cleans up and ends with exit
    status 0. *)
Lemma camera_failure_exit_status cv w :
  startup_failure w = false -> display_outcome w = None -> listing w = [] ->
  camera_fails (camera w) ->
  exit_status (main cv w) = Some 0.
Proof.
  intros Hs Hd Hl Hc. destruct (script_snd cv w Hs) as [s1 H1].
  destruct (camera_failure_raises cv w s1 Hd Hl Hc) as [msg Hm].
  unfold exit_status. rewrite H1, Hm. reflexivity.
Qed.

(** C7 at the failing input: no camera is plugged in, [uvc_find_device]
    returns -4, and the process exits with status 0 and not with a non-zero
    status. *)
Theorem camera_failure_exits_zero :
  camera_fails (camera no_camera) /\
  exit_status (main sample.cv no_camera) = Some 0 /\
  exit_status (main sample.cv (no_camera <| display_outcome := Some DisplayDriver |>)) = Some 1.
Proof.
  split; [right; left; reflexivity|]. split.
  - apply camera_failure_exit_status; try reflexivity. right; left; reflexivity.
  - now apply (display_failure_exit_status _ _ DisplayDriver).
Qed.

(** ** Tables loaded from files *)

Lemma list_eqb_eq l1 l2 : np.list_eqb l1 l2 = true -> l1 = l2.
Proof.
  unfold np.list_eqb. revert l2.
  induction l1 as [|a l1 IH]; intros [|b l2] H; try reflexivity; try discriminate.
  apply andb_prop in H. destruct H as [Hlen H].
  cbn [combine forallb] in H. apply andb_prop in H. destruct H as [Hab H].
  apply Z.eqb_eq in Hab. subst b. f_equal. apply IH.
  cbn [length] in Hlen. rewrite Nat.eqb_eq in Hlen. injection Hlen as Hlen.
  rewrite Hlen, Nat.eqb_refl. exact H.
Qed.

Lemma catalog_valid_same_catalog (f : state -> state) :
  (forall s, colormaps (f s) = colormaps s) -> preserves catalog_valid (modify f).
Proof.
  intros Hf. apply preserves_modify. intros s H. unfold catalog_valid. now rewrite Hf.
Qed.

Ltac same_catalog := apply catalog_valid_same_catalog; intros []; reflexivity.

Global Hint Extern 1 (preserves catalog_valid (modify _)) => same_catalog : pres.

Lemma catalog_valid_emit x : preserves catalog_valid (emit x).
Proof. unfold emit. same_catalog. Qed.
Global Hint Resolve catalog_valid_emit : pres.

Lemma catalog_valid_log lvl msg : preserves catalog_valid (logging_log lvl msg).
Proof. unfold logging_log. pres. Qed.
Global Hint Resolve catalog_valid_log : pres.
Global Hint Extern 1 (preserves catalog_valid (logging_debug _)) => apply catalog_valid_log : pres.
Global Hint Extern 1 (preserves catalog_valid (logging_info _)) => apply catalog_valid_log : pres.
Global Hint Extern 1 (preserves catalog_valid (logging_warning _)) => apply catalog_valid_log : pres.
Global Hint Extern 1 (preserves catalog_valid (logging_error _)) => apply catalog_valid_log : pres.
Global Hint Extern 1 (preserves catalog_valid (logging_critical _)) => apply catalog_valid_log : pres.
Global Hint Extern 1 (preserves catalog_valid (logging_exception _)) => apply catalog_valid_log : pres.

Lemma catalog_valid_append name c :
  valid_colormap c -> preserves catalog_valid (append_colormap name c).
Proof.
  intros Hc. unfold append_colormap. apply preserves_modify. intros s H.
  destruct s. unfold catalog_valid in *. cbn in *.
  apply Forall_app. split; [exact H|]. constructor; [exact Hc|constructor].
Qed.

Lemma catalog_valid_load_lut_file cv f : preserves catalog_valid (load_lut_file cv f).
Proof.
  unfold load_lut_file. pres.
  apply catalog_valid_append. cbn [valid_colormap]. now apply list_eqb_eq.
Qed.

Lemma collect_rows rows :
  Forall byte_triple rows ->
  collect row_of_py (map (fun '(b, g, r) => PyTuple [PyInt b; PyInt g; PyInt r]) rows)
  = Ok (map (fun '(b, g, r) => [b; g; r]) rows).
Proof.
  induction 1 as [|[[b g] r] rows (Hb & Hg & Hr) _ IH]; [reflexivity|].
  cbn [map collect row_of_py uint8_of_py rbind]. rewrite IH. cbn [rbind].
  now rewrite !Z.mod_small by assumption.
Qed.

Lemma is_tuple3_rows rows :
  forallb is_tuple3 (map (fun '(b, g, r) => PyTuple [PyInt b; PyInt g; PyInt r]) rows) = true.
Proof. induction rows as [|[[b g] r] rows IH]; [reflexivity|]. cbn. exact IH. Qed.

(** [np.array] of the parsed rows: shape [(N, 3)] over the bytes of the
    file, or [(0,)] when there is no row. *)
Lemma np_array_rows rows :
  Forall byte_triple rows ->
  np_array_uint8 (map (fun '(b, g, r) => PyTuple [PyInt b; PyInt g; PyInt r]) rows)
  = Ok {| np.shape := match rows with
                      | [] => [0]
                      | _ => [Z.of_nat (length rows); 3]
                      end;
          np.buf := np.U8 (flatten_rows rows);
          np.c_contiguous := true |}.
Proof.
  intros H. unfold np_array_uint8. rewrite (collect_rows rows H). cbn [rbind].
  unfold flatten_rows. rewrite flat_map_concat_map, length_map.
  destruct rows; reflexivity.
Qed.


(** C3. For a [.lut] file that opens and parses to [rows], a list of [n]
    byte triples: when [n = 0] the file is skipped with a warning and the
    catalogue is left as it was; when [n = 256] the rows are appended to
    the catalogue byte for byte, as a table of shape (256, 1, 3); for any
    other [n] the rows go through [cv2.resize] with linear interpolation
    to a column of 256 pixels, and what it returns is appended as a
    contiguous table of 256 entries. Whatever the file, a catalogue whose
    tables all have shape (256, 1, 3) is still such a catalogue after the
    file has been processed. *)
Theorem external_table_by_length (cv : OpenCV) (f : dir_entry) (rows : list (Z * Z * Z))
    (s : state) :
  well_parsed f rows ->
  let n := Z.of_nat (length rows) in
  (n = 0 ->
   load_lut_file cv f s =
   (logged [Log WARNING "LUT file parsed but is empty. Skipping."] s, Ok 0)) /\
  (n = 256 ->
   load_lut_file cv f s =
   (logged [Log INFO "Successfully loaded and processed custom LUT (Final size: 256 entries)"]
      (accepted f (lut_image 256 rows) s), Ok 1)) /\
  (n <> 0 -> n <> 256 ->
   forall resized, resizes_to_256 cv (lut_image n rows) resized ->
   np.len (np.ascontiguousarray resized) = 256 /\
   load_lut_file cv f s =
   (logged [Log INFO "LUT needs resizing to 256 entries.";
            Log INFO "Successfully loaded and processed custom LUT (Final size: 256 entries)"]
      (accepted f (np.ascontiguousarray resized) s), Ok 1)) /\
  (catalog_valid s -> catalog_valid (fst (load_lut_file cv f s))).
Proof.
  intros (Hex & Hbr & Hev & Hbytes) n.
  assert (Hload : load_lut_file cv f s = load_lut_file cv f s) by reflexivity.
  unfold load_lut_file at 2 in Hload. rewrite Hex, Hbr in Hload.
  cbn [negb] in Hload. unfold try_except at 1, bind at 1, lift at 1 in Hload.
  rewrite Hev in Hload. unfold py_rows in Hload. cbv beta iota in Hload.
  rewrite is_tuple3_rows in Hload. cbn [negb] in Hload.
  unfold bind at 1, lift at 1 in Hload. rewrite (np_array_rows rows Hbytes) in Hload.
  cbv beta iota in Hload.
  split; [|split; [|split]].
  - intros Hn. assert (rows = []) by (destruct rows; [reflexivity | cbn in Hn; lia]). subst rows.
    rewrite Hload. destruct s. reflexivity.
  - intros Hn. destruct rows as [|r0 rows']; [cbn in Hn; lia|].
    fold n in Hload. rewrite Hn in Hload.
    rewrite Hload. destruct s. reflexivity.
  - intros Hn0 Hn256 resized [Hres Hshape].
    destruct rows as [|r0 rows']; [cbn in Hn0; lia|].
    fold n in Hload.
    split; [unfold np.len, np.ascontiguousarray; cbn [np.shape]; now rewrite Hshape|].
    rewrite Hload. clear Hload. unfold np.len. cbn [np.shape].
    rewrite (proj2 (Z.eqb_neq n 0) Hn0), (proj2 (Z.eqb_neq n 256) Hn256).
    cbn [negb].
    rewrite reshape_ok by (unfold np.size; cbn [np.shape fold_right]; lia).
    cbn [np.buf np.c_contiguous]. fold (lut_image n (r0 :: rows')).
    destruct s. mrun. rewrite Hres. mrun.
    rewrite reshape_ok by (unfold np.size; rewrite Hshape; reflexivity).
    mrun. unfold np.shape_eqb, np.ascontiguousarray. cbn [np.shape np.c_contiguous].
    rewrite list_eqb_refl, Hshape.
    unfold append_colormap, logged, accepted, lut_name. mrun. cbn [np.buf].
    rewrite <- app_assoc. reflexivity.
  - intros Hv. apply (catalog_valid_load_lut_file cv f s Hv).
Qed.

Lemma external_table_by_length_witness :
  well_parsed two_rows [(0, 0, 0); (255, 255, 255)] /\
  exists resized,
    resizes_to_256 sample.cv (lut_image 2 [(0, 0, 0); (255, 255, 255)]) resized /\
    np.len (np.ascontiguousarray resized) = 256 /\
    load_lut_file sample.cv two_rows sample.viewer =
    (logged [Log INFO "LUT needs resizing to 256 entries.";
             Log INFO "Successfully loaded and processed custom LUT (Final size: 256 entries)"]
       (accepted two_rows (np.ascontiguousarray resized) sample.viewer), Ok 1).
Proof.
  assert (Hp : well_parsed two_rows [(0, 0, 0); (255, 255, 255)]).
  { repeat split; try reflexivity.
    repeat constructor; cbv; discriminate. }
  split; [exact Hp|].
  destruct (sample.resize (lut_image 2 [(0, 0, 0); (255, 255, 255)]) (1, 256))
    as [resized|] eqn:E; [|vm_compute in E; discriminate].
  assert (Hs : np.shape resized = [256; 1; 3])
    by (vm_compute in E; injection E as <-; reflexivity).
  exists resized. split; [split; [exact E | exact Hs]|].
  refine (proj1 (proj2 (proj2
    (external_table_by_length sample.cv two_rows [(0, 0, 0); (255, 255, 255)]
       sample.viewer Hp))) _ _ resized (conj E Hs)); cbv; discriminate.
Defined.

(** * Further properties of the code *)

(** ** Helpers *)

(** [set_cpu_governor] is best effort: whatever the command does (returns a
    code, is not installed, fails otherwise), it runs
    [sudo cpufreq-set -g <governor>] exactly once, logs before and after,
    changes nothing else, raises nothing and returns [True] exactly when
    the return code is 0. *)
Theorem set_cpu_governor_best_effort (out : subprocess_outcome) (governor : string)
    (s : state) :
  exists outcome_record,
    acts outcome_record = false /\
    set_cpu_governor out governor s =
    (logged [Log INFO "Attempting to set CPU governor";
             Subprocess ["sudo"; "cpufreq-set"; "-g"; governor];
             outcome_record] s,
     Ok (match out with Returncode 0 => true | _ => false end)).
Proof.
  unfold set_cpu_governor, logged. destruct s.
  destruct out as [[|p|p]| |]; cbn [Z.eqb]; mrun;
    rewrite <- ?app_assoc; eexists; (split; [|reflexivity]); reflexivity.
Qed.

(** ** The thermal poll *)

Lemma Qgtb_lt a b : Qgtb a b = true -> (b < a)%Q.
Proof.
  unfold Qgtb. intros H. destruct (Qle_bool a b) eqn:E; [discriminate|].
  apply Qnot_le_lt. intros Hle. apply Qle_bool_iff in Hle. congruence.
Qed.

Lemma Qgtb_le a b : Qgtb a b = false -> (a <= b)%Q.
Proof.
  unfold Qgtb. intros H. destruct (Qle_bool a b) eqn:E; [|discriminate].
  now apply Qle_bool_iff.
Qed.

(** The poll stops the loop only when it is due and the sensor reads above
    75 degrees. In every other case (not due, sensor missing or unreadable,
    temperature at or below the threshold) it returns normally without
    stopping, leaves [is_running] alone, runs no command and does not
    sleep: whatever it adds to the trace is a log record. *)
Theorem shutdown_only_when_hot (e : env) (s : state) :
  exists stop s' t,
    check_temperature e s = (s', Ok stop) /\
    trace s' = trace s ++ t /\
    (stop = true -> poll_due e s /\ hot e) /\
    (stop = false -> is_running s' = is_running s /\ filter acts t = []).
Proof.
  unfold check_temperature, get_cpu_temperature, shutdown_pi, poll_due, hot.
  destruct s, e as [now sensor a b g sh r x i]. mrun.
  destruct (Qgtb (now - last_temp_shutdown_check_time0) CPU_TEMP_SHUTDOWN_CHECK_INTERVAL_S)
    eqn:Hdue; mrun.
  2: { exists false. eexists. exists []. rewrite app_nil_r.
       repeat split; try reflexivity; discriminate. }
  apply Qgtb_lt in Hdue.
  destruct sensor as [m| |]; mrun.
  - destruct (Qgtb (now - last_temp_log_time0) CPU_TEMP_LOG_INTERVAL_S); mrun;
      (destruct (Qgtb (inject_Z m / 1000) CPU_TEMP_SHUTDOWN_THRESHOLD_C) eqn:Hhot; mrun;
       [ apply Qgtb_lt in Hhot;
         destruct sh as [[|p|p]| |]; mrun;
         exists true; eexists; eexists;
         (split; [reflexivity|]);
         (split; [cbn [trace]; rewrite <- ?app_assoc; reflexivity|]);
         (split; [intros _; split; [exact Hdue | exists m; split; [reflexivity | exact Hhot]]
                 | discriminate])
       | exists false; eexists ]).
    + exists [Log INFO "CPU Temp"]. repeat split; try reflexivity; discriminate.
    + exists []. rewrite app_nil_r. repeat split; try reflexivity; discriminate.
  - exists false. eexists. exists []. rewrite app_nil_r.
    repeat split; try reflexivity; discriminate.
  - exists false. eexists. eexists.
    split; [reflexivity|]. split; [reflexivity|].
    split; [discriminate | intros _; split; reflexivity].
Qed.

(** ** Buttons *)

Lemma handle_button_a_pressed (e : env) (s : state) (name : string) (c : colormap) :
  press_a e s -> colormaps s <> [] ->
  nth_error (colormaps s)
            (Z.to_nat ((colormap_index s + 1) mod Z.of_nat (length (colormaps s))))
  = Some (name, c) ->
  handle_button_a e s =
  (logged [Log INFO "Button A Pressed: Colormap changed"]
     (s <| last_button_a_time := time_time e |>
        <| colormap_index := (colormap_index s + 1) mod Z.of_nat (length (colormaps s)) |>
        <| current_colormap := c |> <| current_colormap_name := name |>), Ok tt).
Proof.
  intros (Hpin & Hheld & Hdeb) Hne Hnth.
  assert (Hn : 0 < Z.of_nat (length (colormaps s)))
    by (destruct (colormaps s); [congruence | cbn [length]; lia]).
  apply Qgtb_true in Hdeb.
  unfold handle_button_a, py_mod, colormaps_getitem, logged.
  destruct s, e as [now sensor a b g sh r x sg].
  cbn [buttonA buttonA_value time_time last_button_a_time colormaps colormap_index]
    in Hpin, Hheld, Hdeb, Hnth, Hn |- *.
  subst buttonA0 a. mrun. rewrite Hdeb. mrun.
  rewrite (proj2 (Z.eqb_neq _ 0)) by lia. mrun. rewrite Hnth. mrun.
  reflexivity.
Qed.

(** A debounced press of button A selects the next entry of the catalogue,
    wrapping from the last entry to the first: the index becomes
    [(index + 1) mod len], which is an index of the catalogue, the selected
    colormap and its name are that entry's, and the time of the press is
    recorded. Nothing else changes and nothing is raised. *)
Theorem button_a_cycles (e : env) (s : state) :
  press_a e s -> colormaps s <> [] ->
  let n := Z.of_nat (length (colormaps s)) in
  let i := (colormap_index s + 1) mod n in
  exists name c,
    nth_error (colormaps s) (Z.to_nat i) = Some (name, c) /\
    0 <= i < n /\
    (colormap_index s = n - 1 -> i = 0) /\
    handle_button_a e s =
    (logged [Log INFO "Button A Pressed: Colormap changed"]
       (s <| last_button_a_time := time_time e |> <| colormap_index := i |>
          <| current_colormap := c |> <| current_colormap_name := name |>), Ok tt).
Proof.
  intros Hpress Hne n i.
  assert (Hn : 0 < n) by (subst n; destruct (colormaps s); [congruence | cbn [length]; lia]).
  assert (Hi : 0 <= i < n) by (apply Z.mod_pos_bound; exact Hn).
  destruct (nth_error (colormaps s) (Z.to_nat i)) as [[name c]|] eqn:Hnth.
  2: { apply nth_error_None in Hnth. subst n. lia. }
  exists name, c. split; [reflexivity|]. split; [exact Hi|]. split.
  - intros Hlast. subst i. rewrite Hlast.
    replace (n - 1 + 1) with (1 * n) by lia. apply Z.mod_mul. lia.
  - exact (handle_button_a_pressed e s name c Hpress Hne Hnth).
Qed.

Lemma button_a_cycles_witness :
  let e := (sample.quiet 1) <| buttonA_value := false |> in
  press_a e sample.streaming /\
  exists name c,
    nth_error (colormaps sample.streaming) 1 = Some (name, c) /\
    handle_button_a e sample.streaming =
    (logged [Log INFO "Button A Pressed: Colormap changed"]
       (sample.streaming <| last_button_a_time := 1%Q |> <| colormap_index := 1 |>
          <| current_colormap := c |> <| current_colormap_name := name |>), Ok tt).
Proof.
  intros e.
  assert (Hp : press_a e sample.streaming) by (repeat split; reflexivity).
  split; [exact Hp|].
  destruct (button_a_cycles e sample.streaming Hp) as (name & c & Hnth & _ & _ & Hrun);
    [discriminate|].
  exists name, c. split; [exact Hnth | exact Hrun].
Defined.

Lemma handle_button_a_idle (e : env) (s : state) :
  buttonA s && negb (buttonA_value e)
  && Qgtb (time_time e - last_button_a_time s) (3 # 10) = false ->
  handle_button_a e s = (s, Ok tt).
Proof.
  intros H. unfold handle_button_a. unfold bind at 1, gets at 1.
  unfold bind at 1, gets at 1. rewrite H. reflexivity.
Qed.

(** While the debounce interval of 0.3 s has not elapsed since the last
    accepted press, or while the button is not held, the handler of either
    button leaves the viewer exactly as it is. *)
Theorem debounce_ignores_bounce (e : env) (s : state) :
  ((time_time e - last_button_a_time s <= 3 # 10)%Q \/ buttonA_value e = true ->
   handle_button_a e s = (s, Ok tt)) /\
  ((time_time e - last_button_b_time s <= 3 # 10)%Q \/ buttonB_value e = true ->
   handle_button_b e s = (s, Ok tt)).
Proof.
  split; intros H; [unfold handle_button_a | unfold handle_button_b];
    destruct s, e as [now sensor a b g sh r x sg];
    cbn [time_time last_button_a_time last_button_b_time buttonA_value buttonB_value] in H;
    mrun.
  - destruct H as [H|H].
    + apply Qgtb_false in H. rewrite H. destruct buttonA0, a; reflexivity.
    + subst a. destruct buttonA0; reflexivity.
  - destruct H as [H|H].
    + apply Qgtb_false in H. rewrite H. destruct buttonB0, b; reflexivity.
    + subst b. destruct buttonB0; reflexivity.
Qed.

Lemma debounce_ignores_bounce_witness :
  let e := (sample.quiet (1 # 5)) <| buttonA_value := false |> <| buttonB_value := false |> in
  handle_button_a e sample.streaming = (sample.streaming, Ok tt) /\
  handle_button_b e sample.streaming = (sample.streaming, Ok tt).
Proof.
  intros e. split.
  - refine (proj1 (debounce_ignores_bounce e sample.streaming) _). left. vm_compute. discriminate.
  - refine (proj2 (debounce_ignores_bounce e sample.streaming) _). left. vm_compute. discriminate.
Defined.

(** ** Passes of the loop *)

(** A Ctrl-C taken in a pass clears [is_running], is logged and swallowed,
    and the loop ends before the next pass, however many events remain. *)
Theorem keyboard_interrupt_stops_loop (cv : OpenCV) (e : env) (rest : list event) (s : state) :
  is_running s = true -> sigint e = true ->
  let s' := logged [Log INFO "Exiting loop due to KeyboardInterrupt."]
                   (s <| is_running := false |>) in
  loop_iteration cv e s = (s', Ok Next) /\
  render_loop cv (Pass e :: rest) s = (s', Ok LoopExited) /\
  mode s' = SHUTTING_DOWN.
Proof.
  intros Hrun Hint s'. subst s'. unfold logged, mode.
  assert (H : loop_iteration cv e s =
              (s <| is_running := false |>
                 <| trace := trace s ++ [Log INFO "Exiting loop due to KeyboardInterrupt."] |>,
               Ok Next)).
  { unfold loop_iteration, loop_body. destruct s, e as [now sensor a b g sh r x sg].
    cbn [sigint] in Hint. subst sg. mrun. reflexivity. }
  split; [destruct s; exact H|]. split; [|destruct s; reflexivity].
  cbn [render_loop]. unfold bind at 1, gets at 1. rewrite Hrun. cbn [negb].
  unfold bind at 1. rewrite H.
  destruct s, rest as [|[f|e'] rest]; reflexivity.
Qed.

Lemma keyboard_interrupt_stops_loop_witness :
  loop_iteration sample.cv ((sample.quiet 1) <| sigint := true |>) sample.streaming =
  (logged [Log INFO "Exiting loop due to KeyboardInterrupt."]
          (sample.streaming <| is_running := false |>), Ok Next).
Proof.
  exact (proj1 (keyboard_interrupt_stops_loop sample.cv ((sample.quiet 1) <| sigint := true |>)
                  [] sample.streaming eq_refl eq_refl)).
Defined.

(** With the display off, a pass in which nothing else happens (no Ctrl-C,
    no thermal poll due, no button held) only sleeps 0.25 s: no frame is
    taken from the queue, nothing is displayed and nothing is logged. *)
Theorem power_save_pass_idles (cv : OpenCV) (e : env) (s : state) :
  quiet_pass e s -> display_active s = false ->
  loop_iteration cv e s = (logged [Sleep (1 # 4)] s, Ok Next).
Proof.
  intros (Hint & Hdue & HA & HB) Hoff. apply Qgtb_false in Hdue.
  unfold loop_iteration, loop_body, check_temperature, handle_button_a, handle_button_b,
    handle_frame, logged.
  destruct s, e as [now sensor a b g sh r x sg].
  cbn [sigint time_time last_temp_shutdown_check_time buttonA_value buttonB_value
       display_active] in *.
  subst. mrun. rewrite Hdue. mrun.
  destruct buttonA0, buttonB0; reflexivity.
Qed.

Lemma power_save_pass_idles_witness :
  loop_iteration sample.cv (sample.quiet 1) (sample.streaming <| display_active := false |>) =
  (logged [Sleep (1 # 4)] (sample.streaming <| display_active := false |>), Ok Next).
Proof.
  apply (power_save_pass_idles sample.cv (sample.quiet 1)
           (sample.streaming <| display_active := false |>)).
  - repeat split; try reflexivity. vm_compute. discriminate.
  - reflexivity.
Defined.

(** ** Stream control *)

(** [start_uvc_stream] never raises and returns the value [stream_is_active]
    has afterwards. It returns [True] exactly when the stream was already
    active or a device handle exists and libuvc accepts to stream; when the
    stream is already active nothing is done at all (no libuvc call), and
    without a device handle libuvc is not called either. *)
Theorem start_uvc_stream_outcome (e : env) (s : state) :
  exists started s' t,
    start_uvc_stream e s = (s', Ok started) /\
    stream_is_active s' = started /\
    trace s' = trace s ++ t /\
    (started = true <->
     stream_is_active s = true \/ (uvc_devh s = true /\ 0 <= uvc_start_res e)) /\
    (stream_is_active s = true -> s' = s) /\
    (uvc_devh s = false -> filter acts t = []).
Proof.
  unfold start_uvc_stream. destruct s, e as [now sensor a b g sh r x sg].
  cbn [stream_is_active uvc_devh uvc_start_res trace].
  destruct stream_is_active0; mrun.
  { exists true. eexists. exists []. rewrite app_nil_r.
    repeat split; try reflexivity; auto. }
  destruct uvc_devh0; mrun.
  2: { exists false. eexists. eexists. repeat split; try reflexivity; try discriminate.
       intros [H|[H _]]; discriminate. }
  destruct (r <? 0) eqn:E; mrun.
  - apply Z.ltb_lt in E. exists false. eexists. eexists.
    split; [reflexivity|]. split; [reflexivity|].
    split; [rewrite <- !app_assoc; reflexivity|].
    repeat split; try discriminate. intros [H|[_ H]]; [discriminate | lia].
  - apply Z.ltb_ge in E. exists true. eexists. eexists.
    split; [reflexivity|]. split; [reflexivity|].
    split; [rewrite <- !app_assoc; reflexivity|].
    repeat split; try discriminate. intros _. right. split; [reflexivity | exact E].
Qed.

(** [stop_uvc_stream] never raises. With no active stream it does nothing.
    With an active stream and a device handle it asks libuvc to stop and,
    whether or not that call raises, clears [stream_is_active] and empties
    the frame queue. With an active stream but no device handle it only
    logs a warning: the flag stays set and the queue is left as it is. *)
Theorem stop_uvc_stream_outcome (e : env) (s : state) :
  (stream_is_active s = false -> stop_uvc_stream e s = (s, Ok tt)) /\
  (stream_is_active s = true -> uvc_devh s = true ->
   exists outcome_record,
     acts outcome_record = false /\
     stop_uvc_stream e s =
     (logged [Libuvc uvc_stop_streaming; outcome_record;
              Log INFO "Cleared frames from the queue."]
        (s <| stream_is_active := false |> <| frame_queue := [] |>), Ok tt)) /\
  (stream_is_active s = true -> uvc_devh s = false ->
   stop_uvc_stream e s =
   (logged [Log WARNING "UVC device handle is None. Cannot stop stream."] s, Ok tt)).
Proof.
  unfold stop_uvc_stream, logged.
  destruct s, e as [now sensor a b g sh r x sg]. cbn [stream_is_active uvc_devh].
  split; [|split].
  - intros ->. reflexivity.
  - intros -> ->. mrun.
    destruct x; mrun; rewrite drain_frame_queue_empties; mrun;
      rewrite <- !app_assoc; eexists; (split; [|reflexivity]); reflexivity.
  - intros -> ->. reflexivity.
Qed.

Lemma stop_uvc_stream_outcome_witness :
  exists outcome_record,
    stop_uvc_stream ((sample.quiet 1) <| uvc_stop_raises := true |>) sample.streaming =
    (logged [Libuvc uvc_stop_streaming; outcome_record;
             Log INFO "Cleared frames from the queue."]
       (sample.streaming <| stream_is_active := false |> <| frame_queue := [] |>), Ok tt).
Proof.
  destruct (proj1 (proj2 (stop_uvc_stream_outcome
                            ((sample.quiet 1) <| uvc_stop_raises := true |>) sample.streaming))
              eq_refl eq_refl) as (x & _ & H).
  exists x. exact H.
Defined.

(** [clear_frame_queue] terminates with the queue empty, returns the number
    of frames that were queued, logs once and changes nothing else. *)
Theorem clear_frame_queue_empties (s : state) :
  clear_frame_queue s =
  (logged [Log INFO "Cleared frames from the queue."] (s <| frame_queue := [] |>),
   Ok (Z.of_nat (length (frame_queue s)))).
Proof.
  unfold clear_frame_queue, logged. unfold bind at 1.
  rewrite drain_frame_queue_empties. destruct s. reflexivity.
Qed.

(** ** The camera and the release of resources *)

(** When the four libuvc calls succeed, [initialize_camera] makes exactly
    these calls in order, holds the context, the device and the device
    handle afterwards, and does not start the stream. *)
Theorem camera_ready (c : camera_env) (e : env) (s : state) :
  camera_works c ->
  exists t,
    initialize_camera c e s =
    (s <| uvc_ctx := true |> <| uvc_dev := true |> <| uvc_devh := true |>
       <| trace := trace s ++ t |>, Ok tt) /\
    libuvc_calls t = [uvc_init; uvc_find_device; uvc_open; uvc_get_stream_ctrl_format_size].
Proof.
  intros (H1 & H2 & H3 & H4).
  apply Z.ltb_ge in H1, H2, H3, H4.
  unfold initialize_camera. destruct s. mrun.
  rewrite H1. mrun. rewrite H2. mrun. rewrite H3. mrun. rewrite H4. mrun.
  eexists. split; [rewrite <- !app_assoc; reflexivity | reflexivity].
Qed.

Lemma camera_ready_witness :
  exists t,
    initialize_camera {| res_uvc_init := 0; res_uvc_find_device := 0; res_uvc_open := 0;
                         res_uvc_get_stream_ctrl := 0 |} (sample.quiet 0) sample.viewer =
    (sample.viewer <| uvc_ctx := true |> <| uvc_dev := true |> <| uvc_devh := true |>
       <| trace := trace sample.viewer ++ t |>, Ok tt) /\
    libuvc_calls t = [uvc_init; uvc_find_device; uvc_open; uvc_get_stream_ctrl_format_size].
Proof.
  apply (camera_ready {| res_uvc_init := 0; res_uvc_find_device := 0; res_uvc_open := 0;
                         res_uvc_get_stream_ctrl := 0 |} (sample.quiet 0) sample.viewer).
  repeat split; discriminate.
Defined.

Lemma establishes_bind_late {A B} (Q : state -> Prop) (m : M A) (k : A -> M B) :
  never_raises m -> (forall a, establishes Q (k a)) -> establishes Q (bind m k).
Proof.
  intros Hm Hk s. unfold bind. specialize (Hm s).
  destruct (m s) as [s' [a|ex]]; cbn [snd] in Hm; [apply Hk | discriminate Hm].
Qed.

Lemma establishes_bind_early {A B} (Q : state -> Prop) (m : M A) (k : A -> M B) :
  establishes Q m -> (forall a, preserves Q (k a)) -> establishes Q (bind m k).
Proof.
  intros Hm Hk s. unfold bind. specialize (Hm s).
  destruct (m s) as [s' [a|ex]]; cbn [fst] in *; [now apply Hk | exact Hm].
Qed.

Lemma establishes_modify (Q : state -> Prop) (f : state -> state) :
  (forall s, Q (f s)) -> establishes Q (modify f).
Proof. intros H s. apply H. Qed.

(** Preservation of a fact about fields that a step does not assign. *)
Ltac keep_fields :=
  unfold logging_debug, logging_info, logging_warning, logging_error, logging_critical,
    logging_exception, logging_log, emit, disp_image_black;
  repeat (pres_step || (apply preserves_modify; intros [] ?; assumption)).

Ltac establish :=
  first [ apply establishes_bind_early;
          [apply establishes_modify; intros []; reflexivity | intros ?; keep_fields]
        | apply establishes_bind_late; [raises | intros ?; establish] ].

Lemma cleanup_released e s : released (fst (cleanup e s)).
Proof.
  unfold released.
  repeat split;
    match goal with
    | |- ?field (fst (cleanup e s)) = false =>
        revert s; change (establishes (fun s => field s = false) (cleanup e));
        unfold cleanup, disp_image_black; establish
    end.
Qed.


(** *** What [cleanup] does, in closed form *)

Ltac open_state s :=
  destruct s as [disp_ backlight_ buttonA_ buttonB_ ctx_ dev_ devh_ running_ active_
                 streaming_ count_ started_ shown_ polled_ templog_ pressedA_ pressedB_
                 maps_ index_ current_ name_ queue_ trace_].

Lemma stop_uvc_stream_effect e s :
  stop_uvc_stream e s = (logged (stop_trace e s) (stopped s), Ok tt).
Proof.
  unfold stop_uvc_stream, stop_trace, stopped, logged. open_state s.
  destruct e as [now sensor a b g sh r x sg].
  destruct streaming_, devh_; mrun; rewrite ?app_nil_r; try reflexivity.
  destruct x; mrun; rewrite drain_frame_queue_empties; mrun;
    rewrite <- !app_assoc; reflexivity.
Qed.

Lemma when_logged (b : bool) (m : M unit) (l : list effect) s :
  (forall s, m s = (logged l s, Ok tt)) ->
  when b m s = (logged (if b then l else []) s, Ok tt).
Proof.
  intros H. destruct b; cbn [when]; [apply H|].
  unfold logged, ret. open_state s. cbn. now rewrite app_nil_r.
Qed.

(** Symbolic execution that leaves the guards of [when] alone. *)
Ltac mrun_upto_when :=
  unfold logging_debug, logging_info, logging_warning, logging_error, logging_critical,
    logging_exception, logging_log;
  change (isEnabledFor DEBUG) with false;
  change (isEnabledFor INFO) with true;
  change (isEnabledFor WARNING) with true;
  change (isEnabledFor ERROR) with true;
  change (isEnabledFor CRITICAL) with true;
  change (when true ?m) with m;
  cbv beta iota zeta delta
    [bind ret raise lift gets modify emit try_except try_finally logged stopped
     apply_update constant
     disp backlight buttonA buttonB uvc_ctx uvc_dev uvc_devh is_running
     display_active stream_is_active frame_count start_time last_display_time
     last_temp_shutdown_check_time last_temp_log_time last_button_a_time
     last_button_b_time colormaps colormap_index current_colormap
     current_colormap_name frame_queue trace
     fst snd andb negb].

Ltac when_step :=
  erewrite when_logged
    by (intros []; mrun; rewrite <- ?app_assoc; reflexivity);
  mrun_upto_when.

Lemma cleanup_effect e s :
  cleanup e s =
  (logged (cleanup_trace e s)
     ((stopped s) <| uvc_devh := false |> <| uvc_dev := false |> <| uvc_ctx := false |>
        <| buttonA := false |> <| buttonB := false |> <| backlight := false |>
        <| disp := false |>), Ok tt).
Proof.
  unfold cleanup, disp_image_black, cleanup_trace.
  unfold bind at 1. unfold logging_info at 1, logging_log at 1.
  change (isEnabledFor INFO) with true. cbn [when].
  unfold emit at 1, modify at 1.
  unfold bind at 1. rewrite stop_uvc_stream_effect.
  unfold stop_trace. open_state s.
  destruct streaming_, devh_; cbn [andb]; mrun_upto_when;
    repeat when_step; rewrite <- ?app_assoc; reflexivity.
Qed.

(** [cleanup] releases what the viewer holds in the order stream, device
    handle, device, context, each at most once, and makes no other libuvc
    call. *)
Theorem cleanup_release_order (e : env) (s : state) :
  exists s' t,
    cleanup e s = (s', Ok tt) /\
    trace s' = trace s ++ t /\
    libuvc_calls t =
    (if stream_is_active s && uvc_devh s then [uvc_stop_streaming] else [])
    ++ (if uvc_devh s then [uvc_close] else [])
    ++ (if uvc_dev s then [uvc_unref_device] else [])
    ++ (if uvc_ctx s then [uvc_exit] else []).
Proof.
  rewrite cleanup_effect. eexists. exists (cleanup_trace e s). split; [reflexivity|].
  split; [unfold logged, stopped; open_state s; destruct streaming_, devh_; reflexivity|].
  unfold cleanup_trace, stop_trace.
  destruct (stream_is_active s), (uvc_devh s), (uvc_dev s), (uvc_ctx s), (buttonA s),
    (buttonB s), (backlight s), (disp s), (uvc_stop_raises e); reflexivity.
Qed.

(** When [uvc_find_device] or [uvc_open] fails in a fresh viewer,
    [initialize_camera] has already released what it had obtained by the
    time it raises, but the viewer still holds the pointers: the
    [cleanup] that follows releases the same context (and, after a failed
    [uvc_open], the same device) a second time. *)
Theorem failed_camera_released_twice (c : camera_env) (e e' : env) (s : state) :
  uvc_dev s = false -> uvc_devh s = false ->
  0 <= res_uvc_init c ->
  res_uvc_find_device c < 0 \/ res_uvc_open c < 0 ->
  exists s1 msg s2 t,
    initialize_camera c e s = (s1, Raise (RuntimeError msg)) /\
    cleanup e' s1 = (s2, Ok tt) /\
    trace s2 = trace s ++ t /\
    libuvc_calls t =
    if res_uvc_find_device c <? 0
    then [uvc_init; uvc_find_device; uvc_exit; uvc_exit]
    else [uvc_init; uvc_find_device; uvc_open; uvc_unref_device; uvc_exit;
          uvc_unref_device; uvc_exit].
Proof.
  intros Hdev Hdevh Hinit Hfail.
  apply Z.ltb_ge in Hinit.
  assert (Hinit_eq : forall s0, exists s1 msg t1,
            initialize_camera c e s0 = (s1, Raise (RuntimeError msg)) /\
            trace s1 = trace s0 ++ t1 /\
            uvc_ctx s1 = true /\
            uvc_devh s1 = uvc_devh s0 /\
            (if res_uvc_find_device c <? 0
             then uvc_dev s1 = uvc_dev s0 /\
                  libuvc_calls t1 = [uvc_init; uvc_find_device; uvc_exit]
             else uvc_dev s1 = true /\
                  libuvc_calls t1 = [uvc_init; uvc_find_device; uvc_open;
                                     uvc_unref_device; uvc_exit])).
  { intros s0. unfold initialize_camera. open_state s0. mrun. rewrite Hinit. mrun.
    destruct (res_uvc_find_device c <? 0) eqn:E2; mrun.
    - do 3 eexists. split; [reflexivity|].
      split; [cbn [trace]; rewrite <- !app_assoc; reflexivity|].
      repeat split.
    - destruct Hfail as [Hfail|Hfail]; [apply Z.ltb_ge in E2; lia|].
      apply Z.ltb_lt in Hfail. rewrite Hfail. mrun.
      do 3 eexists. split; [reflexivity|].
      split; [cbn [trace]; rewrite <- !app_assoc; reflexivity|].
      repeat split. }
  destruct (Hinit_eq s) as (s1 & msg & t1 & H1 & Ht1 & Hctx & Hdevh1 & Hcase).
  destruct (cleanup_release_order e' s1) as (s2 & t2 & H2 & Ht2 & Hcalls).
  exists s1, msg, s2, (t1 ++ t2).
  split; [exact H1|]. split; [exact H2|].
  split; [rewrite Ht2, Ht1, app_assoc; reflexivity|].
  unfold libuvc_calls in *. rewrite flat_map_app, Hcalls.
  rewrite Hctx, Hdevh1, Hdevh, andb_false_r.
  destruct (res_uvc_find_device c <? 0); destruct Hcase as [Hd ->].
  - rewrite Hd, Hdev. reflexivity.
  - rewrite Hd. reflexivity.
Qed.

Lemma failed_camera_released_twice_witness :
  exists s1 msg s2 t,
    initialize_camera (camera no_camera) (sample.quiet 0) sample.viewer
    = (s1, Raise (RuntimeError msg)) /\
    cleanup (sample.quiet 1) s1 = (s2, Ok tt) /\
    trace s2 = trace sample.viewer ++ t /\
    libuvc_calls t = [uvc_init; uvc_find_device; uvc_exit; uvc_exit].
Proof.
  apply (failed_camera_released_twice (camera no_camera) (sample.quiet 0) (sample.quiet 1)
           sample.viewer);
    [reflexivity | reflexivity | cbv; discriminate | left; reflexivity].
Defined.

(** ** The frame pipeline *)

Lemma auto_gain_pure cv frame_gray :
  exists r, forall s, auto_gain cv frame_gray s = (s, r).
Proof.
  unfold auto_gain, bind, lift, ret.
  destruct (cv2.minMaxLoc frame_gray) as [[lo hi]|ex]; [|now eexists].
  destruct (Qgtb hi lo); [|now eexists].
  destruct (py_div 255 (ieee.double (hi - lo))); now eexists.
Qed.

Lemma auto_gain_any_state cv frame_gray agc s s' :
  auto_gain cv frame_gray s = (s, Ok agc) -> auto_gain cv frame_gray s' = (s', Ok agc).
Proof.
  destruct (auto_gain_pure cv frame_gray) as [r Hr]. rewrite !Hr. congruence.
Qed.

(** A pass with the display on and a frame waiting, when OpenCV accepts
    every step: the oldest frame leaves the queue, goes through UYVY to
    BGR, BGR to gray, the gain step, the selected colormap (a built-in one,
    or a custom table that passes the checks), the resize to the LCD and
    BGR to RGB, and that picture is what the display receives; nothing is
    logged. The frame counter is incremented, or reset together with the
    start time once 5 seconds have elapsed (the division by the elapsed
    time made then cannot fail). *)
Theorem frame_displayed
  (cv : OpenCV) (e : env) (s : state)
  (frame bgr gray agc color resized rgb : ndarray) (rest : list ndarray) :
  quiet_pass e s ->
  display_active s = true -> stream_is_active s = true ->
  frame_queue s = frame :: rest ->
  cvtColor_YUV2BGR_UYVY cv frame = Ok bgr ->
  cvtColor_BGR2GRAY cv bgr = Ok gray ->
  auto_gain cv gray s = (s, Ok agc) ->
  match current_colormap s with
  | ColormapId _ => True
  | CustomLut lut => custom_lut_checks lut agc = true
  end ->
  applyColorMap cv agc (current_colormap s) = Ok color ->
  resize_linear cv color (LCD_WIDTH, LCD_HEIGHT) = Ok resized ->
  cvtColor_BGR2RGB cv resized = Ok rgb ->
  let s1 := logged [DispImage (fromarray rgb)]
              (s <| frame_queue := rest |> <| last_display_time := time_time e |>) in
  loop_iteration cv e s =
  (if Qgeb (time_time e - start_time s) 5
   then s1 <| frame_count := 0 |> <| start_time := time_time e |>
   else s1 <| frame_count := frame_count s + 1 |>, Ok Next).
Proof.
  intros (Hint & Hdue & HA & HB) Hact Hstr Hq Hbgr Hgray Hagc Hchk Hmap Hres Hrgb s1.
  subst s1. apply Qgtb_false in Hdue.
  pose proof (fun s' => auto_gain_any_state cv gray agc s s' Hagc) as Hagc'.
  unfold loop_iteration, loop_body, check_temperature, handle_button_a, handle_button_b,
    handle_frame, queue_get, process_frame, apply_colormap, logged.
  open_state s. destruct e as [now sensor a b g sh r x sg].
  cbn [sigint time_time last_temp_shutdown_check_time buttonA_value buttonB_value
       display_active stream_is_active frame_queue current_colormap start_time
       frame_count] in *.
  subst. mrun. rewrite Hdue. mrun.
  replace (if buttonA_ then false else false) with false by (destruct buttonA_; reflexivity).
  mrun.
  replace (if buttonB_ then false else false) with false by (destruct buttonB_; reflexivity).
  mrun. rewrite Hbgr. mrun. rewrite Hgray. mrun. rewrite Hagc'. mrun.
  assert (Hfps : forall st,
            Qgeb (now - started_) 5 = true ->
            exists q, py_div st (now - started_) = Ok q).
  { intros st H5. unfold py_div. rewrite (Qeq_bool_of_ge5 _ H5). now eexists. }
  destruct current_ as [id|lut].
  - rewrite Hmap. mrun. rewrite Hres. mrun. rewrite Hrgb. mrun.
    destruct (Qgeb (now - started_) 5) eqn:E5; mrun; [|reflexivity].
    destruct (Hfps (inject_Z (count_ + 1)) eq_refl) as [q ->]. mrun. reflexivity.
  - rewrite Hchk. mrun. rewrite Hmap. mrun. rewrite Hres. mrun. rewrite Hrgb. mrun.
    destruct (Qgeb (now - started_) 5) eqn:E5; mrun; [|reflexivity].
    destruct (Hfps (inject_Z (count_ + 1)) eq_refl) as [q ->]. mrun. reflexivity.
Qed.

Lemma frame_displayed_witness :
  let s := sample.streaming <| frame_queue := [sample.tiny_uyvy] |> in
  let color := cv2.cvtColor_GRAY2BGR sample.tiny_agc in
  let resized := get_ok color (sample.resize color (LCD_WIDTH, LCD_HEIGHT)) in
  let rgb := get_ok resized (sample.bgr2rgb resized) in
  loop_iteration sample.cv (sample.quiet 1) s =
  ((logged [DispImage (fromarray rgb)]
      (s <| frame_queue := [] |> <| last_display_time := 1%Q |>)) <| frame_count := 1 |>,
   Ok Next).
Proof.
  intros s color resized rgb.
  refine (frame_displayed sample.cv (sample.quiet 1) s sample.tiny_uyvy sample.tiny_bgr
            sample.tiny_gray sample.tiny_agc color resized rgb [] _ _ _ _ _ _ _ _ _ _ _).
  - repeat split; try reflexivity. vm_compute. discriminate.
  - reflexivity.
  - reflexivity.
  - reflexivity.
  - reflexivity.
  - reflexivity.
  - vm_compute. reflexivity.
  - exact I.
  - reflexivity.
  - reflexivity.
  - reflexivity.
Defined.

(** When OpenCV raises on the frame taken from the queue (here at the
    first conversion), the pass logs the error, sleeps 0.1 s and ends
    normally: the frame is lost, nothing is displayed, and the viewer keeps
    running with the same settings. *)
Theorem frame_dropped_on_error
  (cv : OpenCV) (e : env) (s : state) (frame : ndarray) (rest : list ndarray) (ex : exn) :
  quiet_pass e s ->
  display_active s = true -> stream_is_active s = true ->
  frame_queue s = frame :: rest ->
  cvtColor_YUV2BGR_UYVY cv frame = Raise ex -> is_Exception ex = true ->
  loop_iteration cv e s =
  (logged [Log ERROR "Error in main processing loop"; Sleep (1 # 10)]
     (s <| frame_queue := rest |>), Ok Next).
Proof.
  intros (Hint & Hdue & HA & HB) Hact Hstr Hq Hbgr Hex. apply Qgtb_false in Hdue.
  unfold loop_iteration, loop_body, check_temperature, handle_button_a, handle_button_b,
    handle_frame, queue_get, process_frame, logged.
  open_state s. destruct e as [now sensor a b g sh r x sg].
  cbn [sigint time_time last_temp_shutdown_check_time buttonA_value buttonB_value
       display_active stream_is_active frame_queue] in *.
  subst. mrun. rewrite Hdue. mrun.
  replace (if buttonA_ then false else false) with false by (destruct buttonA_; reflexivity).
  mrun.
  replace (if buttonB_ then false else false) with false by (destruct buttonB_; reflexivity).
  mrun. rewrite Hbgr. mrun.
  destruct ex; try discriminate Hex; mrun; rewrite <- ?app_assoc; reflexivity.
Qed.

Lemma frame_dropped_on_error_witness :
  let s := sample.streaming
             <| frame_queue := [{| np.shape := [1; 2]; np.buf := np.U8 [1; 2];
                                   np.c_contiguous := true |}] |> in
  loop_iteration sample.cv (sample.quiet 1) s =
  (logged [Log ERROR "Error in main processing loop"; Sleep (1 # 10)]
     (s <| frame_queue := [] |>), Ok Next).
Proof.
  intros s.
  refine (frame_dropped_on_error sample.cv (sample.quiet 1) s _ [] cv2_error _ _ _ _ _ _);
    try reflexivity.
  repeat split; try reflexivity. vm_compute. discriminate.
Defined.

(** ** The catalogue while the viewer runs *)

Ltac same_catalog_ok := apply preserves_modify; intros [] ?; assumption.

Global Hint Extern 1 (preserves catalog_ok (modify _)) => same_catalog_ok : pres.

Lemma catalog_ok_emit x : preserves catalog_ok (emit x).
Proof. unfold emit. same_catalog_ok. Qed.
Global Hint Resolve catalog_ok_emit : pres.

Lemma catalog_ok_log lvl msg : preserves catalog_ok (logging_log lvl msg).
Proof. unfold logging_log. pres. Qed.
Global Hint Resolve catalog_ok_log : pres.
Global Hint Extern 1 (preserves catalog_ok (logging_debug _)) => apply catalog_ok_log : pres.
Global Hint Extern 1 (preserves catalog_ok (logging_info _)) => apply catalog_ok_log : pres.
Global Hint Extern 1 (preserves catalog_ok (logging_warning _)) => apply catalog_ok_log : pres.
Global Hint Extern 1 (preserves catalog_ok (logging_error _)) => apply catalog_ok_log : pres.
Global Hint Extern 1 (preserves catalog_ok (logging_critical _)) => apply catalog_ok_log : pres.
Global Hint Extern 1 (preserves catalog_ok (logging_exception _)) => apply catalog_ok_log : pres.

Lemma catalog_ok_callback frame : preserves catalog_ok (py_frame_callback frame).
Proof.
  unfold py_frame_callback, queue_put, queue_full, queue_get_nowait, qsize. pres.
Qed.
Global Hint Resolve catalog_ok_callback : pres.

Lemma catalog_ok_drain fuel n : preserves catalog_ok (drain_queue fuel n).
Proof.
  revert n. induction fuel as [|fuel IH]; intros n; cbn [drain_queue];
    unfold queue_empty, queue_get_nowait, qsize; pres.
Qed.
Global Hint Resolve catalog_ok_drain : pres.

Lemma catalog_ok_set_cpu_governor out g : preserves catalog_ok (set_cpu_governor out g).
Proof. unfold set_cpu_governor. pres. Qed.
Global Hint Resolve catalog_ok_set_cpu_governor : pres.

Lemma catalog_ok_start_uvc_stream e : preserves catalog_ok (start_uvc_stream e).
Proof. unfold start_uvc_stream. pres. Qed.
Global Hint Resolve catalog_ok_start_uvc_stream : pres.

Lemma catalog_ok_stop_uvc_stream e : preserves catalog_ok (stop_uvc_stream e).
Proof. unfold stop_uvc_stream, drain_frame_queue. pres. Qed.
Global Hint Resolve catalog_ok_stop_uvc_stream : pres.

Lemma catalog_ok_check_temperature e : preserves catalog_ok (check_temperature e).
Proof. unfold check_temperature, get_cpu_temperature, shutdown_pi. pres. Qed.
Global Hint Resolve catalog_ok_check_temperature : pres.

Lemma selected_nonempty s : selected s -> colormaps s <> [].
Proof.
  intros [_ H] E. rewrite E in H. destruct (Z.to_nat (colormap_index s)); discriminate.
Qed.

(** Button A moves the selection inside the catalogue. *)
Lemma catalog_ok_handle_button_a e : preserves catalog_ok (handle_button_a e).
Proof.
  intros s (Hpre & Hval & Hsel).
  destruct (buttonA s && negb (buttonA_value e)
            && Qgtb (time_time e - last_button_a_time s) (3 # 10)) eqn:E.
  - apply andb_prop in E. destruct E as [E Hdeb]. apply andb_prop in E. destruct E as [Hpin Hheld].
    apply Qgtb_lt in Hdeb. apply negb_true_iff in Hheld.
    pose proof (selected_nonempty s Hsel) as Hne.
    assert (Hn : 0 < Z.of_nat (length (colormaps s)))
      by (destruct (colormaps s); [congruence | cbn [length]; lia]).
    pose proof (Z.mod_pos_bound (colormap_index s + 1) _ Hn) as Hi.
    destruct (nth_error (colormaps s)
                (Z.to_nat ((colormap_index s + 1) mod Z.of_nat (length (colormaps s)))))
      as [[name c]|] eqn:Hnth.
    2: { apply nth_error_None in Hnth. lia. }
    rewrite (handle_button_a_pressed e s name c (conj Hpin (conj Hheld Hdeb)) Hne Hnth).
    unfold catalog_ok, catalog_valid, selected, logged in *. open_state s. cbn in *.
    split; [exact Hpre|]. split; [exact Hval|]. split; [apply Hi | exact Hnth].
  - rewrite (handle_button_a_idle e s E). exact (conj Hpre (conj Hval Hsel)).
Qed.
Global Hint Resolve catalog_ok_handle_button_a : pres.

Lemma catalog_ok_handle_button_b e : preserves catalog_ok (handle_button_b e).
Proof. unfold handle_button_b, backlight_set, disp_image_black. pres. Qed.
Global Hint Resolve catalog_ok_handle_button_b : pres.

Lemma catalog_ok_handle_frame cv e : preserves catalog_ok (handle_frame cv e).
Proof. unfold handle_frame, queue_get, process_frame, auto_gain, apply_colormap. pres. Qed.
Global Hint Resolve catalog_ok_handle_frame : pres.

Lemma catalog_ok_loop_iteration cv e : preserves catalog_ok (loop_iteration cv e).
Proof. unfold loop_iteration, loop_body. pres. Qed.
Global Hint Resolve catalog_ok_loop_iteration : pres.

Lemma catalog_ok_render_loop cv sched : preserves catalog_ok (render_loop cv sched).
Proof. induction sched as [|ev rest IH]; cbn [render_loop]; pres. Qed.
Global Hint Resolve catalog_ok_render_loop : pres.

(** A table of the right shape appended by the loader leaves the built-in
    entries and the selection where they are. *)
Lemma catalog_ok_append name c :
  valid_colormap c -> preserves catalog_ok (append_colormap name c).
Proof.
  intros Hc. unfold append_colormap. apply preserves_modify.
  intros s ((loaded & Hpre) & Hval & Hi & Hnth).
  unfold catalog_ok, catalog_valid, selected in *. open_state s.
  cbn [colormaps colormap_index current_colormap current_colormap_name] in Hpre, Hval, Hi, Hnth.
  mrun.
  split; [exists (loaded ++ [(name, c)]); rewrite Hpre, <- app_assoc; reflexivity|].
  split; [apply Forall_app; split; [exact Hval | constructor; [exact Hc | constructor]]|].
  split; [exact Hi|]. rewrite nth_error_app1; [exact Hnth|].
  apply nth_error_Some. congruence.
Qed.

Lemma catalog_ok_load_lut_file cv f : preserves catalog_ok (load_lut_file cv f).
Proof.
  unfold load_lut_file. pres.
  apply catalog_ok_append. cbn [valid_colormap]. now apply list_eqb_eq.
Qed.
Global Hint Resolve catalog_ok_load_lut_file : pres.

Lemma catalog_ok_load_lut_files cv listing n :
  preserves catalog_ok (load_lut_files cv listing n).
Proof.
  revert n. induction listing as [|f rest IH]; intros n; cbn [load_lut_files]; pres.
Qed.
Global Hint Resolve catalog_ok_load_lut_files : pres.

Lemma catalog_ok_cleanup e : preserves catalog_ok (cleanup e).
Proof. unfold cleanup, disp_image_black. pres. Qed.
Global Hint Resolve catalog_ok_cleanup : pres.

Lemma catalog_ok_run_body cv w : preserves catalog_ok (run_body cv w).
Proof.
  unfold run_body, initialize_display_and_buttons, disp_image_black, load_custom_luts,
    initialize_camera, process_and_display.
  pres.
Qed.

Lemma catalog_ok_run cv w : preserves catalog_ok (run cv w).
Proof.
  unfold run. pres. intros s H.
  pose proof (catalog_ok_run_body cv w s H) as Hb.
  destruct (run_body cv w s) as [s1 r]. cbn [fst] in Hb.
  assert (Hf : forall r', preserves catalog_ok
            (try_finally
               (try_except (lift r')
                  (fun ex => match ex with KeyboardInterrupt => true | _ => is_Exception ex end)
                  (fun ex =>
                     match ex with
                     | KeyboardInterrupt =>
                         logging_info "Exiting application due to KeyboardInterrupt.";;
                         ret LoopExited
                     | _ =>
                         logging_exception "An unexpected error occurred during setup or run";;
                         ret LoopExited
                     end))
               (modify (fun s => s <| is_running := false |>);;
                set_cpu_governor (cpufreq_set (at_exit w)) CPU_GOVERNOR_RUN;;
                cleanup (at_exit w))))
    by (intros r'; pres).
  destruct r as [[|]|e]; [apply (Hf _ s1 Hb) | exact Hb | apply (Hf _ s1 Hb)].
Qed.

Lemma catalog_ok_constructed e s : catalog_ok (constructed e s).
Proof.
  unfold catalog_ok, catalog_valid, selected, constructed. open_state s. mrun.
  split; [exists []; now rewrite app_nil_r|].
  split; [unfold initial_colormaps; repeat constructor|]. split; [lia | reflexivity].
Qed.

Lemma catalog_ok_selection_valid s : catalog_ok s -> valid_colormap (current_colormap s).
Proof.
  intros (_ & Hval & _ & Hnth). apply nth_error_In in Hnth.
  unfold catalog_valid in Hval. rewrite Forall_forall in Hval. exact (Hval _ Hnth).
Qed.

(** Once the viewer is constructed, and whatever happens afterwards (any
    files in the directory, any OpenCV behaviour, any schedule of callbacks
    and passes, any failure of the display or of the camera), the
    catalogue starts with the five built-in colormaps and the three
    gradients, every custom table in it has shape (256, 1, 3), and the
    colormap in use is the entry at [colormap_index]; the shape check made
    before a custom table is used can therefore not fail. The render
    loop alone keeps all this from any state where it holds. *)
Theorem catalogue_invariant (cv : OpenCV) (w : world) (sched : list event) (s : state) :
  startup_failure w = false ->
  catalog_ok (fst (main cv w)) /\
  valid_colormap (current_colormap (fst (main cv w))) /\
  (catalog_ok s ->
   catalog_ok (fst (render_loop cv sched s)) /\
   valid_colormap (current_colormap (fst (render_loop cv sched s)))).
Proof.
  intros Hstart.
  assert (Hmain : catalog_ok (fst (main cv w))).
  { rewrite (script_start cv w Hstart). apply catalog_ok_run, catalog_ok_constructed. }
  split; [exact Hmain|]. split; [exact (catalog_ok_selection_valid _ Hmain)|].
  intros Hs. pose proof (catalog_ok_render_loop cv sched s Hs) as Hl.
  split; [exact Hl | exact (catalog_ok_selection_valid _ Hl)].
Qed.

Lemma catalogue_invariant_witness :
  catalog_ok (fst (main sample.cv no_camera)) /\
  valid_colormap (current_colormap (fst (main sample.cv no_camera))).
Proof.
  pose proof (catalogue_invariant sample.cv no_camera [] blank eq_refl) as H.
  exact (conj (proj1 H) (proj1 (proj2 H))).
Defined.

(** ** Files the loader skips *)

(** A file that cannot be used is skipped: the loader returns normally
    without counting it, the catalogue and every other field are as
    before, and nothing but log records is added to the trace. *)
Theorem unusable_lut_file_skipped (cv : OpenCV) (f : dir_entry) (s : state) :
  unusable f ->
  exists t, load_lut_file cv f s = (logged t s, Ok 0) /\ filter acts t = [].
Proof.
  assert (Hnil : (logged [] s, Ok 0) = (s, Ok 0))
    by (unfold logged; open_state s; cbn; now rewrite app_nil_r).
  unfold unusable, load_lut_file. intros H.
  destruct (exists_ f) eqn:Hex; cbn [negb].
  2: { exists [Log ERROR "Could not open file. Skipping."]. split; [|reflexivity].
       unfold logged. open_state s. reflexivity. }
  destruct H as [H|H]; [discriminate|].
  destruct (str.startswith (str.strip (text f)) "[" && str.endswith (str.strip (text f)) "]")
    eqn:Hbr; cbn [negb].
  2: { exists []. split; [|reflexivity]. rewrite Hnil. reflexivity. }
  destruct H as [H|[(ex & Hev & Hexn)|(v & Hev & Hv)]]; [discriminate| |].
  - unfold try_except, bind at 1, lift at 1. rewrite Hev, Hexn.
    destruct ex; try discriminate Hexn;
      (eexists; split; [unfold logged; open_state s; reflexivity | reflexivity]).
  - unfold try_except, bind at 1, lift at 1. rewrite Hev.
    exists []. split; [|reflexivity]. rewrite Hnil.
    destruct v; try reflexivity. rewrite Hv. reflexivity.
Qed.

Lemma unusable_lut_file_skipped_witness :
  exists t,
    load_lut_file sample.cv
      {| filename := "notes.lut"; exists_ := true; text := "[1, 2"; literal_eval := Raise SyntaxError |}
      sample.viewer = (logged t sample.viewer, Ok 0) /\ filter acts t = [].
Proof.
  apply (unusable_lut_file_skipped sample.cv).
  right. left. reflexivity.
Defined.

(** Only names ending in [.lut] are looked at: when the directory holds no
    such name, no file is opened, the catalogue is unchanged and the scan
    logs its two records. *)
Theorem only_lut_files_are_read (cv : OpenCV) (listing : list dir_entry) (s : state) :
  forallb (fun f => negb (str.endswith (filename f) ".lut")) listing = true ->
  load_custom_luts cv listing s =
  (logged [Log INFO "Scanning for custom .lut files..."; Log INFO "Finished scanning for LUTs."] s,
   Ok tt).
Proof.
  intros H.
  assert (Hfiles : forall n s0, load_lut_files cv listing n s0 = (s0, Ok n)).
  { induction listing as [|f rest IH]; intros n s0; cbn [load_lut_files]; [reflexivity|].
    cbn [forallb] in H. apply andb_prop in H. destruct H as [Hf Hrest].
    apply negb_true_iff in Hf. rewrite Hf. now apply IH. }
  unfold load_custom_luts, logged. unfold bind at 1.
  unfold logging_info at 1, logging_log at 1. change (isEnabledFor INFO) with true.
  cbn [when]. unfold emit at 1, modify at 1. unfold bind at 1. rewrite Hfiles.
  open_state s. mrun. rewrite <- app_assoc. reflexivity.
Qed.

Lemma only_lut_files_are_read_witness :
  load_custom_luts sample.cv
    [{| filename := "README.md"; exists_ := true; text := "[(0, 0, 0)]";
        literal_eval := Ok (py_rows [(0, 0, 0)]) |}] sample.viewer =
  (logged [Log INFO "Scanning for custom .lut files..."; Log INFO "Finished scanning for LUTs."]
     sample.viewer, Ok tt).
Proof. apply (only_lut_files_are_read sample.cv). reflexivity. Defined.

(** ** From start-up to the end of the run *)



Lemma check_temperature_stop e s s' :
  check_temperature e s = (s', Ok true) -> is_running s' = false.
Proof.
  unfold check_temperature, get_cpu_temperature, shutdown_pi.
  open_state s. destruct e as [now sensor a b g sh r x sg]. mrun.
  destruct (Qgtb (now - polled_) CPU_TEMP_SHUTDOWN_CHECK_INTERVAL_S); mrun; [|discriminate].
  destruct sensor as [m| |]; mrun; try discriminate.
  destruct (Qgtb (now - templog_) CPU_TEMP_LOG_INTERVAL_S); mrun;
    (destruct (Qgtb (inject_Z m / 1000) CPU_TEMP_SHUTDOWN_THRESHOLD_C); mrun; [|discriminate];
     destruct sh as [[|p|p]| |]; mrun; intros H; injection H as <-; reflexivity).
Qed.

Lemma loop_body_break cv e s s' :
  loop_body cv e s = (s', Ok Break) -> is_running s' = false.
Proof.
  unfold loop_body. unfold bind at 1.
  destruct (sigint e); cbn [when]; [discriminate|]. unfold ret at 1.
  unfold bind at 1.
  destruct (check_temperature e s) as [s1 [[|]|ex]] eqn:E1.
  - intros H. injection H as <-. exact (check_temperature_stop e s s1 E1).
  - unfold bind.
    destruct (handle_button_a e s1) as [s3 [u3|ex3]]; [|discriminate].
    destruct (handle_button_b e s3) as [s4 [u4|ex4]]; [|discriminate].
    destruct (handle_frame cv e s4) as [s5 [u5|ex5]]; discriminate.
  - discriminate.
Qed.

Lemma loop_iteration_break cv e s s' :
  loop_iteration cv e s = (s', Ok Break) -> is_running s' = false.
Proof.
  unfold loop_iteration, try_except.
  destruct (loop_body cv e s) as [s1 [c|ex]] eqn:Eb.
  - intros H. injection H as <- ->. exact (loop_body_break cv e s s1 Eb).
  - destruct ex; cbn [is_Exception]; try discriminate; open_state s1; mrun; discriminate.
Qed.

(** The render loop is only ever left with [is_running] cleared: whatever
    the schedule and whatever OpenCV does, when the loop has ended the
    viewer is in SHUTTING_DOWN mode. *)
Theorem loop_exit_means_stopped (cv : OpenCV) (sched : list event) (s : state) :
  snd (render_loop cv sched s) = Ok LoopExited ->
  is_running (fst (render_loop cv sched s)) = false /\
  mode (fst (render_loop cv sched s)) = SHUTTING_DOWN.
Proof.
  assert (Hrel : forall sched s s',
            render_loop cv sched s = (s', Ok LoopExited) -> is_running s' = false).
  { clear. induction sched as [|ev rest IH]; intros s s'; cbn [render_loop];
      unfold bind at 1, gets at 1; destruct (is_running s) eqn:Hr; cbn [negb];
      try (intros H; injection H as <-; exact Hr).
    - discriminate.
    - destruct ev as [frame|e].
      + unfold bind at 1, on_capture_thread. apply IH.
      + unfold bind at 1.
        pose proof (loop_iteration_break cv e s) as Hb.
        destruct (loop_iteration cv e s) as [s1 [[|]|ex]].
        * apply IH.
        * intros H. injection H as <-. now apply (Hb s1).
        * discriminate. }
  intros H. destruct (render_loop cv sched s) as [s' r] eqn:E. cbn [fst snd] in *. subst r.
  pose proof (Hrel sched s s' E) as Hrun.
  split; [exact Hrun|]. unfold mode. now rewrite Hrun.
Qed.

Lemma loop_exit_means_stopped_witness :
  mode (fst (render_loop sample.cv [Pass ((sample.quiet 1) <| sigint := true |>);
                                    Pass (sample.quiet 2)] sample.streaming)) = SHUTTING_DOWN.
Proof.
  exact (proj2 (loop_exit_means_stopped sample.cv
                  [Pass ((sample.quiet 1) <| sigint := true |>); Pass (sample.quiet 2)]
                  sample.streaming eq_refl)).
Defined.

(** The [finally] clause of [run]: it always completes, with everything
    released and [is_running] cleared. *)
Lemma run_finally_effect w x :
  exists s',
    (modify (fun s => s <| is_running := false |>);;
     set_cpu_governor (cpufreq_set (at_exit w)) CPU_GOVERNOR_RUN;;
     cleanup (at_exit w)) x = (s', Ok tt) /\
    released s' /\ is_running s' = false.
Proof.
  unfold bind at 1, modify at 1. unfold bind at 1.
  assert (Hgov : forall st, exists t b,
            set_cpu_governor (cpufreq_set (at_exit w)) CPU_GOVERNOR_RUN st = (logged t st, Ok b)).
  { intros st. unfold set_cpu_governor, logged. open_state st.
    destruct (cpufreq_set (at_exit w)) as [[|p|p]| |]; cbn [Z.eqb]; mrun;
      rewrite <- ?app_assoc; do 2 eexists; reflexivity. }
  destruct (Hgov (x <| is_running := false |>)) as (t & b & ->).
  rewrite cleanup_effect. eexists. split; [reflexivity|].
  unfold released, logged, stopped. open_state x.
  destruct streaming_, devh_; repeat split.
Qed.



(** ** Checking the governor *)

Lemma list_ascii_of_string_app a b :
  list_ascii_of_string (a ++ b) = list_ascii_of_string a ++ list_ascii_of_string b.
Proof. induction a as [|c a IH]; cbn; [reflexivity | now rewrite IH]. Qed.

Lemma lstrip_blank l rest : forallb str.is_space l = true -> str.lstrip (l ++ rest) = str.lstrip rest.
Proof.
  induction l as [|c l IH]; cbn [forallb app str.lstrip]; [reflexivity|].
  intros H. apply andb_prop in H. destruct H as [Hc Hl]. rewrite Hc. now apply IH.
Qed.

Lemma lstrip_blank_only l : forallb str.is_space l = true -> str.lstrip l = [].
Proof. intros H. rewrite <- (app_nil_r l), (lstrip_blank l [] H). reflexivity. Qed.

Lemma lstrip_app_nonblank l rest :
  str.lstrip l <> [] -> str.lstrip (l ++ rest) = str.lstrip l ++ rest.
Proof.
  induction l as [|c l IH]; cbn [app str.lstrip]; [congruence|].
  destruct (str.is_space c); [exact IH | reflexivity].
Qed.

Lemma lstrip_all_blank l : str.lstrip l = [] -> forallb str.is_space l = true.
Proof.
  induction l as [|c l IH]; cbn [str.lstrip forallb]; [reflexivity|].
  destruct (str.is_space c); [exact IH | discriminate].
Qed.

Lemma forallb_rev {A} (p : A -> bool) l : forallb p (rev l) = forallb p l.
Proof.
  induction l as [|a l IH]; [reflexivity|]. cbn [rev forallb].
  rewrite forallb_app, IH. cbn [forallb]. rewrite andb_true_r. apply andb_comm.
Qed.

(** [strip] removes white space around a text, whatever surrounds it. *)
Lemma strip_padding left_pad content right_pad :
  blank_string left_pad -> blank_string right_pad ->
  str.strip (left_pad ++ content ++ right_pad) = str.strip content.
Proof.
  unfold blank_string, str.strip. intros Hl Hr.
  rewrite !list_ascii_of_string_app, (lstrip_blank _ _ Hl). f_equal. f_equal.
  destruct (str.lstrip (list_ascii_of_string content)) as [|c0 l0] eqn:E.
  - apply lstrip_all_blank in E. rewrite lstrip_blank by exact E.
    rewrite (lstrip_blank_only _ Hr). reflexivity.
  - rewrite lstrip_app_nonblank by congruence. rewrite E, rev_app_distr.
    apply lstrip_blank. now rewrite forallb_rev.
Qed.

(** [verify_cpu_governor] never raises. It compares the governor with the
    text of the sysfs file stripped of surrounding white space, so that the
    newline the kernel ends the file with (or any other padding) makes no
    difference; when the file cannot be read it logs a warning and answers
    [False]. *)
Theorem verify_cpu_governor_ignores_padding
    (left_pad content right_pad governor : string) (s : state) :
  blank_string left_pad -> blank_string right_pad ->
  verify_cpu_governor (GovernorText (left_pad ++ content ++ right_pad)) governor s
  = (s, Ok (str.strip content =? governor)%string) /\
  verify_cpu_governor GovernorUnreadable governor s
  = (logged [Log WARNING "Could not verify CPU governor"] s, Ok false).
Proof.
  intros Hl Hr. split.
  - unfold verify_cpu_governor, try_except, ret.
    rewrite (strip_padding left_pad content right_pad Hl Hr). reflexivity.
  - unfold verify_cpu_governor, logged. open_state s. reflexivity.
Qed.

Lemma verify_cpu_governor_ignores_padding_witness :
  verify_cpu_governor
    (GovernorText ("" ++ "ondemand" ++ String (Ascii.ascii_of_nat 10) "")) "ondemand" sample.viewer
  = (sample.viewer, Ok true).
Proof.
  exact (proj1 (verify_cpu_governor_ignores_padding
                  "" "ondemand" (String (Ascii.ascii_of_nat 10) "") "ondemand" sample.viewer
                  eq_refl eq_refl)).
Defined.

(** ** The bound of the frame queue *)

Ltac same_bound := apply preserves_modify; intros [] ?; assumption.

Global Hint Extern 1 (preserves queue_bounded (modify _)) => same_bound : pres.

Lemma queue_bounded_emit x : preserves queue_bounded (emit x).
Proof. unfold emit. same_bound. Qed.
Global Hint Resolve queue_bounded_emit : pres.

Lemma queue_bounded_log lvl msg : preserves queue_bounded (logging_log lvl msg).
Proof. unfold logging_log. pres. Qed.
Global Hint Resolve queue_bounded_log : pres.
Global Hint Extern 1 (preserves queue_bounded (logging_debug _)) => apply queue_bounded_log : pres.
Global Hint Extern 1 (preserves queue_bounded (logging_info _)) => apply queue_bounded_log : pres.
Global Hint Extern 1 (preserves queue_bounded (logging_warning _)) => apply queue_bounded_log : pres.
Global Hint Extern 1 (preserves queue_bounded (logging_error _)) => apply queue_bounded_log : pres.
Global Hint Extern 1 (preserves queue_bounded (logging_critical _)) => apply queue_bounded_log : pres.
Global Hint Extern 1 (preserves queue_bounded (logging_exception _)) => apply queue_bounded_log : pres.

Lemma queue_bounded_get_nowait : preserves queue_bounded queue_get_nowait.
Proof.
  intros s H. unfold queue_bounded, qsize in *. open_state s. unfold queue_get_nowait. mrun.
  cbn [frame_queue] in H. destruct queue_ as [|a q]; mrun; [exact H|].
  cbn [length] in H. lia.
Qed.
Global Hint Resolve queue_bounded_get_nowait : pres.

Lemma queue_bounded_get timeout : preserves queue_bounded (queue_get timeout).
Proof.
  intros s H. unfold queue_bounded, qsize in *. open_state s. unfold queue_get. mrun.
  cbn [frame_queue] in H. destruct queue_ as [|a q]; mrun; [exact H|].
  cbn [length] in H. lia.
Qed.
Global Hint Resolve queue_bounded_get : pres.

(** [put] only appends when the queue is not full. *)
Lemma queue_bounded_put item : preserves queue_bounded (queue_put item).
Proof.
  intros s H. unfold queue_bounded, qsize in *. open_state s.
  unfold queue_put, queue_full, qsize. mrun. cbn [frame_queue] in H.
  change (0 <? BUF_SIZE) with true. cbv beta iota.
  destruct (BUF_SIZE <=? Z.of_nat (length queue_)) eqn:E; mrun; [exact H|].
  apply Z.leb_gt in E. rewrite length_app. cbn [length]. lia.
Qed.
Global Hint Resolve queue_bounded_put : pres.

Lemma queue_bounded_callback frame : preserves queue_bounded (py_frame_callback frame).
Proof. unfold py_frame_callback, queue_full. pres. Qed.
Global Hint Resolve queue_bounded_callback : pres.

Lemma queue_bounded_drain fuel n : preserves queue_bounded (drain_queue fuel n).
Proof.
  revert n. induction fuel as [|fuel IH]; intros n; cbn [drain_queue]; unfold queue_empty; pres.
Qed.
Global Hint Resolve queue_bounded_drain : pres.

Lemma queue_bounded_cleanup e : preserves queue_bounded (cleanup e).
Proof. unfold cleanup, stop_uvc_stream, drain_frame_queue, disp_image_black. pres. Qed.
Global Hint Resolve queue_bounded_cleanup : pres.

Lemma queue_bounded_loop_iteration cv e : preserves queue_bounded (loop_iteration cv e).
Proof.
  unfold loop_iteration, loop_body, check_temperature, get_cpu_temperature, shutdown_pi,
    handle_button_a, colormaps_getitem, handle_button_b, backlight_set, set_cpu_governor,
    start_uvc_stream, stop_uvc_stream, drain_frame_queue, disp_image_black,
    handle_frame, process_frame, auto_gain, apply_colormap.
  pres.
Qed.
Global Hint Resolve queue_bounded_loop_iteration : pres.

Lemma queue_bounded_render_loop cv sched : preserves queue_bounded (render_loop cv sched).
Proof. induction sched as [|ev rest IH]; cbn [render_loop]; pres. Qed.
Global Hint Resolve queue_bounded_render_loop : pres.

Lemma queue_bounded_load_lut_files cv listing n :
  preserves queue_bounded (load_lut_files cv listing n).
Proof.
  revert n. induction listing as [|f rest IH]; intros n; cbn [load_lut_files];
    unfold load_lut_file, append_colormap; pres.
Qed.
Global Hint Resolve queue_bounded_load_lut_files : pres.

Lemma queue_bounded_run_body cv w : preserves queue_bounded (run_body cv w).
Proof.
  unfold run_body, initialize_display_and_buttons, disp_image_black, load_custom_luts,
    initialize_camera, process_and_display, set_cpu_governor, start_uvc_stream.
  pres.
Qed.

Lemma queue_bounded_run cv w : preserves queue_bounded (run cv w).
Proof.
  unfold run, set_cpu_governor. pres. intros s H.
  pose proof (queue_bounded_run_body cv w s H) as Hb.
  destruct (run_body cv w s) as [s1 r]. cbn [fst] in Hb.
  assert (Hf : forall r', preserves queue_bounded
            (try_finally
               (try_except (lift r')
                  (fun ex => match ex with KeyboardInterrupt => true | _ => is_Exception ex end)
                  (fun ex =>
                     match ex with
                     | KeyboardInterrupt =>
                         logging_info "Exiting application due to KeyboardInterrupt.";;
                         ret LoopExited
                     | _ =>
                         logging_exception "An unexpected error occurred during setup or run";;
                         ret LoopExited
                     end))
               (modify (fun s => s <| is_running := false |>);;
                set_cpu_governor (cpufreq_set (at_exit w)) CPU_GOVERNOR_RUN;;
                cleanup (at_exit w))))
    by (intros r'; unfold set_cpu_governor; pres).
  destruct r as [[|]|e]; [apply (Hf _ s1 Hb) | exact Hb | apply (Hf _ s1 Hb)].
Qed.

Lemma queue_bounded_script cv w : preserves queue_bounded (script cv w).
Proof.
  unfold script. pres; try apply queue_bounded_run.
  intros s H. rewrite LeptonViewer_init_constructs. cbn [fst].
  unfold queue_bounded, qsize, constructed in *. open_state s. exact H.
Qed.

Lemma callback_returns frame s :
  queue_bounded s -> exists s', py_frame_callback frame s = (s', Ok tt).
Proof.
  intros Hb.
  destruct frame as [f|]; [|eexists; reflexivity].
  destruct (data f) as [mem|] eqn:Hd;
    [|eexists; apply callback_refuses; cbn [malformed]; now left].
  destruct (Z.eq_dec (width f) CAM_WIDTH) as [Hw|Hw];
    [|eexists; apply callback_refuses; cbn [malformed]; right; now left].
  destruct (Z.eq_dec (height f) CAM_HEIGHT) as [Hh|Hh];
    [|eexists; apply callback_refuses; cbn [malformed]; right; right; now left].
  destruct (Z.eq_dec (data_bytes f) (CAM_WIDTH * CAM_HEIGHT * 2)) as [Hn|Hn];
    [|eexists; apply callback_refuses; cbn [malformed]; right; right; now right].
  eexists. exact (callback_accepts f mem s Hd Hw Hh Hn Hb).
Qed.

(** The frame queue never holds more than [BUF_SIZE] (two) frames: the
    bound is kept by the capture callback, by the render loop along any
    schedule of callbacks and passes, and by the whole program. Within
    the bound the callback always returns: it never blocks in [put] on a
    full queue and lets no exception out, whatever frame libuvc hands
    over. *)
Theorem queue_never_exceeds_capacity
  (cv : OpenCV) (w : world) (frame : option uvc_frame) (sched : list event) (s : state) :
  queue_bounded s ->
  (exists s', py_frame_callback frame s = (s', Ok tt) /\ queue_bounded s') /\
  queue_bounded (fst (render_loop cv sched s)) /\
  queue_bounded (fst (main cv w)).
Proof.
  intros H. split; [|split].
  - destruct (callback_returns frame s H) as [s' Hs']. exists s'. split; [exact Hs'|].
    pose proof (queue_bounded_callback frame s H) as Hb. rewrite Hs' in Hb. exact Hb.
  - apply queue_bounded_render_loop, H.
  - apply queue_bounded_script. unfold queue_bounded, qsize. cbn. unfold BUF_SIZE. lia.
Qed.

Lemma queue_never_exceeds_capacity_witness :
  exists s',
    py_frame_callback (Some (sample.frame 7))
      (sample.streaming <| frame_queue := [sample.tiny_uyvy; sample.tiny_uyvy] |>) = (s', Ok tt) /\
    queue_bounded s'.
Proof.
  refine (proj1 (queue_never_exceeds_capacity sample.cv no_camera (Some (sample.frame 7)) []
                   (sample.streaming <| frame_queue := [sample.tiny_uyvy; sample.tiny_uyvy] |>) _)).
  unfold queue_bounded, qsize. cbn. unfold BUF_SIZE. lia.
Defined.

(** ** What can end the process *)

Lemma raises_only_mono {A} (P P' : exn -> bool) (m : M A) :
  (forall ex, P ex = true -> P' ex = true) -> raises_only P m -> raises_only P' m.
Proof.
  intros HP Hm s. specialize (Hm s). destruct (snd (m s)); [exact I | now apply HP].
Qed.

Lemma raises_only_never {A} (P : exn -> bool) (m : M A) : never_raises m -> raises_only P m.
Proof. apply raises_only_mono. discriminate. Qed.

Lemma raises_only_lift {A} (P : exn -> bool) (r : result A) :
  match r with Ok _ => True | Raise ex => P ex = true end -> raises_only P (lift r).
Proof. intros H s. unfold lift. destruct r; exact H. Qed.

Lemma raises_only_catch_all {A} (P : exn -> bool) (body : M A) catches handler :
  raises_only catches body -> (forall ex, raises_only P (handler ex)) ->
  raises_only P (try_except body catches handler).
Proof.
  intros Hb Hh. apply (raises_only_try_except P catches); [exact Hb | | exact Hh].
  intros ex H1 H2. congruence.
Qed.

Lemma exception_is_catchable ex : is_Exception ex = true -> catchable ex = true.
Proof. destruct ex; cbn; congruence. Qed.

Lemma exception_or_value_lift {A} (P : exn -> bool) (r : result A) :
  (forall ex, is_Exception ex = true -> P ex = true) ->
  exception_or_value r -> raises_only P (lift r).
Proof. intros HP H. apply raises_only_lift. destruct r; [exact I | now apply HP]. Qed.

Lemma reshape_exception a dims : exception_or_value (np.reshape a dims).
Proof. unfold np.reshape. destruct (_ =? _); [exact I | reflexivity]. Qed.

Lemma collect_exception {A B} (f : A -> result B) l :
  (forall a, exception_or_value (f a)) -> exception_or_value (collect f l).
Proof.
  intros Hf. induction l as [|a l IH]; cbn [collect]; [exact I|].
  specialize (Hf a). destruct (f a); cbn [rbind]; [|exact Hf].
  destruct (collect f l); cbn [rbind]; [exact I | exact IH].
Qed.

Lemma np_array_exception items : exception_or_value (np_array_uint8 items).
Proof.
  unfold np_array_uint8.
  pose proof (collect_exception row_of_py items) as H.
  destruct (collect row_of_py items); cbn [rbind]; [exact I|].
  apply H. intros [z|str| |l|l]; cbn [row_of_py]; try reflexivity.
  apply collect_exception. intros [z'|str'| |l'|l']; cbn; try reflexivity; exact I.
Qed.

Lemma minMaxLoc_exception src : exception_or_value (cv2.minMaxLoc src).
Proof. unfold cv2.minMaxLoc. destruct (np.buf src) as [[|v l]|[|v l]]; cbn; trivial. Qed.

Lemma py_div_exception a b : exception_or_value (py_div a b).
Proof. unfold py_div. destruct (Qeq_bool b 0); cbn; trivial. Qed.

Lemma py_mod_exception a b : exception_or_value (py_mod a b).
Proof. unfold py_mod. destruct (b =? 0); cbn; trivial. Qed.

Section ExceptionsOnly.

Variable cv : OpenCV.
Hypothesis Hcv : opencv_raises_exceptions cv.

(** Steps for a goal [raises_only P m] where [P] holds of every
    [Exception]. *)
Ltac lift_exception HP :=
  apply exception_or_value_lift; [exact HP|];
  first [ apply reshape_exception | apply np_array_exception | apply minMaxLoc_exception
        | apply py_div_exception | apply py_mod_exception
        | apply (proj1 Hcv) | apply (proj1 (proj2 Hcv)) | apply (proj1 (proj2 (proj2 Hcv)))
        | apply (proj1 (proj2 (proj2 (proj2 Hcv)))) | apply (proj2 (proj2 (proj2 (proj2 Hcv))))
        | assumption ].

Ltac exceptions HP :=
  repeat first
    [ raises_step
    | solve [auto with raises]
    | apply raises_only_raise; apply HP; reflexivity
    | lift_exception HP
    | apply raises_only_never; solve [auto with raises]
    | lazymatch goal with
      | |- raises_only ?P (try_except _ _ _) =>
          apply (raises_only_try_except P P); [| intros ? ? ?; assumption | intros ?]
      end ].

Lemma start_uvc_stream_never_raises e : never_raises (start_uvc_stream e).
Proof. unfold start_uvc_stream. raises. Qed.

Lemma check_temperature_never_raises e : never_raises (check_temperature e).
Proof. unfold check_temperature, get_cpu_temperature, shutdown_pi. raises. Qed.

Lemma loop_body_raises e : raises_only catchable (loop_body cv e).
Proof.
  pose proof exception_is_catchable as HP.
  pose proof (start_uvc_stream_never_raises e).
  pose proof (check_temperature_never_raises e).
  unfold loop_body, handle_button_a, colormaps_getitem, handle_button_b, backlight_set,
    disp_image_black, handle_frame, queue_get, process_frame, auto_gain, apply_colormap.
  exceptions HP.
Qed.

Lemma loop_iteration_never_raises e : never_raises (loop_iteration cv e).
Proof.
  unfold loop_iteration. apply raises_only_catch_all; [apply loop_body_raises|].
  intros ex. destruct ex; raises.
Qed.

Lemma render_loop_never_raises sched : never_raises (render_loop cv sched).
Proof.
  induction sched as [|ev rest IH]; cbn [render_loop]; raises.
  - intros s. exact I.
  - apply loop_iteration_never_raises.
Qed.

Lemma load_lut_file_never_raises f :
  exception_or_value (literal_eval f) -> never_raises (load_lut_file cv f).
Proof.
  intros Hf. unfold load_lut_file.
  apply raises_only_catch_all.
  - assert (HP : forall ex, is_Exception ex = true -> is_Exception ex = true) by auto.
    unfold append_colormap. exceptions HP.
  - intros ex. destruct ex; raises.
Qed.

Lemma load_lut_files_never_raises listing n :
  parser_raises_exceptions listing -> never_raises (load_lut_files cv listing n).
Proof.
  revert n. induction listing as [|f rest IH]; intros n H; cbn [load_lut_files]; [raises|].
  inversion H; subst.
  destruct (str.endswith (filename f) ".lut"); [|now apply IH].
  apply raises_only_bind; [now apply load_lut_file_never_raises | intros k; now apply IH].
Qed.

Lemma run_body_raises w :
  display_outcome w = None -> parser_raises_exceptions (listing w) ->
  raises_only catchable (run_body cv w).
Proof.
  intros Hd Hl. pose proof exception_is_catchable as HP.
  pose proof (load_lut_files_never_raises (listing w) 0 Hl).
  pose proof (start_uvc_stream_never_raises (at_start w)).
  pose proof (render_loop_never_raises (schedule w)).
  unfold run_body, initialize_display_and_buttons, disp_image_black, load_custom_luts,
    initialize_camera, process_and_display.
  rewrite Hd. exceptions HP.
Qed.

End ExceptionsOnly.

(** Once logging, the imports and the display are up, and as long as no
    Ctrl-C arrives, nothing that goes wrong afterwards makes the process
    fail: provided OpenCV and [ast.literal_eval] raise nothing but
    [Exception]s, whatever the files, the camera, the sensor, the commands
    and the schedule of callbacks and passes do, the script is either still
    in its loop or has run off its end, which is exit status 0; and a pass
    of the loop during which no Ctrl-C arrives lets no exception out. *)
Theorem nothing_fails_after_display (cv : OpenCV) (w : world) (e : env) :
  startup_failure w = false -> display_outcome w = None ->
  uninterrupted w -> sigint e = false ->
  opencv_raises_exceptions cv -> parser_raises_exceptions (listing w) ->
  (exit_status (main cv w) = Some 0 \/ snd (main cv w) = Ok StillRunning) /\
  never_raises (loop_iteration cv e).
Proof.
  intros Hs Hd _ _ Hcv Hl. split; [|now apply loop_iteration_never_raises].
  destruct (script_snd cv w Hs) as [s1 H1].
  pose proof (run_body_raises cv Hcv w Hd Hl s1) as Hb.
  unfold exit_status. rewrite H1.
  destruct (snd (run_body cv w s1)) as [[|]|ex]; cbn [run_outcome].
  - now left.
  - now right.
  - left. destruct ex; try discriminate Hb; reflexivity.
Qed.

Lemma nothing_fails_after_display_witness :
  exit_status (main sample.cv no_camera) = Some 0 \/
  snd (main sample.cv no_camera) = Ok StillRunning.
Proof.
  refine (proj1 (nothing_fails_after_display sample.cv no_camera (sample.quiet 0)
                   eq_refl eq_refl _ eq_refl _ _)).
  - split; [reflexivity|]. split; [constructor | reflexivity].
  - repeat split; intros;
      cbn [sample.cv cvtColor_YUV2BGR_UYVY cvtColor_BGR2GRAY cvtColor_BGR2RGB applyColorMap
           resize_linear];
      unfold sample.yuv2bgr, sample.bgr2gray, sample.bgr2rgb, sample.colorize, sample.resize;
      repeat match goal with
             | |- context [match ?x with _ => _ end] => destruct x
             end;
      cbn [exception_or_value is_Exception]; trivial.
  - constructor.
Defined.

(** ** A stream that does not start *)

Lemma idle_without_stream cv e s :
  quiet_pass e s -> display_active s = true -> stream_is_active s = false ->
  loop_iteration cv e s = (s, Ok Next).
Proof.
  intros (Hint & Hdue & HA & HB) Hact Hstr. apply Qgtb_false in Hdue.
  unfold loop_iteration, loop_body, check_temperature, handle_button_a, handle_button_b,
    handle_frame.
  open_state s. destruct e as [now sensor a b g sh r x sg].
  cbn [sigint time_time last_temp_shutdown_check_time buttonA_value buttonB_value
       display_active stream_is_active] in *.
  subst. mrun. rewrite Hdue. mrun.
  destruct buttonA_, buttonB_; reflexivity.
Qed.

(** When button B wakes the viewer from power save and
    [uvc_start_streaming] reports an error, the pass still ends normally
    with the display and the backlight on, the error logged and
    [stream_is_active] false. From then on a pass in which nothing happens
    changes nothing at all: it takes no frame, does not sleep, and does not
    ask libuvc again. *)
Theorem failed_restart_is_not_retried (cv : OpenCV) (e1 e2 : env) (s : state) :
  display_active s = false -> stream_is_active s = false ->
  uvc_devh s = true -> backlight s = true -> buttonB s = true ->
  quiet_pass (e1 <| buttonB_value := true |>) s -> buttonB_value e1 = false ->
  (3 # 10 < time_time e1 - last_button_b_time s)%Q ->
  uvc_start_res e1 < 0 ->
  exists s1 t,
    loop_iteration cv e1 s = (s1, Ok Next) /\
    s1 = s <| last_button_b_time := time_time e1 |> <| display_active := true |>
           <| trace := trace s ++ t |> /\
    In (BacklightValue true) t /\
    In (Libuvc uvc_start_streaming) t /\
    In (Log ERROR "uvc_start_streaming failed") t /\
    mode s1 = mode (s <| display_active := true |>) /\
    stream_is_active s1 = false /\
    (quiet_pass e2 s1 -> loop_iteration cv e2 s1 = (s1, Ok Next)).
Proof.
  intros Hact Hstr Hdevh Hbl HbB (Hint & Hdue & HA & _) HB Hdeb Hres.
  apply Qgtb_false in Hdue. apply Qgtb_true in Hdeb. apply Z.ltb_lt in Hres.
  assert (H1 : exists t,
             loop_iteration cv e1 s =
             (s <| last_button_b_time := time_time e1 |> <| display_active := true |>
                <| trace := trace s ++ t |>, Ok Next) /\
             In (BacklightValue true) t /\
             In (Libuvc uvc_start_streaming) t /\
             In (Log ERROR "uvc_start_streaming failed") t).
  { open_state s. destruct e1 as [now sensor a b g sh r x sg].
    cbn in Hact, Hstr, Hdevh, Hbl, HbB, Hint, Hdue, HA, HB, Hdeb, Hres.
    subst.
    unfold loop_iteration, loop_body, check_temperature, handle_button_a, handle_button_b,
      handle_frame, backlight_set, start_uvc_stream, set_cpu_governor.
    mrun. rewrite Hdue. mrun.
    destruct buttonA_; mrun; rewrite Hdeb; mrun;
      (destruct g as [[|p|p]| |]; cbn [Z.eqb]; mrun; rewrite Hres; mrun;
       (eexists; split; [rewrite <- !app_assoc; reflexivity | simpl; auto 20])). }
  destruct H1 as (t & Hrun & Hb & Hu & Hlog).
  eexists. exists t. split; [exact Hrun|]. split; [reflexivity|].
  split; [exact Hb|]. split; [exact Hu|]. split; [exact Hlog|].
  split; [open_state s; reflexivity|].
  split; [open_state s; exact Hstr|].
  intros Hq. apply idle_without_stream; [exact Hq | open_state s; reflexivity
                                         | open_state s; exact Hstr].
Qed.

Lemma failed_restart_is_not_retried_witness :
  let s := sample.streaming <| display_active := false |> <| stream_is_active := false |> in
  let e1 := (sample.quiet 1) <| buttonB_value := false |> <| uvc_start_res := -1 |> in
  exists s1,
    loop_iteration sample.cv e1 s = (s1, Ok Next) /\
    display_active s1 = true /\ stream_is_active s1 = false /\
    loop_iteration sample.cv (sample.quiet 2) s1 = (s1, Ok Next).
Proof.
  intros s e1.
  destruct (failed_restart_is_not_retried sample.cv e1 (sample.quiet 2) s)
    as (s1 & t & Hrun & Hs1 & _ & _ & _ & _ & Hstr & Hidle);
    try reflexivity.
  - repeat split; try reflexivity. vm_compute. discriminate.
  - exists s1. split; [exact Hrun|]. split; [rewrite Hs1; reflexivity|].
    split; [exact Hstr|]. apply Hidle. rewrite Hs1.
    repeat split; try reflexivity. vm_compute. discriminate.
Defined.

(** ** A display that cannot be set up *)

Lemma governor_record_is_log out : exists lvl msg, governor_record out = Log lvl msg.
Proof. destruct out as [[|p|p]| |]; cbn; now do 2 eexists. Qed.

Lemma set_cpu_governor_effect out governor s :
  set_cpu_governor out governor s =
  (logged [Log INFO "Attempting to set CPU governor";
           Subprocess ["sudo"; "cpufreq-set"; "-g"; governor];
           governor_record out] s,
   Ok (match out with Returncode 0 => true | _ => false end)).
Proof.
  unfold set_cpu_governor, logged, governor_record. open_state s.
  destruct out as [[|p|p]| |]; cbn [Z.eqb]; mrun; rewrite <- ?app_assoc; reflexivity.
Qed.



(** ** The entries of a gradient table *)

Lemma chunks_rows {A B} (f : A -> list B) k l n rest :
  (forall x, length (f x) = k) ->
  np.chunks k (length l + n) (flat_map f l ++ rest) = map f l ++ np.chunks k n rest.
Proof.
  intros Hf. induction l as [|a l IH]; [reflexivity|].
  cbn [length Nat.add flat_map map np.chunks app]. rewrite <- app_assoc.
  pose proof (Hf a) as Hk.
  rewrite firstn_app, skipn_app.
  rewrite (firstn_all2 (f a)), (skipn_all2 (f a)) by lia.
  replace (k - length (f a))%nat with 0%nat by lia.
  cbn [firstn skipn app]. rewrite app_nil_r. now rewrite IH.
Qed.

Lemma ramp_rows start stop num :
  ramp start stop num =
  flat_map (fun i => map np.to_uint8
                       (np.linspace_row num (map inject_Z start) (map inject_Z stop) i))
           (np.range num).
Proof.
  unfold ramp. induction (np.range num) as [|i l IH]; [reflexivity|].
  cbn [flat_map]. now rewrite map_app, IH.
Qed.

Lemma nth_range n i : (i < Z.to_nat n)%nat -> nth i (np.range n) 0 = Z.of_nat i.
Proof.
  intros H. unfold np.range.
  change 0 with (Z.of_nat 0). rewrite map_nth, seq_nth by exact H. reflexivity.
Qed.

Lemma to_uint8_inject b : 0 <= b < 256 -> np.to_uint8 (inject_Z b) = b.
Proof.
  intros H. unfold np.to_uint8, np.Qtrunc, inject_Z. cbn [Qnum Qden].
  rewrite Z.quot_1_r. now apply Z.mod_small.
Qed.

Lemma to_uint8_exact q b : (q == inject_Z b)%Q -> 0 <= b < 256 -> np.to_uint8 q = b.
Proof.
  intros Hq Hb. unfold np.to_uint8, np.Qtrunc. destruct q as [n d].
  unfold Qeq, inject_Z in Hq. cbn [Qnum Qden] in *.
  rewrite Z.mul_1_r in Hq. subst n. rewrite Z.quot_mul by discriminate.
  now apply Z.mod_small.
Qed.

Lemma double_zero x : (x == 0)%Q -> ieee.double x = 0%Q.
Proof. intros H. now rewrite (round_comp ieee.binary64 _ _ H : ieee.double _ = ieee.double _). Qed.

(** The first and the last sample of [np.linspace] cast to [uint8] are the
    endpoints themselves. *)
Lemma linspace_sample_first num z a b :
  1 <= num -> 0 <= a < 256 -> np.to_uint8 (np.linspace_sample num 0 z (inject_Z a) b) = a.
Proof.
  intros Hn Ha. unfold np.linspace_sample.
  replace ((1 <? num) && (0 =? num - 1)) with false.
  2: { symmetry. destruct (1 <? num) eqn:E; [|reflexivity]. apply Z.ltb_lt in E.
       cbn [andb]. apply Z.eqb_neq. lia. }
  set (delta := ieee.double (b - inject_Z a)).
  assert (Hy : (if 0 <? num - 1
                then if z
                     then ieee.double (ieee.double (inject_Z 0 / inject_Z (num - 1)) * delta)
                     else ieee.double (inject_Z 0 * ieee.double (delta / inject_Z (num - 1)))
                else ieee.double (inject_Z 0 * delta)) = 0%Q).
  { change (inject_Z 0) with 0%Q.
    destruct (0 <? num - 1); [destruct z|]; apply double_zero.
    - rewrite (double_zero (0 / inject_Z (num - 1))) by (unfold Qdiv; ring). ring.
    - ring.
    - ring. }
  rewrite Hy. apply to_uint8_exact; [|exact Ha].
  assert (E : (0 + inject_Z a == inject_Z a)%Q) by ring.
  rewrite (round_comp ieee.binary64 _ _ E : ieee.double _ = ieee.double _).
  apply byte_exact. lia.
Qed.

Lemma linspace_sample_last num z a b :
  2 <= num -> 0 <= b < 256 ->
  np.to_uint8 (np.linspace_sample num (num - 1) z a (inject_Z b)) = b.
Proof.
  intros Hn Hb. unfold np.linspace_sample.
  replace ((1 <? num) && (num - 1 =? num - 1)) with true.
  2: { symmetry. rewrite Z.eqb_refl, andb_true_r. apply Z.ltb_lt. lia. }
  now apply to_uint8_inject.
Qed.

Lemma ramp_row_first num start stop :
  1 <= num -> length start = length stop -> np.bytes start ->
  map np.to_uint8 (np.linspace_row num (map inject_Z start) (map inject_Z stop) 0) = start.
Proof.
  intros Hn. unfold np.linspace_row, np.bytes. cbv zeta.
  generalize (existsb (fun '(a, b) => np.step_is_zero num a b)
                (combine (map inject_Z start) (map inject_Z stop))).
  intros z. revert stop.
  induction start as [|a start IH]; intros [|b stop] Hl Hb; try discriminate; [reflexivity|].
  inversion Hb; subst. cbn [map combine].
  rewrite linspace_sample_first by assumption. f_equal. apply IH; [now injection Hl | assumption].
Qed.

Lemma ramp_row_last num start stop :
  2 <= num -> length start = length stop -> np.bytes stop ->
  map np.to_uint8 (np.linspace_row num (map inject_Z start) (map inject_Z stop) (num - 1)) = stop.
Proof.
  intros Hn. unfold np.linspace_row, np.bytes. cbv zeta.
  generalize (existsb (fun '(a, b) => np.step_is_zero num a b)
                (combine (map inject_Z start) (map inject_Z stop))).
  intros z. revert stop.
  induction start as [|a start IH]; intros [|b stop] Hl Hb; try discriminate; [reflexivity|].
  inversion Hb; subst. cbn [map combine].
  rewrite linspace_sample_last by assumption. f_equal. apply IH; [now injection Hl | assumption].
Qed.

(** The table [create_custom_lut] builds for a supported colour and a step
    between 1 and 255 starts at black, its gray ramp ends at white at entry
    [255 - step] (when the ramp has at least two entries), the colour ramp
    starts at the dark colour at entry [256 - step] and ends at the bright
    colour at entry 255 (when it has at least two entries). *)
Theorem gradient_endpoints (color : string) (step : Z) (s : state) :
  supported color -> 1 <= step <= 255 ->
  exists lut es dark bright,
    create_custom_lut color step s = (s, Ok lut) /\
    gradient_colors_of color step = Ok (dark, bright, step) /\
    np.u8_entries lut = Some es /\
    nth 0 es [] = [0; 0; 0] /\
    (step <= 254 -> nth (Z.to_nat (255 - step)) es [] = [255; 255; 255]) /\
    nth (Z.to_nat (256 - step)) es [] = dark /\
    (2 <= step -> nth 255 es [] = bright).
Proof.
  intros Hc Hs.
  assert (Hg : exists dark bright,
             gradient_colors_of color step = Ok (dark, bright, step) /\
             length dark = 3%nat /\ length bright = 3%nat /\
             np.bytes dark /\ np.bytes bright).
  { unfold supported in Hc. cbn [In] in Hc. unfold np.bytes.
    destruct Hc as [<-|[<-|[<-|[]]]]; do 2 eexists; (split; [reflexivity|]);
      repeat split; repeat constructor; lia. }
  destruct Hg as (dark & bright & Hg & Hd & Hb & Hdb & Hbb).
  set (row1 := fun i => map np.to_uint8
                 (np.linspace_row (256 - step) (map inject_Z [0; 0; 0])
                    (map inject_Z [255; 255; 255]) i)).
  set (row2 := fun i => map np.to_uint8
                 (np.linspace_row step (map inject_Z dark) (map inject_Z bright) i)).
  set (n1 := Z.to_nat (256 - step)). set (n2 := Z.to_nat step).
  assert (Hes : np.u8_entries (gradient_table dark bright step)
                = Some (map row1 (np.range (256 - step)) ++ map row2 (np.range step))).
  { unfold np.u8_entries, gradient_table. cbn [np.buf]. f_equal.
    change (np.row_width _) with 3%nat. change (Z.to_nat (np.len _)) with 256%nat.
    rewrite !ramp_rows. fold row1 row2.
    replace 256%nat with (length (np.range (256 - step)) + (length (np.range step) + 0))%nat
      by (rewrite !range_length; lia).
    rewrite chunks_rows.
    2: { intros i. unfold row1. rewrite length_map, linspace_row_length; reflexivity. }
    rewrite <- (app_nil_r (flat_map row2 _)), chunks_rows.
    2: { intros i. unfold row2.
         rewrite length_map, linspace_row_length; rewrite !length_map; congruence. }
    cbn [np.chunks]. now rewrite app_nil_r. }
  assert (Hbw : np.bytes [0; 0; 0] /\ np.bytes [255; 255; 255])
    by (unfold np.bytes; split; repeat constructor; lia).
  exists (gradient_table dark bright step). eexists. exists dark, bright.
  split; [now apply create_custom_lut_in_range|].
  split; [exact Hg|]. split; [exact Hes|].
  assert (Hl1 : length (map row1 (np.range (256 - step))) = n1)
    by (rewrite length_map; apply range_length).
  assert (Hnth1 : forall i, (i < n1)%nat ->
            nth i (map row1 (np.range (256 - step)) ++ map row2 (np.range step)) []
            = row1 (Z.of_nat i)).
  { intros i Hi. rewrite app_nth1 by lia.
    rewrite (nth_indep _ [] (row1 0)) by lia.
    rewrite map_nth, nth_range by exact Hi. reflexivity. }
  assert (Hnth2 : forall i, (i < n2)%nat ->
            nth (n1 + i) (map row1 (np.range (256 - step)) ++ map row2 (np.range step)) []
            = row2 (Z.of_nat i)).
  { intros i Hi. rewrite app_nth2 by lia. rewrite Hl1.
    replace (n1 + i - n1)%nat with i by lia.
    rewrite (nth_indep _ [] (row2 0)) by (rewrite length_map, range_length; exact Hi).
    rewrite map_nth, nth_range by exact Hi. reflexivity. }
  split; [|split; [|split]].
  - rewrite (Hnth1 0%nat) by (unfold n1; lia).
    apply ramp_row_first; [lia | reflexivity | apply Hbw].
  - intros H254. rewrite Hnth1 by (unfold n1; lia).
    replace (Z.of_nat (Z.to_nat (255 - step))) with (256 - step - 1) by lia.
    apply ramp_row_last; [lia | reflexivity | apply Hbw].
  - pose proof (Hnth2 0%nat) as Hfirst. rewrite Nat.add_0_r in Hfirst.
    fold n1. rewrite Hfirst by (unfold n2; lia).
    apply ramp_row_first; [lia | congruence | exact Hdb].
  - intros H2. replace 255%nat with (n1 + Z.to_nat (step - 1))%nat by (unfold n1; lia).
    rewrite Hnth2 by (unfold n2; lia).
    replace (Z.of_nat (Z.to_nat (step - 1))) with (step - 1) by lia.
    apply ramp_row_last; [lia | congruence | exact Hbb].
Qed.

Lemma gradient_endpoints_witness :
  exists lut es,
    create_custom_lut "red" 64 sample.viewer = (sample.viewer, Ok lut) /\
    np.u8_entries lut = Some es /\
    nth 0 es [] = [0; 0; 0] /\ nth 191 es [] = [255; 255; 255] /\
    nth 192 es [] = [64; 0; 0] /\ nth 255 es [] = [255; 0; 0].
Proof.
  destruct (gradient_endpoints "red" 64 sample.viewer) as
    (lut & es & dark & bright & Hrun & Hg & Hes & H0 & H191 & H192 & H255).
  - left. reflexivity.
  - lia.
  - injection Hg as <- <-. exists lut, es.
    split; [exact Hrun|]. split; [exact Hes|]. split; [exact H0|].
    split; [apply H191; lia|]. split; [exact H192 | apply H255; lia].
Defined.
